(** * rshim_pcie_lf: the live-fish register-access stack

    A shallow embedding of [src/rshim_pcie_lf.c]: the capability register
    accessor, the TRIO CR gateway lock, the CR-space accessor, the Byte
    Access Widget, the boot FIFO writer and the backend dispatcher, as
    state-passing functions over the PCI configuration space of one
    device.  Every modelled C function records its call in a trace, and
    the two libpci primitives record what the bus answered, so that
    statements about the order of operations can be made about a run.
    The probe routine and the bus scan are embedded over the answers of
    the RShim core and of libpci, with the calls they make to them. *)

From Stdlib Require Import ZArith List Bool Lia.
From Stdlib Require Ascii String.
Import ListNotations.

(** * Part I: the embedding *)

Local Open Scope Z_scope.

(** ** Integer types of the C source *)

Definition u8 (x : Z) : Z := x mod 2 ^ 8.

Definition u32 (x : Z) : Z := x mod 2 ^ 32.

Definition u64 (x : Z) : Z := x mod 2 ^ 64.

(** [int], two's complement. *)
Definition s32 (x : Z) : Z := (x + 2 ^ 31) mod 2 ^ 32 - 2 ^ 31.

(** [htonl]/[ntohl] on a little-endian host: the four bytes of a 32-bit
    word in reverse order. *)
Definition htonl (x : Z) : Z :=
  (x mod 2 ^ 8) * 2 ^ 24 + (x / 2 ^ 8 mod 2 ^ 8) * 2 ^ 16
  + (x / 2 ^ 16 mod 2 ^ 8) * 2 ^ 8 + (x / 2 ^ 24 mod 2 ^ 8).

Definition ntohl (x : Z) : Z := htonl x.

(** errno.h (Linux). *)
Definition ENODEV : Z := 19.

Definition ETIMEDOUT : Z := 110.

(** ** Constants defined in rshim_pcie_lf.c *)

Definition TILERA_VENDOR_ID : Z := 0x15b3.

Definition BLUEFIELD1_DEVICE_ID : Z := 0x0211.

Definition BLUEFIELD2_DEVICE_ID : Z := 0x0214.

Definition MELLANOX_ADDR : Z := 0x58.

Definition MELLANOX_DATA : Z := 0x5c.

Definition MELLANOX_CAP_READ : Z := 0x1.

Definition TRIO_CR_GW_LOCK : Z := 0xe38a0.

Definition TRIO_CR_GW_LOCK_CPY : Z := 0xe38a4.

Definition TRIO_CR_GW_DATA_UPPER : Z := 0xe38ac.

Definition TRIO_CR_GW_DATA_LOWER : Z := 0xe38b0.

Definition TRIO_CR_GW_CTL : Z := 0xe38b4.

Definition TRIO_CR_GW_ADDR_UPPER : Z := 0xe38b8.

Definition TRIO_CR_GW_ADDR_LOWER : Z := 0xe38bc.

Definition TRIO_CR_GW_LOCK_ACQUIRED : Z := 0x80000000.

Definition TRIO_CR_GW_LOCK_RELEASE : Z := 0x0.

Definition TRIO_CR_GW_BUSY : Z := 0x60000000.

Definition TRIO_CR_GW_TRIGGER : Z := 0xe0000000.

Definition TRIO_CR_GW_READ_4BYTE : Z := 0x6.

Definition TRIO_CR_GW_WRITE_4BYTE : Z := 0x2.

Definition CRSPACE_RSH_CHANNEL1_BASE : Z := 0x310000.

(** ** Constants of rshim.h

    The header is not among the sources, so the macros the file uses are
    the fields of a record and every definition below takes them as a
    parameter. *)

Record rshim_h := {
  RSH_CHANNEL_BASE : Z -> Z;
  RSHIM_CHANNEL : Z;
  RSH_BOOT_FIFO_DATA : Z;
  RSH_SCRATCHPAD : Z;
  RSH_BYTE_ACC_CTL : Z;
  RSH_BYTE_ACC_WDAT : Z;
  RSH_BYTE_ACC_RDAT : Z;
  RSH_BYTE_ACC_ADDR : Z;
  RSH_BYTE_ACC_INTERLOCK : Z;
  RSH_BYTE_ACC_PENDING : Z;
  RSH_BYTE_ACC_READ_TRIGGER : Z;
  RSH_BYTE_ACC_SIZE_4BYTE : Z;
  LOCK_RETRY_CNT : Z
}.

(** ** Return codes

    A C function of the file returns [int]: zero, or a non-zero code when
    it gave up.  [Good a] is a return of 0 with the value [a] stored
    through the result pointer (or [tt] when there is none); [Fail rc] is
    a return of the non-zero [rc]. *)

Inductive rc_or (A : Type) : Type :=
| Fail (rc : Z)
| Good (a : A).

Arguments Fail {A} rc.

Arguments Good {A} a.

Definition rc_of {A} (r : rc_or A) : Z :=
  match r with Fail rc => rc | Good _ => 0 end.

Definition is_good {A} (r : rc_or A) : bool :=
  match r with Fail _ => false | Good _ => true end.

Definition stored {A} (r : rc_or A) : option A :=
  match r with Fail _ => None | Good a => Some a end.

(** ** The call trace *)

Inductive fn :=
| f_pci_cap_read | f_pci_cap_write
| f_trio_cr_gw_lock_acquire | f_trio_cr_gw_lock_release
| f_crspace_rsh_gw_read | f_crspace_rsh_gw_write
| f_rshim_byte_acc_pending_wait
| f_rshim_byte_acc_lock_acquire | f_rshim_byte_acc_lock_release
| f_rshim_byte_acc_read | f_rshim_byte_acc_write
| f_rshim_boot_fifo_write
| f_rshim_pcie_read | f_rshim_pcie_write.

Definition fn_eqb (f g : fn) : bool :=
  match f, g with
  | f_pci_cap_read, f_pci_cap_read
  | f_pci_cap_write, f_pci_cap_write
  | f_trio_cr_gw_lock_acquire, f_trio_cr_gw_lock_acquire
  | f_trio_cr_gw_lock_release, f_trio_cr_gw_lock_release
  | f_crspace_rsh_gw_read, f_crspace_rsh_gw_read
  | f_crspace_rsh_gw_write, f_crspace_rsh_gw_write
  | f_rshim_byte_acc_pending_wait, f_rshim_byte_acc_pending_wait
  | f_rshim_byte_acc_lock_acquire, f_rshim_byte_acc_lock_acquire
  | f_rshim_byte_acc_lock_release, f_rshim_byte_acc_lock_release
  | f_rshim_byte_acc_read, f_rshim_byte_acc_read
  | f_rshim_byte_acc_write, f_rshim_byte_acc_write
  | f_rshim_boot_fifo_write, f_rshim_boot_fifo_write
  | f_rshim_pcie_read, f_rshim_pcie_read
  | f_rshim_pcie_write, f_rshim_pcie_write => true
  | _, _ => false
  end.

(** [Call f args]: the function [f] of the file was entered with the
    integer arguments [args].  [PciWrite pos data rc]: [pci_write_long]
    was called and returned [rc].  [PciRead pos data ok]: [pci_read_long]
    was called and delivered [data]; [ok] tells whether the configuration
    transaction behind it succeeded, which its [u32] return value does not
    show.  [TimedOut f]: the polling loop of [f] is about to return
    [-ETIMEDOUT]. *)
Inductive event :=
| Call (f : fn) (args : list Z)
| PciWrite (pos data rc : Z)
| PciRead (pos data : Z) (ok : bool)
| TimedOut (f : fn).

Definition event_eqb (a b : event) : bool :=
  match a, b with
  | Call f xs, Call g ys =>
      fn_eqb f g && (length xs =? length ys)%nat
      && forallb (fun p => fst p =? snd p) (combine xs ys)
  | PciWrite p d r, PciWrite p' d' r' => (p =? p') && (d =? d') && (r =? r')
  | PciRead p d o, PciRead p' d' o' => (p =? p') && (d =? d') && Bool.eqb o o'
  | TimedOut f, TimedOut g => fn_eqb f g
  | _, _ => false
  end.

(** How often exactly the event [e] occurs. *)
Definition occurrences (e : event) (t : list event) : nat :=
  length (filter (event_eqb e) t).

(** ** The bus

    libpci is outside the repository.  Its two entry points are the
    fields of [pci_ops] over an arbitrary hardware state:
    [int pci_write_long(dev, pos, data)] gives a status, and
    [u32 pci_read_long(dev, pos)] gives the word read (together with the
    outcome of the transaction, which the C caller cannot see). *)

Record pci_ops (hw : Type) := {
  cfg_write : hw -> Z -> Z -> Z * hw;
  cfg_read : hw -> Z -> (Z * bool) * hw
}.

Arguments cfg_write {hw} _ _ _ _.

Arguments cfg_read {hw} _ _ _.

(** [struct pci_dev], as far as the file looks at it: the device id, and
    the hardware behind the handle; with the trace of the run so far. *)
Record pci_dev (hw : Type) := {
  device_id : Z;
  bus : hw;
  trace : list event
}.

Arguments device_id {hw} _.

Arguments bus {hw} _.

Arguments trace {hw} _.

Arguments Build_pci_dev {hw} _ _ _.

(** [struct rshim_pcie] with the one field of [bd] the file reads. *)
Record rshim_pcie (hw : Type) := {
  has_rshim : bool;
  pci : pci_dev hw;
  write_count : Z
}.

Arguments has_rshim {hw} _.

Arguments pci {hw} _.

Arguments write_count {hw} _.

Arguments Build_rshim_pcie {hw} _ _ _.

(** ** The monad

    A computation takes the device and either returns a value and the
    device after it, or [None] when a polling loop was cut off by the
    iteration budget [fuel] given to the model. *)

Definition M (hw A : Type) : Type := pci_dev hw -> option (A * pci_dev hw).

Definition ret {hw A} (a : A) : M hw A := fun d => Some (a, d).

Definition bind {hw A B} (m : M hw A) (k : A -> M hw B) : M hw B :=
  fun d => match m d with
           | Some (a, d') => k a d'
           | None => None
           end.

(** [if (rc) return rc;] after a call. *)
Definition bind_rc {hw A B} (m : M hw (rc_or A)) (k : A -> M hw (rc_or B))
  : M hw (rc_or B) :=
  bind m (fun r => match r with
                   | Fail rc => ret (Fail rc)
                   | Good a => k a
                   end).

Definition cut_off {hw A} : M hw A := fun _ => None.

Declare Scope drv_scope.

Delimit Scope drv_scope with drv.

Notation "x <- m ;; k" := (bind m (fun x => k))
  (at level 61, m at next level, right associativity) : drv_scope.

Notation "x <~ m ;; k" := (bind_rc m (fun x => k))
  (at level 61, m at next level, right associativity) : drv_scope.

Notation "'check' m ;; k" := (bind_rc m (fun _ => k))
  (at level 61, m at next level, right associativity) : drv_scope.

Local Open Scope drv_scope.

(** A computation on the backend object [struct rshim_pcie]. *)
Definition D (hw A : Type) : Type :=
  rshim_pcie hw -> option (A * rshim_pcie hw).

Definition get_device_id {hw} : M hw Z := fun d => Some (device_id d, d).

Definition emit {hw} (e : event) : M hw unit :=
  fun d => Some (tt, Build_pci_dev (device_id d) (bus d) (trace d ++ [e])).

(** ** The driver *)

Section Driver.

Variable K : rshim_h.
Context {hw : Type}.
Variable ops : pci_ops hw.

(** Iteration budget of each polling loop of the model. *)
Variable fuel : nat.
Local Abbreviation M := (M hw).
Local Abbreviation D := (D hw).

Definition pci_write_long (pos data : Z) : M Z :=
  fun d =>
    let '(rc, h) := cfg_write ops (bus d) pos data in
    Some (rc, Build_pci_dev (device_id d) h
                (trace d ++ [PciWrite pos data rc])).

Definition pci_read_long (pos : Z) : M Z :=
  fun d =>
    let '((data, ok), h) := cfg_read ops (bus d) pos in
    Some (data, Build_pci_dev (device_id d) h
                  (trace d ++ [PciRead pos data ok])).

(** Mechanism to access the CR space using hidden PCI capabilities. *)
Definition pci_cap_read (offset : Z) : M (rc_or Z) :=
  _ <- emit (Call f_pci_cap_read [offset]) ;;
  rc <- pci_write_long MELLANOX_ADDR (u32 (Z.lor offset MELLANOX_CAP_READ)) ;;
  if rc <? 0 then ret (Fail rc)
  else
    result <- pci_read_long MELLANOX_DATA ;;
    ret (Good result).

Definition pci_cap_write (offset value : Z) : M (rc_or unit) :=
  _ <- emit (Call f_pci_cap_write [offset; value]) ;;
  rc <- pci_write_long MELLANOX_DATA value ;;
  if rc <? 0 then ret (Fail rc)
  else
    rc <- pci_write_long MELLANOX_ADDR (u32 offset) ;;
    if rc <? 0 then ret (Fail rc)
    else ret (Good tt).

(** The [do ... while] of [trio_cr_gw_lock_acquire]; [retry] is a
    [uint32_t]. *)
Fixpoint trio_cr_gw_lock_wait (n : nat) (retry : Z) : M (rc_or unit) :=
  match n with
  | O => cut_off
  | S n' =>
      read_value <~ pci_cap_read TRIO_CR_GW_LOCK ;;
      let retry := u32 (retry + 1) in
      if retry >? u32 (LOCK_RETRY_CNT K) then
        _ <- emit (TimedOut f_trio_cr_gw_lock_acquire) ;;
        ret (Fail (- ETIMEDOUT))
      else if Z.land read_value TRIO_CR_GW_LOCK_ACQUIRED =? 0
           then ret (Good tt)
           else trio_cr_gw_lock_wait n' retry
  end.

Definition trio_cr_gw_lock_acquire : M (rc_or unit) :=
  _ <- emit (Call f_trio_cr_gw_lock_acquire []) ;;
  check trio_cr_gw_lock_wait fuel 0 ;;
  pci_cap_write TRIO_CR_GW_LOCK TRIO_CR_GW_LOCK_ACQUIRED.

Definition trio_cr_gw_lock_release : M (rc_or unit) :=
  _ <- emit (Call f_trio_cr_gw_lock_release []) ;;
  pci_cap_write TRIO_CR_GW_LOCK TRIO_CR_GW_LOCK_RELEASE.

(** Mechanism to access the RShim from the CR space using the
    TRIO_CR_GATEWAY. *)
Definition crspace_rsh_gw_read (addr : Z) : M (rc_or Z) :=
  _ <- emit (Call f_crspace_rsh_gw_read [addr]) ;;
  id <- get_device_id ;;
  if id =? BLUEFIELD2_DEVICE_ID then
    let addr := Z.land addr 0xffff + CRSPACE_RSH_CHANNEL1_BASE in
    pci_cap_read addr
  else
    let addr := addr + RSH_CHANNEL_BASE K (RSHIM_CHANNEL K) in
    check trio_cr_gw_lock_acquire ;;
    check pci_cap_write TRIO_CR_GW_ADDR_LOWER (u32 addr) ;;
    check pci_cap_write TRIO_CR_GW_CTL TRIO_CR_GW_READ_4BYTE ;;
    check pci_cap_write TRIO_CR_GW_LOCK TRIO_CR_GW_TRIGGER ;;
    result <~ pci_cap_read TRIO_CR_GW_DATA_LOWER ;;
    let result := ntohl result in
    check trio_cr_gw_lock_release ;;
    ret (Good result).

Definition crspace_rsh_gw_write (addr value : Z) : M (rc_or unit) :=
  _ <- emit (Call f_crspace_rsh_gw_write [addr; value]) ;;
  id <- get_device_id ;;
  if id =? BLUEFIELD2_DEVICE_ID then
    let addr := Z.land addr 0xffff + CRSPACE_RSH_CHANNEL1_BASE in
    pci_cap_write addr value
  else
    let addr :=
      if Z.land addr 0xffff =? RSH_BOOT_FIFO_DATA K then addr
      else addr + RSH_CHANNEL_BASE K (RSHIM_CHANNEL K) in
    check trio_cr_gw_lock_acquire ;;
    check pci_cap_write TRIO_CR_GW_DATA_LOWER (htonl value) ;;
    check pci_cap_write TRIO_CR_GW_ADDR_LOWER (u32 addr) ;;
    check pci_cap_write TRIO_CR_GW_CTL TRIO_CR_GW_WRITE_4BYTE ;;
    check pci_cap_write TRIO_CR_GW_LOCK TRIO_CR_GW_TRIGGER ;;
    check trio_cr_gw_lock_release ;;
    ret (Good tt).

(** Wait until the RSH_BYTE_ACC_CTL pending bit is cleared: the
    [do ... while] of [rshim_byte_acc_pending_wait], [retry] a
    [uint32_t]. *)
Fixpoint pending_wait_loop (n : nat) (retry : Z) : M (rc_or unit) :=
  match n with
  | O => cut_off
  | S n' =>
      read_value <~ crspace_rsh_gw_read (RSH_BYTE_ACC_CTL K) ;;
      let retry := u32 (retry + 1) in
      if retry >? u32 (LOCK_RETRY_CNT K) then
        _ <- emit (TimedOut f_rshim_byte_acc_pending_wait) ;;
        ret (Fail (- ETIMEDOUT))
      else if Z.land read_value (RSH_BYTE_ACC_PENDING K) =? 0
           then ret (Good tt)
           else pending_wait_loop n' retry
  end.

Definition rshim_byte_acc_pending_wait : M (rc_or unit) :=
  _ <- emit (Call f_rshim_byte_acc_pending_wait []) ;;
  pending_wait_loop fuel 0.

(** Acquire BAW Interlock: the [do ... while] of
    [rshim_byte_acc_lock_acquire], [retry] an [int]. *)
Fixpoint interlock_loop (n : nat) (retry : Z) : M (rc_or unit) :=
  match n with
  | O => cut_off
  | S n' =>
      let retry := s32 (retry + 1) in
      if retry >? LOCK_RETRY_CNT K then
        _ <- emit (TimedOut f_rshim_byte_acc_lock_acquire) ;;
        ret (Fail (- ETIMEDOUT))
      else
        read_value <~ crspace_rsh_gw_read (RSH_BYTE_ACC_INTERLOCK K) ;;
        if negb (Z.land read_value 0x1 =? 0)
        then ret (Good tt)
        else interlock_loop n' retry
  end.

Definition rshim_byte_acc_lock_acquire : M (rc_or unit) :=
  _ <- emit (Call f_rshim_byte_acc_lock_acquire []) ;;
  interlock_loop fuel 0.

(** Release BAW Interlock. *)
Definition rshim_byte_acc_lock_release : M (rc_or unit) :=
  _ <- emit (Call f_rshim_byte_acc_lock_release []) ;;
  crspace_rsh_gw_write (RSH_BYTE_ACC_INTERLOCK K) 0.

(** The statements of [rshim_byte_acc_read] between the interlock
    acquire and the label [exit_read]; every failure in it is a
    [goto exit_read]. *)
Definition byte_acc_read_body (addr : Z) : M (rc_or Z) :=
  check crspace_rsh_gw_write (RSH_BYTE_ACC_ADDR K) (u32 addr) ;;
  check crspace_rsh_gw_write (RSH_BYTE_ACC_CTL K)
          (Z.lor (RSH_BYTE_ACC_READ_TRIGGER K) (RSH_BYTE_ACC_SIZE_4BYTE K)) ;;
  check rshim_byte_acc_pending_wait ;;
  read_value <~ crspace_rsh_gw_read (RSH_BYTE_ACC_RDAT K) ;;
  let read_result := u64 read_value in
  check rshim_byte_acc_pending_wait ;;
  read_value <~ crspace_rsh_gw_read (RSH_BYTE_ACC_RDAT K) ;;
  let read_result := Z.lor read_result (u64 (Z.shiftl (u64 read_value) 32)) in
  ret (Good read_result).

(** An 8-byte read through the Byte Access Widget.  The answer is the
    return code and what was stored through [result], if anything was. *)
Definition rshim_byte_acc_read (addr : Z) : M (rc_or unit * option Z) :=
  _ <- emit (Call f_rshim_byte_acc_read [addr]) ;;
  rc <- rshim_byte_acc_pending_wait ;;
  match rc with
  | Fail rc => ret (Fail rc, None)
  | Good _ =>
      id <- get_device_id ;;
      rc <- (if id =? BLUEFIELD2_DEVICE_ID
             then rshim_byte_acc_lock_acquire else ret (Good tt)) ;;
      match rc with
      | Fail rc => ret (Fail rc, None)
      | Good _ =>
          r <- byte_acc_read_body addr ;;
          (* exit_read: *)
          if id =? BLUEFIELD2_DEVICE_ID then
            rc <- rshim_byte_acc_lock_release ;;
            ret (rc, stored r)
          else
            ret (match r with Fail rc => Fail rc | Good _ => Good tt end,
                 stored r)
      end
  end.

(** The statements of [rshim_byte_acc_write] whose failure is a
    [goto exit_write]. *)
Definition byte_acc_write_body (value : Z) : M (rc_or unit) :=
  check crspace_rsh_gw_write (RSH_BYTE_ACC_CTL K) (RSH_BYTE_ACC_SIZE_4BYTE K) ;;
  check crspace_rsh_gw_write (RSH_BYTE_ACC_WDAT K) (u32 value) ;;
  check rshim_byte_acc_pending_wait ;;
  crspace_rsh_gw_write (RSH_BYTE_ACC_WDAT K) (u32 (Z.shiftr value 32)).

Definition rshim_byte_acc_write (addr value : Z) : M (rc_or unit) :=
  _ <- emit (Call f_rshim_byte_acc_write [addr; value]) ;;
  id <- get_device_id ;;
  check (if id =? BLUEFIELD2_DEVICE_ID
         then rshim_byte_acc_lock_acquire else ret (Good tt)) ;;
  check crspace_rsh_gw_write (RSH_BYTE_ACC_ADDR K) (u32 addr) ;;
  rc <- byte_acc_write_body value ;;
  (* exit_write: *)
  if id =? BLUEFIELD2_DEVICE_ID then rshim_byte_acc_lock_release
  else ret rc.

(** Two 4-byte writes to the boot FIFO, which couples them itself. *)
Definition rshim_boot_fifo_write (addr value : Z) : M (rc_or unit) :=
  _ <- emit (Call f_rshim_boot_fifo_write [addr; value]) ;;
  check crspace_rsh_gw_write addr (u32 value) ;;
  check crspace_rsh_gw_write addr (u32 (Z.shiftr value 32)) ;;
  ret (Good tt).
(** ** RShim read/write routines *)

(** Runs a computation on [dev->pci_dev]. *)
Definition on_pci {A} (m : M A) : D A :=
  fun dev => match m (pci dev) with
             | Some (a, p) =>
                 Some (a, Build_rshim_pcie (has_rshim dev) p (write_count dev))
             | None => None
             end.

Definition set_write_count (n : Z) (dev : rshim_pcie hw) : rshim_pcie hw :=
  Build_rshim_pcie (has_rshim dev) (pci dev) n.

Definition rshim_pcie_read (chan addr : Z) : D (rc_or unit * option Z) :=
  fun dev =>
    match on_pci (emit (Call f_rshim_pcie_read [chan; addr])) dev with
    | None => None
    | Some (_, dev) =>
        if negb (has_rshim dev) then Some ((Fail (- ENODEV), None), dev)
        else
          let dev := set_write_count 0 dev in
          on_pci (rshim_byte_acc_read (RSH_CHANNEL_BASE K chan + addr)) dev
    end.

(** The BlueField-1 limitation block of [rshim_pcie_write]: the drain
    read when [write_count] is 7, then the increment of the [u8]. *)
Definition write_throttle (chan : Z) : D unit :=
  fun dev =>
    if device_id (pci dev) =? BLUEFIELD1_DEVICE_ID then
      match (if write_count dev =? 7
             then match rshim_pcie_read chan (RSH_SCRATCHPAD K) dev with
                  | Some (_, dev') => Some dev'
                  | None => None
                  end
             else Some dev) with
      | Some dev => Some (tt, set_write_count (u8 (write_count dev + 1)) dev)
      | None => None
      end
    else Some (tt, dev).

Definition rshim_pcie_write (chan addr value : Z) : D (rc_or unit) :=
  fun dev =>
    match on_pci (emit (Call f_rshim_pcie_write [chan; addr; value])) dev with
    | None => None
    | Some (_, dev) =>
        let is_boot_stream := addr =? RSH_BOOT_FIFO_DATA K in
        if negb (has_rshim dev) then Some (Fail (- ENODEV), dev)
        else
          match write_throttle chan dev with
          | None => None
          | Some (_, dev) =>
              if is_boot_stream then
                on_pci (rshim_boot_fifo_write
                          (RSH_CHANNEL_BASE K chan + addr) value) dev
              else
                on_pci (rshim_byte_acc_write
                          (RSH_CHANNEL_BASE K chan + addr) value) dev
          end
    end.

(** [rshim_pcie_probe], the part that initialises the object: a fresh
    backend has [has_rshim = 1] and [write_count = 0]. *)
Definition rshim_pcie_probe (p : pci_dev hw) : rshim_pcie hw :=
  Build_rshim_pcie true p 0.

End Driver.

(** * Reasoning about runs *)

(** ** Projections of a trace *)

(** The layer a trace event belongs to: 0 the bus, 1 the capability
    accessor, 2 the gateway lock, 3 the CR-space accessor, 4 the widget's
    polling and interlock helpers, 5 the widget and the boot FIFO writer,
    6 the dispatcher. *)
Definition layer (e : event) : nat :=
  match e with
  | PciWrite _ _ _ | PciRead _ _ _ | TimedOut _ => 0
  | Call f _ =>
      match f with
      | f_pci_cap_read | f_pci_cap_write => 1
      | f_trio_cr_gw_lock_acquire | f_trio_cr_gw_lock_release => 2
      | f_crspace_rsh_gw_read | f_crspace_rsh_gw_write => 3
      | f_rshim_byte_acc_pending_wait
      | f_rshim_byte_acc_lock_acquire | f_rshim_byte_acc_lock_release => 4
      | f_rshim_byte_acc_read | f_rshim_byte_acc_write
      | f_rshim_boot_fifo_write => 5
      | f_rshim_pcie_read | f_rshim_pcie_write => 6
      end
  end%nat.

(** The events of layer [n]. *)
Definition at_layer (n : nat) (t : list event) : list event :=
  filter (fun e => Nat.eqb (layer e) n) t.

(** The events of layer [n] and above. *)
Definition from_layer (n : nat) (t : list event) : list event :=
  filter (fun e => Nat.leb n (layer e)) t.

(** ** Runs *)

(** [returns m d r t d']: started on [d], the computation [m] returns [r]
    and leaves [d'], the same device with the events [t] added to its
    trace. *)
Definition returns {hw A} (m : M hw A) (d : pci_dev hw) (r : A)
    (t : list event) (d' : pci_dev hw) : Prop :=
  m d = Some (r, d') /\ device_id d' = device_id d
  /\ trace d' = trace d ++ t.

(** [m] returns from [d], and [Q] holds of what it returns. *)
Definition wp {hw A} (m : M hw A) (d : pci_dev hw)
    (Q : A -> list event -> pci_dev hw -> Prop) : Prop :=
  exists r t d', returns m d r t d' /\ Q r t d'.

(** ** What a failure can come from *)

(** Some [pci_write_long] of the trace returned a negative status. *)
Definition is_bus_fault (e : event) : bool :=
  match e with PciWrite _ _ rc => rc <? 0 | _ => false end.

Definition bus_fault (t : list event) : Prop :=
  existsb is_bus_fault t = true.

(** Some polling loop of the trace gave up. *)
Definition is_timeout (e : event) : bool :=
  match e with TimedOut _ => true | _ => false end.

Definition timed_out (t : list event) : Prop :=
  existsb is_timeout t = true.

(** Something failed in the run. *)
Definition failed (t : list event) : Prop := bus_fault t \/ timed_out t.

(** A failure code is never 0: it is [-ETIMEDOUT] from a polling loop
    that gave up, or the negative status of a [pci_write_long]. *)
Definition explained {A} (r : rc_or A) (t : list event) : Prop :=
  match r with
  | Good _ => True
  | Fail rc => rc <> 0 /\ ((rc = - ETIMEDOUT /\ timed_out t)
                          \/ (rc < 0 /\ bus_fault t))
  end.

(** A [pci_write_long] that returned a negative status, or a polling
    loop that gave up. *)
Definition is_failure (e : event) : bool := is_bus_fault e || is_timeout e.

(** The status a function returns when it stops at the event [e]. *)
Definition status_of (e : event) : Z :=
  match e with
  | PciWrite _ _ rc => rc
  | TimedOut _ => - ETIMEDOUT
  | _ => 0
  end.

(** A run that returns 0 has seen no failure; a run that returns the
    status [rc] ends with the first failure of the run, and [rc] is the
    status of that failure. *)
Definition stops_at_first_error {A} (r : rc_or A) (t : list event) : Prop :=
  match r with
  | Good _ => ~ failed t
  | Fail rc => exists t0 e,
      t = t0 ++ [e] /\ ~ failed t0 /\ is_failure e = true
      /\ rc = status_of e
  end.

(** ** The capability register accessor *)

(** What [pci_cap_read] does, transaction by transaction. *)
Definition cap_read_outcome {hw} (ops : pci_ops hw) (offset : Z)
    (d : pci_dev hw)
  : rc_or Z * pci_dev hw :=
  let sel := u32 (Z.lor offset MELLANOX_CAP_READ) in
  let '(rc, h1) := cfg_write ops (bus d) MELLANOX_ADDR sel in
  let t1 := trace d ++ [Call f_pci_cap_read [offset]]
                    ++ [PciWrite MELLANOX_ADDR sel rc] in
  if rc <? 0 then (Fail rc, Build_pci_dev (device_id d) h1 t1)
  else
    let '((data, ok), h2) := cfg_read ops h1 MELLANOX_DATA in
    (Good data,
     Build_pci_dev (device_id d) h2 (t1 ++ [PciRead MELLANOX_DATA data ok])).

(** The shape every accessor call has in the trace: one call at layer
    1, nothing above. *)
Definition cap_shape {A} (e : event) (r : rc_or A) (t : list event) : Prop :=
  at_layer 1 t = [e] /\ from_layer 2 t = []
  /\ match r with Good _ => True | Fail rc => rc < 0 /\ bus_fault t end.

(** ** The gateway lock and the CR-space accessor *)

(** The accesses of a gateway transaction after the lock was found free,
    in program order; [mid] are those between the acquire and the
    release. *)
Definition gw_steps (mid : list event) : list event :=
  Call f_pci_cap_write [TRIO_CR_GW_LOCK; TRIO_CR_GW_LOCK_ACQUIRED]
  :: mid
  ++ [Call f_pci_cap_write [TRIO_CR_GW_LOCK; TRIO_CR_GW_LOCK_RELEASE]].

Definition gw_read_mid (addr : Z) : list event :=
  [Call f_pci_cap_write [TRIO_CR_GW_ADDR_LOWER; u32 addr];
   Call f_pci_cap_write [TRIO_CR_GW_CTL; TRIO_CR_GW_READ_4BYTE];
   Call f_pci_cap_write [TRIO_CR_GW_LOCK; TRIO_CR_GW_TRIGGER];
   Call f_pci_cap_read [TRIO_CR_GW_DATA_LOWER]].

Definition gw_write_mid (addr value : Z) : list event :=
  [Call f_pci_cap_write [TRIO_CR_GW_DATA_LOWER; htonl value];
   Call f_pci_cap_write [TRIO_CR_GW_ADDR_LOWER; u32 addr];
   Call f_pci_cap_write [TRIO_CR_GW_CTL; TRIO_CR_GW_WRITE_4BYTE];
   Call f_pci_cap_write [TRIO_CR_GW_LOCK; TRIO_CR_GW_TRIGGER]].

(** [k] polls of the lock register. *)
Definition lock_polls (k : nat) : list event :=
  repeat (Call f_pci_cap_read [TRIO_CR_GW_LOCK]) k.

(** What a CR-space access leaves in the trace.  On the newer revision
    it is the one accessor call [direct]; otherwise [k] polls of the
    gateway lock and the first [j] of the gateway's accesses, all six of
    them when it returns 0. *)
Definition gw_shape (K : rshim_h) (self direct : event) (mid : list event)
    (id : Z) {A} (r : rc_or A) (t : list event) : Prop :=
  from_layer 3 t = [self]
  /\ explained r t
  /\ if id =? BLUEFIELD2_DEVICE_ID then at_layer 1 t = [direct]
     else exists k j,
         (1 <= k)%nat /\ Z.of_nat k <= LOCK_RETRY_CNT K + 1
         /\ (j <= 6)%nat
         /\ at_layer 1 t = lock_polls k ++ firstn j (gw_steps mid)
         /\ (is_good r = true -> j = 6%nat).

(** ** The widget's helpers *)

(** [k] polls of the CR-space register [reg]. *)
Definition cr_polls (reg : Z) (k : nat) : list event :=
  repeat (Call f_crspace_rsh_gw_read [reg]) k.

(** ** The Byte Access Widget and the boot FIFO writer *)

(** The events of layer 3 and above of an 8-byte widget write in which
    nothing fails: [ka] polls of the interlock and [kp] polls of the
    pending bit. *)
Definition baw_write_trace (K : rshim_h) (id addr value : Z) (ka kp : nat)
  : list event :=
  Call f_rshim_byte_acc_write [addr; value]
  :: (if id =? BLUEFIELD2_DEVICE_ID
      then Call f_rshim_byte_acc_lock_acquire []
           :: cr_polls (RSH_BYTE_ACC_INTERLOCK K) ka
      else [])
  ++ [Call f_crspace_rsh_gw_write [RSH_BYTE_ACC_ADDR K; u32 addr];
      Call f_crspace_rsh_gw_write
        [RSH_BYTE_ACC_CTL K; RSH_BYTE_ACC_SIZE_4BYTE K];
      Call f_crspace_rsh_gw_write [RSH_BYTE_ACC_WDAT K; u32 value]]
  ++ Call f_rshim_byte_acc_pending_wait []
  :: cr_polls (RSH_BYTE_ACC_CTL K) kp
  ++ [Call f_crspace_rsh_gw_write
        [RSH_BYTE_ACC_WDAT K; u32 (Z.shiftr value 32)]]
  ++ (if id =? BLUEFIELD2_DEVICE_ID
      then [Call f_rshim_byte_acc_lock_release [];
            Call f_crspace_rsh_gw_write [RSH_BYTE_ACC_INTERLOCK K; 0]]
      else []).

(** The same for an 8-byte widget read: [k0], [k1] and [k2] polls of the
    pending bit in its three waits. *)
Definition baw_read_trace (K : rshim_h) (id addr : Z) (ka k0 k1 k2 : nat)
  : list event :=
  Call f_rshim_byte_acc_read [addr]
  :: Call f_rshim_byte_acc_pending_wait []
  :: cr_polls (RSH_BYTE_ACC_CTL K) k0
  ++ (if id =? BLUEFIELD2_DEVICE_ID
      then Call f_rshim_byte_acc_lock_acquire []
           :: cr_polls (RSH_BYTE_ACC_INTERLOCK K) ka
      else [])
  ++ [Call f_crspace_rsh_gw_write [RSH_BYTE_ACC_ADDR K; u32 addr];
      Call f_crspace_rsh_gw_write
        [RSH_BYTE_ACC_CTL K;
         Z.lor (RSH_BYTE_ACC_READ_TRIGGER K) (RSH_BYTE_ACC_SIZE_4BYTE K)]]
  ++ Call f_rshim_byte_acc_pending_wait []
  :: cr_polls (RSH_BYTE_ACC_CTL K) k1
  ++ [Call f_crspace_rsh_gw_read [RSH_BYTE_ACC_RDAT K]]
  ++ Call f_rshim_byte_acc_pending_wait []
  :: cr_polls (RSH_BYTE_ACC_CTL K) k2
  ++ [Call f_crspace_rsh_gw_read [RSH_BYTE_ACC_RDAT K]]
  ++ (if id =? BLUEFIELD2_DEVICE_ID
      then [Call f_rshim_byte_acc_lock_release [];
            Call f_crspace_rsh_gw_write [RSH_BYTE_ACC_INTERLOCK K; 0]]
      else []).

(** ** The dispatcher *)

(** [returnsD m dev r t dev']: started on the backend object [dev], the
    computation returns [r] and leaves [dev'], whose device carries the
    events [t] in addition; the [has_rshim] flag is as before. *)
Definition returnsD {hw A} (m : D hw A) (dev : rshim_pcie hw) (r : A)
    (t : list event) (dev' : rshim_pcie hw) : Prop :=
  m dev = Some (r, dev')
  /\ has_rshim dev' = has_rshim dev
  /\ device_id (pci dev') = device_id (pci dev)
  /\ trace (pci dev') = trace (pci dev) ++ t.

(** The events at layer 5 and above of the drain read of a write on
    channel [chan], when one is due. *)
Definition drain_read (K : rshim_h) (chan : Z) : list event :=
  [Call f_rshim_pcie_read [chan; RSH_SCRATCHPAD K];
   Call f_rshim_byte_acc_read [RSH_CHANNEL_BASE K chan + RSH_SCRATCHPAD K]].

(** The routing of a write: the call it ends in. *)
Definition routed (K : rshim_h) (chan addr value : Z) : event :=
  if addr =? RSH_BOOT_FIFO_DATA K
  then Call f_rshim_boot_fifo_write [RSH_CHANNEL_BASE K chan + addr; value]
  else Call f_rshim_byte_acc_write [RSH_CHANNEL_BASE K chan + addr; value].

(** Whether a write on this device with this counter starts with a drain
    read. *)
Definition drains (id count : Z) : bool :=
  (id =? BLUEFIELD1_DEVICE_ID) && (count =? 7).

(** The counter after a write. *)
Definition next_count (id count : Z) : Z :=
  if id =? BLUEFIELD1_DEVICE_ID
  then u8 ((if count =? 7 then 0 else count) + 1)
  else count.

(** * Concrete inputs *)

(** Modelled from the spec: rshim.h is missing from the sources, and with
    it the values of these macros.  The spec fixes their roles (an
    additive channel base, the boot-FIFO data register, a scratch
    register, the widget's control, address, data and interlock registers
    with their pending, read-trigger and size bits, one retry bound for
    every polling loop, "e.g. 1000 iterations"); this record gives each a
    value so that the model can be run.  The theorems below hold for any
    values. *)
Definition bluefield_h : rshim_h := {|
  RSH_CHANNEL_BASE := fun chan => Z.shiftl chan 16;
  RSHIM_CHANNEL := 1;
  RSH_BOOT_FIFO_DATA := 0x408;
  RSH_SCRATCHPAD := 0x20;
  RSH_BYTE_ACC_CTL := 0x490;
  RSH_BYTE_ACC_WDAT := 0x498;
  RSH_BYTE_ACC_RDAT := 0x4a0;
  RSH_BYTE_ACC_ADDR := 0x4a8;
  RSH_BYTE_ACC_INTERLOCK := 0x4b0;
  RSH_BYTE_ACC_PENDING := 0x20;
  RSH_BYTE_ACC_READ_TRIGGER := 0x40;
  RSH_BYTE_ACC_SIZE_4BYTE := 0x10;
  LOCK_RETRY_CNT := 1000
|}.

(** A scripted bus.  It counts the calls of [pci_write_long] and keeps
    the word last written to MELLANOX_ADDR.  The writes whose number
    [fails] selects return [-EIO] and change nothing else; a read of
    MELLANOX_DATA is answered by [answer] from the selected address. *)
Record script := {
  n_writes : nat;
  selected : Z
}.

Definition EIO : Z := 5.

Definition script_ops (fails : nat -> bool) (answer : Z -> Z * bool)
  : pci_ops script := {|
  cfg_write s pos data :=
    if fails (n_writes s)
    then (- EIO, {| n_writes := S (n_writes s); selected := selected s |})
    else (0, {| n_writes := S (n_writes s);
                selected := if pos =? MELLANOX_ADDR then data
                            else selected s |});
  cfg_read s pos := (answer (selected s), s)
|}.

Definition script_dev (id : Z) : pci_dev script :=
  Build_pci_dev id {| n_writes := 0; selected := 0 |} [].

(** No write fails. *)
Definition never (n : nat) : bool := false.

(** Only write number [k] (from 0) fails. *)
Definition only (k n : nat) : bool := Nat.eqb n k.

(** Every register reads as [v]. *)
Definition reads_as (v : Z) (sel : Z) : Z * bool := (v, true).

(** * The capability register accessor (C8) *)

(** A configuration transaction of the trace that failed: a
    [pci_write_long] with a negative status, or a [pci_read_long] whose
    transaction did not succeed. *)
Definition is_failed_transaction (e : event) : bool :=
  match e with
  | PciWrite _ _ rc => rc <? 0
  | PciRead _ _ ok => negb ok
  | _ => false
  end.

(** The claim as the spec words it: [pci_cap_read] fails whenever one of
    its two configuration transactions fails. *)
Definition cap_read_reports_every_failure : Prop :=
  forall hw (ops : pci_ops hw) offset d r t d',
    returns (pci_cap_read ops offset) d r t d' ->
    existsb is_failed_transaction t = true ->
    is_good r = false.

(** A bus on which writes succeed and the read of the data register
    fails, delivering all ones. *)
Definition dead_read_ops : pci_ops script :=
  script_ops never (fun _ => (0xffffffff, false)).

(** * The polling loops (C6) *)

(** A polling function returns 0, returns [-ETIMEDOUT], or has seen a
    configuration write fail. *)
Definition poll_result (r : rc_or unit) (t : list event) : Prop :=
  r = Good tt \/ r = Fail (- ETIMEDOUT) \/ bus_fault t.

(** What the three polling functions do on the device [d]: each returns,
    after a bounded number of polls of its register. *)
Definition polling_terminates {hw} (K : rshim_h) (ops : pci_ops hw)
    (fuel : nat) (d : pci_dev hw) : Prop :=
  (exists r t d' k j,
      returns (trio_cr_gw_lock_acquire K ops fuel) d r t d'
      /\ poll_result r t
      /\ (1 <= k)%nat /\ Z.of_nat k <= LOCK_RETRY_CNT K + 1
      /\ at_layer 1 t = lock_polls k ++ firstn j (gw_steps [])
      /\ (is_good r = true -> Z.of_nat k <= LOCK_RETRY_CNT K))
  /\ (exists r t d' k,
        returns (rshim_byte_acc_pending_wait K ops fuel) d r t d'
        /\ poll_result r t
        /\ (1 <= k)%nat /\ Z.of_nat k <= LOCK_RETRY_CNT K + 1
        /\ from_layer 3 t = Call f_rshim_byte_acc_pending_wait []
                             :: cr_polls (RSH_BYTE_ACC_CTL K) k
        /\ (is_good r = true -> Z.of_nat k <= LOCK_RETRY_CNT K))
  /\ (exists r t d' k,
        returns (rshim_byte_acc_lock_acquire K ops fuel) d r t d'
        /\ poll_result r t
        /\ Z.of_nat k <= LOCK_RETRY_CNT K
        /\ from_layer 3 t = Call f_rshim_byte_acc_lock_acquire []
                             :: cr_polls (RSH_BYTE_ACC_INTERLOCK K) k).

(** The registers of this bus never change: the gateway lock stays
    taken, the pending bit stays set and the interlock never gets
    ready. *)
Definition stuck_ops : pci_ops script :=
  script_ops never (reads_as 0xfffffffe).

(** * The gateway lock on the exit paths (C2) *)

Definition lock_acquire_write : event :=
  Call f_pci_cap_write [TRIO_CR_GW_LOCK; TRIO_CR_GW_LOCK_ACQUIRED].

Definition lock_release_write : event :=
  Call f_pci_cap_write [TRIO_CR_GW_LOCK; TRIO_CR_GW_LOCK_RELEASE].

(** The claim as the spec words it, for a run of a gateway access: as
    many releases as acquires when it returns. *)
Definition lock_balanced (t : list event) : Prop :=
  occurrences lock_release_write t = occurrences lock_acquire_write t.

(** What the code keeps instead.  The lock is acquired at most once and
    released at most once, never without the acquire.  A run that
    returns 0 did both, the release as its last access.  In a run that
    fails, a release was issued only if it is the last access, that is,
    if the release itself is what failed. *)
Definition lock_discipline {A} (r : rc_or A) (t : list event) : Prop :=
  (occurrences lock_acquire_write t <= 1)%nat
  /\ (occurrences lock_release_write t
      <= occurrences lock_acquire_write t)%nat
  /\ (is_good r = true ->
      occurrences lock_acquire_write t = 1%nat
      /\ occurrences lock_release_write t = 1%nat)
  /\ (occurrences lock_release_write t = 1%nat ->
      last (at_layer 1 t) lock_acquire_write = lock_release_write).

(** The release is the step that failed with the status [rc]: the
    failure [e] is the last event of the run and the first failure, and
    no accessor call lies between the release and [e]. *)
Definition release_failed (rc : Z) (t : list event) : Prop :=
  exists t1 t2 e,
    t = t1 ++ lock_release_write :: t2 ++ [e]
    /\ at_layer 1 t2 = []
    /\ ~ failed (t1 ++ lock_release_write :: t2)
    /\ is_failure e = true
    /\ rc = status_of e.

(** A run that fails holds no release at all, unless the release is the
    step that failed. *)
Definition release_only_if_it_failed {A} (r : rc_or A) (t : list event)
    : Prop :=
  match r with
  | Good _ => True
  | Fail rc => occurrences lock_release_write t = 0%nat \/ release_failed rc t
  end.

(** What one gateway access keeps: the discipline of the lock; the run
    stops at its first failure and returns the status of it, so that
    nothing, and no release, follows the step that failed; and a failing
    run has no release other than one that failed itself. *)
Definition lock_protocol {A} (r : rc_or A) (t : list event) : Prop :=
  lock_discipline r t
  /\ stops_at_first_error r t
  /\ release_only_if_it_failed r t.

(** What the two gateway accesses do on the legacy device [d]. *)
Definition gateway_lock_discipline {hw} (K : rshim_h) (ops : pci_ops hw)
    (fuel : nat) (d : pci_dev hw) (addr value : Z) : Prop :=
  (exists r t d',
      returns (crspace_rsh_gw_read K ops fuel addr) d r t d'
      /\ lock_protocol r t)
  /\ (exists r t d',
        returns (crspace_rsh_gw_write K ops fuel addr value) d r t d'
        /\ lock_protocol r t).

(** * The widget interlock on the exit paths (C3, C4) *)

(** A newer-revision device whose interlock is ready and whose pending
    bit is clear: every register reads as 1. *)
Definition ready_ops (fails : nat -> bool) : pci_ops script :=
  script_ops fails (reads_as 1).

(** A newer-revision device whose interlock is ready and whose pending
    bit never clears: every register reads as 0x21. *)
Definition pending_stuck_ops : pci_ops script :=
  script_ops never (reads_as (Z.lor 0x1 (RSH_BYTE_ACC_PENDING bluefield_h))).

(** * The order of an 8-byte widget write (C9) *)

(** The sequence as the spec words it, at layer 3 and above: interlock
    acquire, address write, control write, a pending-bit wait, the low
    word, a second pending-bit wait, the high word, interlock release;
    [ka], [kp1] and [kp2] polls in the acquire and in the two waits. *)
Definition claimed_write_trace (K : rshim_h) (id addr value : Z)
    (ka kp1 kp2 : nat) : list event :=
  Call f_rshim_byte_acc_write [addr; value]
  :: (if id =? BLUEFIELD2_DEVICE_ID
      then Call f_rshim_byte_acc_lock_acquire []
           :: cr_polls (RSH_BYTE_ACC_INTERLOCK K) ka
      else [])
  ++ [Call f_crspace_rsh_gw_write [RSH_BYTE_ACC_ADDR K; u32 addr];
      Call f_crspace_rsh_gw_write
        [RSH_BYTE_ACC_CTL K; RSH_BYTE_ACC_SIZE_4BYTE K]]
  ++ Call f_rshim_byte_acc_pending_wait []
  :: cr_polls (RSH_BYTE_ACC_CTL K) kp1
  ++ [Call f_crspace_rsh_gw_write [RSH_BYTE_ACC_WDAT K; u32 value]]
  ++ Call f_rshim_byte_acc_pending_wait []
  :: cr_polls (RSH_BYTE_ACC_CTL K) kp2
  ++ [Call f_crspace_rsh_gw_write
        [RSH_BYTE_ACC_WDAT K; u32 (Z.shiftr value 32)]]
  ++ (if id =? BLUEFIELD2_DEVICE_ID
      then [Call f_rshim_byte_acc_lock_release [];
            Call f_crspace_rsh_gw_write [RSH_BYTE_ACC_INTERLOCK K; 0]]
      else []).

(** What an 8-byte widget write does on the device [d]: when nothing
    fails it returns 0 and its events at layer 3 and above are exactly
    [baw_write_trace]. *)
Definition byte_acc_write_in_order {hw} (K : rshim_h) (ops : pci_ops hw)
    (fuel : nat) (d : pci_dev hw) (addr value : Z) : Prop :=
  exists r t d',
    returns (rshim_byte_acc_write K ops fuel addr value) d r t d'
    /\ (~ failed t ->
        r = Good tt
        /\ exists ka kp,
            (1 <= ka)%nat /\ Z.of_nat ka <= LOCK_RETRY_CNT K
            /\ (1 <= kp)%nat /\ Z.of_nat kp <= LOCK_RETRY_CNT K
            /\ from_layer 3 t
               = baw_write_trace K (device_id d) addr value ka kp).

(** * The routing of a write (C7) *)

(** The address the legacy gateway write puts into TRIO_CR_GW_ADDR_LOWER
    for the CR-space address [addr]. *)
Definition gateway_address (K : rshim_h) (addr : Z) : Z :=
  if Z.land addr 0xffff =? RSH_BOOT_FIFO_DATA K then addr
  else addr + RSH_CHANNEL_BASE K (RSHIM_CHANNEL K).

(** What a write that passes the [has_rshim] guard does on [dev], and
    what a gateway write does on a legacy device [d]. *)
Definition write_routing {hw} (K : rshim_h) (ops : pci_ops hw) (fuel : nat)
    (dev : rshim_pcie hw) (chan addr value : Z) : Prop :=
  exists r t dev',
    returnsD (rshim_pcie_write K ops fuel chan addr value) dev r t dev'
    /\ from_layer 5 t =
         Call f_rshim_pcie_write [chan; addr; value]
         :: (if drains (device_id (pci dev)) (write_count dev)
             then drain_read K chan else [])
         ++ [if addr =? RSH_BOOT_FIFO_DATA K
             then Call f_rshim_boot_fifo_write
                    [RSH_CHANNEL_BASE K chan + addr; value]
             else Call f_rshim_byte_acc_write
                    [RSH_CHANNEL_BASE K chan + addr; value]].

Definition gateway_write_address {hw} (K : rshim_h) (ops : pci_ops hw)
    (fuel : nat) (d : pci_dev hw) (addr value : Z) : Prop :=
  exists r t d',
    returns (crspace_rsh_gw_write K ops fuel addr value) d r t d'
    /\ (is_good r = true ->
        exists k,
          at_layer 1 t =
            lock_polls k
            ++ gw_steps (gw_write_mid (gateway_address K addr) value)).

(** A legacy backend just after the probe, on a bus where nothing fails
    and every register reads 0. *)
Definition quiet_legacy : rshim_pcie script :=
  rshim_pcie_probe (script_dev BLUEFIELD1_DEVICE_ID).

(** The claim as the spec words it: a write to the boot-FIFO data
    register hands the Boot FIFO Writer the offset itself, with no channel
    base added. *)
Definition boot_fifo_address_has_no_channel_base : Prop :=
  forall hw (K : rshim_h) (ops : pci_ops hw) (fuel : nat)
         (dev : rshim_pcie hw) (chan value : Z) r t dev',
    has_rshim dev = true ->
    returnsD (rshim_pcie_write K ops fuel chan (RSH_BOOT_FIFO_DATA K) value)
      dev r t dev' ->
    In (Call f_rshim_boot_fifo_write [RSH_BOOT_FIFO_DATA K; value]) t.

(** * The write counter (C5, C10) *)

(** A call of the dispatcher, as the front end makes it under the
    backend's mutex. *)
Inductive call :=
| BackendRead (chan addr : Z)
| BackendWrite (chan addr value : Z).

Section Calls.

Variable K : rshim_h.
Context {hw : Type}.
Variable ops : pci_ops hw.
Variable fuel : nat.

Definition do_call (c : call) (dev : rshim_pcie hw)
  : option (rshim_pcie hw) :=
  match c with
  | BackendRead chan addr =>
      match rshim_pcie_read K ops fuel chan addr dev with
      | Some (_, dev') => Some dev'
      | None => None
      end
  | BackendWrite chan addr value =>
      match rshim_pcie_write K ops fuel chan addr value dev with
      | Some (_, dev') => Some dev'
      | None => None
      end
  end.

(** The calls [cs], one after the other, the first first. *)
Fixpoint run_calls (cs : list call) (dev : rshim_pcie hw)
  : option (rshim_pcie hw) :=
  match cs with
  | [] => Some dev
  | c :: cs' =>
      match do_call c dev with
      | Some dev' => run_calls cs' dev'
      | None => None
      end
  end.

End Calls.

(** The number of writes at the end of [cs], after its last read. *)
Definition writes_since_read (cs : list call) : nat :=
  fold_left (fun n c => match c with
                        | BackendRead _ _ => 0%nat
                        | BackendWrite _ _ _ => S n
                        end) cs 0%nat.

(** The counter of a device with id [id] after [n] writes since the last
    read: it runs 1, ..., 7 and starts again at 1. *)
Definition count_after (id : Z) (n : nat) : Z :=
  if id =? BLUEFIELD1_DEVICE_ID
  then match n with
       | O => 0
       | S m => Z.of_nat m mod 7 + 1
       end
  else 0.

(** Whether the next write after [n] writes since the last read starts
    with a drain read. *)
Definition drain_due (id : Z) (n : nat) : bool :=
  (id =? BLUEFIELD1_DEVICE_ID) && (0 <? Z.of_nat n)
  && (Z.of_nat n mod 7 =? 0).

(** What holds after the calls [cs] on the probed device [p]: a read
    resets the counter, and a write starts with the drain read of the
    scratch register exactly when [drain_due] says so, before the call it
    is routed to. *)
Definition throttled {hw} (K : rshim_h) (ops : pci_ops hw) (fuel : nat)
    (p : pci_dev hw) (cs : list call) : Prop :=
  exists dev,
    run_calls K ops fuel cs (rshim_pcie_probe p) = Some dev
    /\ (forall chan addr, exists r t dev',
          returnsD (rshim_pcie_read K ops fuel chan addr) dev r t dev'
          /\ write_count dev' = 0)
    /\ (forall chan addr value, exists r t dev',
          returnsD (rshim_pcie_write K ops fuel chan addr value) dev r t dev'
          /\ from_layer 5 t =
               Call f_rshim_pcie_write [chan; addr; value]
               :: (if drain_due (device_id p) (writes_since_read cs)
                   then drain_read K chan else [])
               ++ [routed K chan addr value]).

(** Seven writes on a legacy device after a read. *)
Definition seven_writes : list call :=
  BackendRead 1 0x20
  :: map (fun v => BackendWrite 1 0x100 v) [1; 2; 3; 4; 5; 6; 7].

(** What holds of the counter after the calls [cs] on the probed device
    [p]. *)
Definition counter_bounded {hw} (K : rshim_h) (ops : pci_ops hw)
    (fuel : nat) (p : pci_dev hw) (cs : list call) : Prop :=
  exists dev,
    run_calls K ops fuel cs (rshim_pcie_probe p) = Some dev
    /\ 0 <= write_count dev <= 7
    /\ (device_id p <> BLUEFIELD1_DEVICE_ID -> write_count dev = 0)
    /\ (forall chan addr, exists r t dev',
          returnsD (rshim_pcie_read K ops fuel chan addr) dev r t dev'
          /\ write_count dev' = 0)
    /\ (forall chan addr value, exists r t dev',
          returnsD (rshim_pcie_write K ops fuel chan addr value) dev r t dev'
          /\ write_count dev' =
               if device_id p =? BLUEFIELD1_DEVICE_ID
               then (if write_count dev =? 7 then 0 else write_count dev) + 1
               else write_count dev).

(** * The simulated hardware register file *)

(** Modelled from the spec: the simulated hardware register file of the
    round-trip property is no part of the sources.  It follows what the
    spec and the comments of the source say of the hardware.  The hidden
    capability is an address/data pair: a write of an offset with the
    read bit set latches the CR-space word at that offset into the data
    register, a write with the bit clear stores the data register at the
    offset.  The gateway of the legacy revision has a lock, data, control
    and address register and performs the 4-byte access selected in its
    control register when the trigger pattern is written to the lock
    register, the word crossing in network byte order.  The newer revision
    shows the registers of the widget's channel in a 64 KiB window at
    CRSPACE_RSH_CHANNEL1_BASE.  The Byte Access Widget keeps a target
    address; a control write with the read trigger fetches the two halves
    of the 64-bit register at the target, which two reads of ACC_RDAT
    deliver low half first; two writes to ACC_WDAT store a 64-bit
    register, low half first.  Its pending bit is clear and its interlock
    ready whenever they are polled.  The boot FIFO swallows what is
    written to it. *)
Record widget := {
  acc_addr : Z;
  acc_wlow : option Z;
  acc_rbuf : list Z;
  regs : Z -> Z;
  boot_fifo : list Z
}.

Record sim := {
  cap_data : Z;
  gw_lock : Z;
  gw_data : Z;
  gw_ctl : Z;
  gw_addr : Z;
  rsh : widget
}.

Section Simulator.

Variable K : rshim_h.

(** The base of the channel the widget's registers live in. *)
Definition widget_base : Z := RSH_CHANNEL_BASE K (RSHIM_CHANNEL K).

Definition set_regs (f : Z -> Z) (a v : Z) : Z -> Z :=
  fun x => if x =? a then v else f x.

(** A 4-byte write to the RShim address [a]. *)
Definition rsh_write32 (a v : Z) (w : widget) : widget :=
  if a =? RSH_BYTE_ACC_ADDR K + widget_base then
    {| acc_addr := v; acc_wlow := acc_wlow w; acc_rbuf := acc_rbuf w;
       regs := regs w; boot_fifo := boot_fifo w |}
  else if a =? RSH_BYTE_ACC_CTL K + widget_base then
    {| acc_addr := acc_addr w; acc_wlow := None;
       acc_rbuf :=
         if Z.land v (RSH_BYTE_ACC_READ_TRIGGER K) =? 0 then []
         else [regs w (acc_addr w) mod 2 ^ 32;
               regs w (acc_addr w) / 2 ^ 32 mod 2 ^ 32];
       regs := regs w; boot_fifo := boot_fifo w |}
  else if a =? RSH_BYTE_ACC_WDAT K + widget_base then
    match acc_wlow w with
    | None =>
        {| acc_addr := acc_addr w; acc_wlow := Some v;
           acc_rbuf := acc_rbuf w; regs := regs w;
           boot_fifo := boot_fifo w |}
    | Some low =>
        {| acc_addr := acc_addr w; acc_wlow := None;
           acc_rbuf := acc_rbuf w;
           regs := set_regs (regs w) (acc_addr w) (low + 2 ^ 32 * v);
           boot_fifo := boot_fifo w |}
    end
  else if a =? RSH_BYTE_ACC_INTERLOCK K + widget_base then w
  else if Z.land a 0xffff =? RSH_BOOT_FIFO_DATA K then
    {| acc_addr := acc_addr w; acc_wlow := acc_wlow w;
       acc_rbuf := acc_rbuf w; regs := regs w;
       boot_fifo := boot_fifo w ++ [v] |}
  else w.

(** A 4-byte read of the RShim address [a]. *)
Definition rsh_read32 (a : Z) (w : widget) : Z * widget :=
  if a =? RSH_BYTE_ACC_RDAT K + widget_base then
    match acc_rbuf w with
    | x :: rest =>
        (x, {| acc_addr := acc_addr w; acc_wlow := acc_wlow w;
               acc_rbuf := rest; regs := regs w;
               boot_fifo := boot_fifo w |})
    | [] => (0, w)
    end
  else if a =? RSH_BYTE_ACC_INTERLOCK K + widget_base then (1, w)
  else (0, w).

Definition in_window (off : Z) : bool :=
  (CRSPACE_RSH_CHANNEL1_BASE <=? off)
  && (off <? CRSPACE_RSH_CHANNEL1_BASE + 0x10000).

Definition with_rsh (s : sim) (w : widget) : sim :=
  {| cap_data := cap_data s; gw_lock := gw_lock s; gw_data := gw_data s;
     gw_ctl := gw_ctl s; gw_addr := gw_addr s; rsh := w |}.

(** The gateway performs the access its control register selects. *)
Definition gw_fire (s : sim) : sim :=
  if gw_ctl s =? TRIO_CR_GW_WRITE_4BYTE then
    with_rsh s (rsh_write32 (gw_addr s) (ntohl (gw_data s)) (rsh s))
  else if gw_ctl s =? TRIO_CR_GW_READ_4BYTE then
    let '(x, w) := rsh_read32 (gw_addr s) (rsh s) in
    {| cap_data := cap_data s; gw_lock := gw_lock s;
       gw_data := htonl (u32 x);
       gw_ctl := gw_ctl s; gw_addr := gw_addr s; rsh := w |}
  else s.

(** A write of [v] to the CR-space offset [off]. *)
Definition cr_write (off v : Z) (s : sim) : sim :=
  if in_window off then
    with_rsh s (rsh_write32 (off - CRSPACE_RSH_CHANNEL1_BASE + widget_base)
                  v (rsh s))
  else if off =? TRIO_CR_GW_LOCK then
    if v =? TRIO_CR_GW_TRIGGER then gw_fire s
    else {| cap_data := cap_data s; gw_lock := v; gw_data := gw_data s;
            gw_ctl := gw_ctl s; gw_addr := gw_addr s; rsh := rsh s |}
  else if off =? TRIO_CR_GW_DATA_LOWER then
    {| cap_data := cap_data s; gw_lock := gw_lock s; gw_data := v;
       gw_ctl := gw_ctl s; gw_addr := gw_addr s; rsh := rsh s |}
  else if off =? TRIO_CR_GW_CTL then
    {| cap_data := cap_data s; gw_lock := gw_lock s; gw_data := gw_data s;
       gw_ctl := v; gw_addr := gw_addr s; rsh := rsh s |}
  else if off =? TRIO_CR_GW_ADDR_LOWER then
    {| cap_data := cap_data s; gw_lock := gw_lock s; gw_data := gw_data s;
       gw_ctl := gw_ctl s; gw_addr := v; rsh := rsh s |}
  else s.

(** A read of the CR-space offset [off]. *)
Definition cr_read (off : Z) (s : sim) : Z * sim :=
  if in_window off then
    let '(x, w) :=
      rsh_read32 (off - CRSPACE_RSH_CHANNEL1_BASE + widget_base) (rsh s) in
    (x, with_rsh s w)
  else if off =? TRIO_CR_GW_LOCK then (gw_lock s, s)
  else if off =? TRIO_CR_GW_DATA_LOWER then (gw_data s, s)
  else (0, s).

Definition set_cap_data (v : Z) (s : sim) : sim :=
  {| cap_data := v; gw_lock := gw_lock s; gw_data := gw_data s;
     gw_ctl := gw_ctl s; gw_addr := gw_addr s; rsh := rsh s |}.

(** The configuration space of the simulated device. *)
Definition sim_ops : pci_ops sim := {|
  cfg_write s pos data :=
    if pos =? MELLANOX_DATA then (0, set_cap_data data s)
    else if pos =? MELLANOX_ADDR then
      if Z.odd data then
        let '(x, s') := cr_read (data - 1) s in
        (0, set_cap_data (u32 x) s')
      else (0, cr_write data (cap_data s) s)
    else (0, s);
  cfg_read s pos :=
    if pos =? MELLANOX_DATA then ((cap_data s, true), s)
    else ((0, true), s)
|}.

End Simulator.

(** A simulated device after reset: lock free, registers zero. *)
Definition sim_reset : sim := {|
  cap_data := 0; gw_lock := 0; gw_data := 0; gw_ctl := 0; gw_addr := 0;
  rsh := {| acc_addr := 0; acc_wlow := None; acc_rbuf := [];
            regs := fun _ => 0; boot_fifo := [] |}
|}.

(** The constants a device can work with: a retry bound of at least one
    poll; the widget's channel inside the 32-bit address space; the
    widget's registers 4-byte registers of one channel, all different and
    none of them the boot FIFO; control words of 32 bits in which the size
    bits do not contain the read trigger. *)
Definition widget_register (K : rshim_h) (reg : Z) : bool :=
  (0 <=? reg) && (reg <? 0x10000) && Z.even reg
  && negb (reg =? RSH_BOOT_FIFO_DATA K).

Fixpoint all_distinct (l : list Z) : bool :=
  match l with
  | [] => true
  | x :: l' => forallb (fun y => negb (x =? y)) l' && all_distinct l'
  end.

Definition sane_rshim_h (K : rshim_h) : bool :=
  (1 <=? LOCK_RETRY_CNT K) && (LOCK_RETRY_CNT K <? 2 ^ 31 - 1)
  && (0 <=? widget_base K) && (widget_base K + 0x10000 <=? 2 ^ 32)
  && forallb (widget_register K)
       [RSH_BYTE_ACC_ADDR K; RSH_BYTE_ACC_CTL K; RSH_BYTE_ACC_WDAT K;
        RSH_BYTE_ACC_RDAT K; RSH_BYTE_ACC_INTERLOCK K]
  && all_distinct
       [RSH_BYTE_ACC_ADDR K; RSH_BYTE_ACC_CTL K; RSH_BYTE_ACC_WDAT K;
        RSH_BYTE_ACC_RDAT K; RSH_BYTE_ACC_INTERLOCK K]
  && (0 <=? RSH_BYTE_ACC_SIZE_4BYTE K)
  && (RSH_BYTE_ACC_SIZE_4BYTE K <? 2 ^ 32)
  && (0 <=? Z.lor (RSH_BYTE_ACC_READ_TRIGGER K) (RSH_BYTE_ACC_SIZE_4BYTE K))
  && (Z.lor (RSH_BYTE_ACC_READ_TRIGGER K) (RSH_BYTE_ACC_SIZE_4BYTE K)
      <? 2 ^ 32)
  && (Z.land (RSH_BYTE_ACC_SIZE_4BYTE K) (RSH_BYTE_ACC_READ_TRIGGER K) =? 0)
  && negb (Z.land (Z.lor (RSH_BYTE_ACC_READ_TRIGGER K)
                     (RSH_BYTE_ACC_SIZE_4BYTE K))
             (RSH_BYTE_ACC_READ_TRIGGER K) =? 0).

(** A triple the round trip is about: a 64-bit value, and an offset that
    names a register, not the boot FIFO's port. *)
Definition valid_triple (K : rshim_h) (chan offset value : Z) : Prop :=
  offset <> RSH_BOOT_FIFO_DATA K /\ 0 <= value < 2 ^ 64.

(** What two reads of ACC_RDAT make of the 64-bit register [x]. *)
Definition joined (x : Z) : Z :=
  Z.lor (u64 (u32 (x mod 2 ^ 32)))
        (u64 (Z.shiftl (u64 (u32 (x / 2 ^ 32 mod 2 ^ 32))) 32)).

(** ** The driver on the simulated device *)

(** The registers of the widget. *)
Definition is_widget_reg (K : rshim_h) (reg : Z) : Prop :=
  In reg [RSH_BYTE_ACC_ADDR K; RSH_BYTE_ACC_CTL K; RSH_BYTE_ACC_WDAT K;
          RSH_BYTE_ACC_RDAT K; RSH_BYTE_ACC_INTERLOCK K].

(** What a write followed by a read of the same location gives on the
    simulated device behind [dev]. *)
Definition round_trip (K : rshim_h) (fuel : nat) (dev : rshim_pcie sim)
    (chan offset value : Z) : Prop :=
  exists dev1 dev2,
    rshim_pcie_write K (sim_ops K) fuel chan offset value dev
    = Some (Good tt, dev1)
    /\ rshim_pcie_read K (sim_ops K) fuel chan offset dev1
       = Some ((Good tt, Some value), dev2).

(** * Further properties of the access stack *)

(** ** What each revision does *)

(** The layer of the function an event comes from. *)
Definition origin (e : event) : nat :=
  match e with
  | Call f _ | TimedOut f => layer (Call f [])
  | PciWrite _ _ _ | PciRead _ _ _ => 0
  end.

(** The registers of the TRIO CR gateway the file accesses. *)
Definition gateway_register (off : Z) : bool :=
  (off =? TRIO_CR_GW_LOCK) || (off =? TRIO_CR_GW_DATA_LOWER)
  || (off =? TRIO_CR_GW_CTL) || (off =? TRIO_CR_GW_ADDR_LOWER).

(** The 64 KiB of CR space at CRSPACE_RSH_CHANNEL1_BASE. *)
Definition rshim_window (off : Z) : bool :=
  (CRSPACE_RSH_CHANNEL1_BASE <=? off)
  && (off <? CRSPACE_RSH_CHANNEL1_BASE + 0x10000).

(** The events a device with the id [id] can give rise to.  Only
    MELLANOX_ADDR and MELLANOX_DATA are written in configuration space and
    only MELLANOX_DATA is read.  On the newer revision the capability
    accessor is given offsets of the RShim window only, and neither the
    gateway lock functions nor their time-out occur; on any other device
    it is given the four gateway registers only (for a read, the lock or
    the data register), and neither the interlock functions nor their
    time-out occur. *)
Definition allowed (id : Z) (e : event) : bool :=
  let newer := id =? BLUEFIELD2_DEVICE_ID in
  match e with
  | PciWrite pos _ _ => (pos =? MELLANOX_ADDR) || (pos =? MELLANOX_DATA)
  | PciRead pos _ _ => pos =? MELLANOX_DATA
  | TimedOut f_trio_cr_gw_lock_acquire => negb newer
  | TimedOut f_rshim_byte_acc_pending_wait => true
  | TimedOut f_rshim_byte_acc_lock_acquire => newer
  | TimedOut _ => false
  | Call f_pci_cap_read [off] =>
      if newer then rshim_window off
      else (off =? TRIO_CR_GW_LOCK) || (off =? TRIO_CR_GW_DATA_LOWER)
  | Call f_pci_cap_write [off; _] =>
      if newer then rshim_window off else gateway_register off
  | Call f_pci_cap_read _ | Call f_pci_cap_write _ => false
  | Call f_trio_cr_gw_lock_acquire _
  | Call f_trio_cr_gw_lock_release _ => negb newer
  | Call f_rshim_byte_acc_lock_acquire _
  | Call f_rshim_byte_acc_lock_release _ => newer
  | Call _ _ => true
  end.

(** Every event of [t] is allowed for [id] and comes from layer [n] or
    below. *)
Definition within (id : Z) (n : nat) (t : list event) : Prop :=
  forallb (fun e => allowed id e && (origin e <=? n)%nat) t = true.

(** Every run of [m] on a device with the id [id] returns, and its
    events satisfy [P]. *)
Definition always {hw A} (id : Z) (P : list event -> Prop) (m : M hw A)
  : Prop :=
  forall d, device_id d = id -> wp m d (fun _ t _ => P t).

(** The same for a computation on the backend object. *)
Definition alwaysD {hw A} (id : Z) (P : list event -> Prop) (m : D hw A)
  : Prop :=
  forall dev, device_id (pci dev) = id ->
    exists r t dev', returnsD m dev r t dev' /\ P t.

(** ** The gateway lock over a whole call *)

(** The writes that take and that give back the gateway lock. *)
Definition is_lock_event (e : event) : bool :=
  event_eqb lock_acquire_write e || event_eqb lock_release_write e.

Definition lock_events (t : list event) : list event :=
  filter is_lock_event t.

(** [n] times: the lock is taken, then given back. *)
Fixpoint brackets (n : nat) : list event :=
  match n with
  | O => []
  | S n' => lock_acquire_write :: lock_release_write :: brackets n'
  end.

(** A call of the capability accessor on the lock register, to read it
    or to write it, whatever the value written. *)
Definition on_lock_register (e : event) : bool :=
  match e with
  | Call f_pci_cap_read (off :: _) | Call f_pci_cap_write (off :: _) =>
      off =? TRIO_CR_GW_LOCK
  | _ => false
  end.

(** In a run without a failure the lock is given back each time before
    it is taken again, and is free at the end; the newer revision never
    calls the accessor on the lock register. *)
Definition lock_left_free (id : Z) (t : list event) : Prop :=
  (~ failed t -> exists n, lock_events t = brackets n)
  /\ (id = BLUEFIELD2_DEVICE_ID -> existsb on_lock_register t = false).

(** ** The words read *)

(** The words [pci_read_long] delivered in the run, in order. *)
Definition words_read (t : list event) : list Z :=
  flat_map (fun e => match e with PciRead _ data _ => [data] | _ => [] end) t.

(** ** The configuration transactions of a call *)

Definition is_transaction (e : event) : bool :=
  match e with PciWrite _ _ _ | PciRead _ _ _ => true | _ => false end.

(** How many times [pci_write_long] and [pci_read_long] were called. *)
Definition transactions (t : list event) : Z :=
  Z.of_nat (length (filter is_transaction t)).

(** Every run of [m] returns after at most [bound] transactions. *)
Definition costs {hw A} (m : M hw A) (bound : Z) : Prop :=
  forall d, wp m d (fun _ t _ => transactions t <= bound).

(** The most a CR-space access costs: the polls of the gateway lock, two
    transactions each, and the six accesses of the gateway. *)
Definition gw_cost (K : rshim_h) : Z := 2 * LOCK_RETRY_CNT K + 14.

(** * The probe and the bus scan *)

Module Probe.

Import Ascii String.

(** libpci's [struct pci_dev], as far as the probe and the scan read
    it: the slot ([u8 bus, dev, func]) and the ids filled in by
    [pci_fill_info]. *)
Record pci_dev := {
  bus : Z;
  dev : Z;
  func : Z;
  vendor_id : Z;
  device_id : Z
}.

(** ** The device name *)

Definition chars (s : string) : list ascii :=
  list_ascii_of_string s.

Definition digit (d : Z) : ascii :=
  nth (Z.to_nat d) (chars "0123456789abcdef") "0"%char.

(** The digits of the unsigned [x] in base [base], most significant
    first, at most [n] of them. *)
Fixpoint utoa (base : Z) (n : nat) (x : Z) : list ascii :=
  match n with
  | O => []
  | S n' =>
      (if x <? base then [] else utoa base n' (x / base))
      ++ [digit (x mod base)]
  end.

(** [%02x] of an [unsigned int]. *)
Definition fmt_02x (x : Z) : list ascii :=
  let s := utoa 16 8 x in
  repeat "0"%char (2 - List.length s) ++ s.

(** [%d] of an [int] that is not negative. *)
Definition fmt_d (x : Z) : list ascii := utoa 10 10 x.

(** What the format "pcie-%02x:%02x.%d" makes of [bus], [dev] and
    [func]. *)
Definition formatted (p : pci_dev) : list ascii :=
  chars "pcie-" ++ fmt_02x (bus p) ++ chars ":" ++ fmt_02x (dev p)
  ++ chars "." ++ fmt_d (func p).

(** [snprintf(pcie_dev_name, max_name_len, "pcie-%02x:%02x.%d", bus, dev,
    func)]: at most [max_name_len - 1] characters are stored. *)
Definition pcie_dev_name (max_name_len : nat) (p : pci_dev)
  : list ascii :=
  firstn (max_name_len - 1) (formatted p).

(** The functions 1 and 0 of the device 0 on the bus 0x3b, a
    BlueField-2, and the name of the first. *)
Definition slot_3b_00_1 : pci_dev := {|
  bus := 0x3b; dev := 0; func := 1;
  vendor_id := TILERA_VENDOR_ID; device_id := BLUEFIELD2_DEVICE_ID
|}.

Definition slot_3b_00_0 : pci_dev := {|
  bus := 0x3b; dev := 0; func := 0;
  vendor_id := TILERA_VENDOR_ID; device_id := BLUEFIELD2_DEVICE_ID
|}.

Definition name_3b_00_1 : list ascii := chars "pcie-3b:00.1".

(** ** The backend object *)

Inductive callback :=
| rshim_pcie_read
| rshim_pcie_write
| rshim_pcie_delete.

(** [struct rshim_backend], the fields the probe touches. *)
Record rshim_backend := {
  has_rshim : bool;
  has_tm : bool;
  dev_name : option (list ascii);
  drv_name : option string;
  read_rshim : option callback;
  write_rshim : option callback;
  destroy : option callback;
  registered : bool
}.

Record rshim_pcie := {
  bd : rshim_backend;
  pci : option pci_dev;
  write_count : Z
}.

(** What [calloc] hands out: every field zero. *)
Definition zeroed : rshim_pcie := {|
  bd := {| has_rshim := false; has_tm := false; dev_name := None;
           drv_name := None; read_rshim := None; write_rshim := None;
           destroy := None; registered := false |};
  pci := None;
  write_count := 0
|}.

(** The calls the probe makes to the RShim core, to libc and to
    pthreads, in program order.  [free_ p] is [free] called with the name
    buffer ([p = true]) or with [NULL]. *)
Inductive ext :=
| malloc_ (size : nat)
| RSHIM_INFO (name : list ascii)
| rshim_lock
| rshim_unlock
| rshim_find_by_name (name : list ascii)
| calloc_
| pthread_mutex_init
| rshim_ref
| rshim_register (ret : Z)
| pthread_mutex_lock
| rshim_notify (ret : Z)
| pthread_mutex_unlock
| rshim_deref
| free_ (buffer : bool).

(** The answers of what is outside the file: the object
    [rshim_find_by_name] finds, whether [calloc] succeeds, and what
    [rshim_register] and [rshim_notify] return. *)
Record world := {
  found : list ascii -> option rshim_pcie;
  calloc_ok : bool;
  register_ret : Z;
  notify_ret : Z
}.

(** What a probe leaves: its return value, the object it worked on as
    the assignments of the file leave it (none when [calloc] failed) and
    the calls it made. *)
Definition outcome : Type := Z * option rshim_pcie * list ext.

Definition ENOMEM : Z := 12.

(** The labels [rshim_map_failed] and [error]. *)
Definition rshim_map_failed (ret : Z) (name_kept : bool) (dev : rshim_pcie)
    (t : list ext) : outcome :=
  (ret, Some dev, t ++ [rshim_lock; rshim_deref; rshim_unlock; free_ name_kept]).

(** From "Notify that the device is attached" on. *)
Definition attach (w : world) (name_kept : bool) (dev : rshim_pcie)
    (t : list ext) : outcome :=
  let ret := notify_ret w in
  let t := t ++ [pthread_mutex_lock; rshim_notify ret; pthread_mutex_unlock] in
  if ret =? 0 then (0, Some dev, t)
  else rshim_map_failed ret name_kept dev t.

(** From [rshim_ref] on, with the object [dev] found or made. *)
Definition register (w : world) (p : pci_dev) (dev : rshim_pcie)
    (t : list ext) : outcome :=
  let t := t ++ [rshim_ref; rshim_unlock] in
  let dev := {| bd := bd dev; pci := Some p; write_count := write_count dev |} in
  let t := t ++ [rshim_lock] in
  if negb (registered (bd dev)) then
    let ret := register_ret w in
    let t := t ++ [rshim_register ret] in
    if ret =? 0 then attach w false dev (t ++ [rshim_unlock])
    else rshim_map_failed ret true dev (t ++ [rshim_unlock])
  else attach w true dev (t ++ [rshim_unlock]).

(** The probe routine.  [name_kept] above tells whether [pcie_dev_name]
    still points to the buffer ([true]) or has been set to [NULL]. *)
Definition rshim_pcie_probe (w : world) (p : pci_dev) : outcome :=
  let max_name_len := 64%nat in
  let name := pcie_dev_name max_name_len p in
  let t := [malloc_ max_name_len; RSHIM_INFO name; rshim_lock;
            rshim_find_by_name name] in
  match found w name with
  | Some dev => register w p dev t
  | None =>
      let t := t ++ [calloc_] in
      if negb (calloc_ok w)
      then (- ENOMEM, None, t ++ [rshim_unlock; free_ true])
      else
        let dev := {|
          bd := {| has_rshim := true; has_tm := true;
                   dev_name := Some name;
                   drv_name := Some "rshim_pcie_lf"%string;
                   read_rshim := Some rshim_pcie_read;
                   write_rshim := Some rshim_pcie_write;
                   destroy := Some rshim_pcie_delete;
                   registered := registered (bd zeroed) |};
          pci := pci zeroed;
          write_count := 0
        |} in
        register w p dev (t ++ [pthread_mutex_init])
  end.

(** ** The bus scan *)

(** The loop of [rshim_pcie_lf_init] over [pci->devices].  What is
    outside the file answers each probe from its state [s] ([ask]) and
    moves on with what the probe did ([tell]). *)
Section Scan.

Variable core : Type.
Variable ask : core -> pci_dev -> world.
Variable tell : core -> outcome -> core.

Fixpoint scan (devices : list pci_dev) (s : core) : core :=
  match devices with
  | [] => s
  | d :: next =>
      if negb (vendor_id d =? TILERA_VENDOR_ID)
         || (negb (device_id d =? BLUEFIELD1_DEVICE_ID)
             && negb (device_id d =? BLUEFIELD2_DEVICE_ID))
      then scan next s
      else scan next (tell s (rshim_pcie_probe (ask s d) d))
  end.

(** [pci_alloc] gives the access structure, whose device list
    [pci_scan_bus] and [pci_fill_info] fill, or [NULL]. *)
Definition rshim_pcie_lf_init (pci_alloc : option (list pci_dev)) (s : core)
  : Z * core :=
  match pci_alloc with
  | None => (- ENOMEM, s)
  | Some devices => (0, scan devices s)
  end.

End Scan.

(** ** What the probe has to respect *)

(** The calls are made in a state the RShim core allows: its lock is
    not taken twice, the lookup, the reference count and the registration
    are touched with the lock held, the notification is sent with the
    backend's mutex held and the lock released; [held] and [mutex] tell
    whether the lock and the mutex are held before [t]. *)
Fixpoint disciplined (held mutex : bool) (t : list ext) : bool :=
  match t with
  | [] => negb held && negb mutex
  | e :: t' =>
      match e with
      | rshim_lock => negb held && disciplined true mutex t'
      | rshim_unlock => held && disciplined false mutex t'
      | rshim_find_by_name _ | rshim_ref | rshim_register _ | rshim_deref =>
          held && disciplined held mutex t'
      | pthread_mutex_lock => negb mutex && disciplined held true t'
      | pthread_mutex_unlock => mutex && disciplined held false t'
      | rshim_notify _ => negb held && mutex && disciplined held mutex t'
      | malloc_ _ | RSHIM_INFO _ | calloc_ | pthread_mutex_init | free_ _ =>
          disciplined held mutex t'
      end
  end.

(** References taken less references given back. *)
Fixpoint references (t : list ext) : Z :=
  match t with
  | [] => 0
  | rshim_ref :: t' => references t' + 1
  | rshim_deref :: t' => references t' - 1
  | _ :: t' => references t'
  end.

(** [free] was called with the name buffer. *)
Definition frees_buffer (t : list ext) : bool :=
  existsb (fun e => match e with free_ true => true | _ => false end) t.

(** [free] was called at all. *)
Definition frees (t : list ext) : bool :=
  existsb (fun e => match e with free_ _ => true | _ => false end) t.

(** [rshim_register] was called and returned 0. *)
Definition registers (t : list ext) : bool :=
  existsb (fun e => match e with rshim_register r => r =? 0 | _ => false end)
    t.

(** The object of a backend that did not exist before the probe of [p]
    under the name [name]. *)
Definition fresh (name : list ascii) (p : pci_dev) : rshim_pcie := {|
  bd := {| has_rshim := true; has_tm := true;
           dev_name := Some name;
           drv_name := Some "rshim_pcie_lf"%string;
           read_rshim := Some rshim_pcie_read;
           write_rshim := Some rshim_pcie_write;
           destroy := Some rshim_pcie_delete;
           registered := false |};
  pci := Some p;
  write_count := 0
|}.

(** The slot numbers are [u8]. *)
Definition slot_ok (p : pci_dev) : Prop :=
  0 <= bus p < 256 /\ 0 <= dev p < 256 /\ 0 <= func p < 256.

(** The devices the driver is for. *)
Definition is_bluefield (d : pci_dev) : bool :=
  (vendor_id d =? TILERA_VENDOR_ID)
  && ((device_id d =? BLUEFIELD1_DEVICE_ID)
      || (device_id d =? BLUEFIELD2_DEVICE_ID)).

End Probe.

(** * Part II: the properties *)

(** * Reasoning about runs *)

(** ** Projections of a trace *)

Lemma filter_repeat {A} (p : A -> bool) (a : A) (n : nat) :
  filter p (repeat a n) = if p a then repeat a n else [].
Proof.
  induction n as [|n IH]; simpl.
  - now destruct (p a).
  - rewrite IH. now destruct (p a).
Qed.

Lemma filter_filter {A} (p q : A -> bool) (l : list A) :
  filter p (filter q l) = filter (fun a => q a && p a) l.
Proof.
  induction l as [|a l IH]; simpl; [reflexivity|].
  destruct (q a); simpl; [destruct (p a)|]; now rewrite IH.
Qed.

Lemma filter_implied {A} (p q : A -> bool) (l : list A) :
  (forall a, p a = true -> q a = true) ->
  filter p (filter q l) = filter p l.
Proof.
  intros H. rewrite filter_filter. apply filter_ext. intros a.
  destruct (p a) eqn:E; [rewrite (H a E) | destruct (q a)]; reflexivity.
Qed.

Lemma from_layer_app n (t u : list event) :
  from_layer n (t ++ u) = from_layer n t ++ from_layer n u.
Proof. apply filter_app. Qed.

Lemma at_layer_app n (t u : list event) :
  at_layer n (t ++ u) = at_layer n t ++ at_layer n u.
Proof. apply filter_app. Qed.

Lemma from_layer_nil_le n m (t : list event) :
  (n <= m)%nat -> from_layer n t = [] -> from_layer m t = [].
Proof.
  intros Hnm H. unfold from_layer in *.
  rewrite <- (filter_implied _ (fun e => Nat.leb n (layer e))).
  - now rewrite H.
  - intros a Ha. apply Nat.leb_le in Ha. apply Nat.leb_le. lia.
Qed.

Lemma from_layer_from_layer n m (t : list event) :
  (n <= m)%nat -> from_layer m (from_layer n t) = from_layer m t.
Proof.
  intros Hnm. apply filter_implied.
  intros a Ha. apply Nat.leb_le in Ha. apply Nat.leb_le. lia.
Qed.

Lemma occurrences_app e (t u : list event) :
  occurrences e (t ++ u) = (occurrences e t + occurrences e u)%nat.
Proof. unfold occurrences. now rewrite filter_app, length_app. Qed.

(** ** Runs *)

Section Runs.

Variable hw : Type.

Lemma wp_ret {A} (a : A) d (Q : A -> list event -> pci_dev hw -> Prop) :
  Q a [] d -> wp (ret a) d Q.
Proof.
  intros H. exists a, [], d. repeat split; auto. now rewrite app_nil_r.
Qed.

Lemma wp_bind {A B} (m : M hw A) (k : A -> M hw B) d Q :
  wp m d (fun a t1 d1 => wp (k a) d1 (fun b t2 d2 => Q b (t1 ++ t2) d2)) ->
  wp (bind m k) d Q.
Proof.
  intros (a & t1 & d1 & (E1 & I1 & T1) & b & t2 & d2 & (E2 & I2 & T2) & H).
  exists b, (t1 ++ t2), d2. repeat split; auto.
  - unfold bind. now rewrite E1.
  - congruence.
  - now rewrite T2, T1, app_assoc.
Qed.

Lemma wp_conseq {A} (m : M hw A) d (Q Q' : A -> list event -> pci_dev hw -> Prop) :
  wp m d Q ->
  (forall r t d', device_id d' = device_id d -> Q r t d' -> Q' r t d') ->
  wp m d Q'.
Proof.
  intros (r & t & d' & (E & I & T) & H) HQ.
  exists r, t, d'. repeat split; auto.
Qed.

Lemma wp_emit e d (Q : unit -> list event -> pci_dev hw -> Prop) :
  (forall d', device_id d' = device_id d -> Q tt [e] d') -> wp (emit e) d Q.
Proof.
  intros H. eexists tt, [e], _. repeat split; try reflexivity.
  apply H. reflexivity.
Qed.

Lemma wp_emit_bus e d (Q : unit -> list event -> pci_dev hw -> Prop) :
  (forall d', device_id d' = device_id d -> bus d' = bus d -> Q tt [e] d') ->
  wp (emit e) d Q.
Proof.
  intros H. eexists tt, [e], _. repeat split; try reflexivity.
  apply H; reflexivity.
Qed.

Lemma wp_get_device_id d (Q : Z -> list event -> pci_dev hw -> Prop) :
  Q (device_id d) [] d -> wp get_device_id d Q.
Proof.
  intros H. exists (device_id d), [], d. repeat split; auto.
  now rewrite app_nil_r.
Qed.

Lemma wp_bind_rc {A B} (m : M hw (rc_or A)) (k : A -> M hw (rc_or B)) d Q :
  wp m d (fun r t1 d1 =>
            match r with
            | Fail rc => Q (Fail rc) t1 d1
            | Good a => wp (k a) d1 (fun b t2 d2 => Q b (t1 ++ t2) d2)
            end) ->
  wp (bind_rc m k) d Q.
Proof.
  intros H. unfold bind_rc. apply wp_bind.
  eapply wp_conseq; [exact H|]. intros [rc|a] t d' _ H'; cbn in *.
  - apply wp_ret. now rewrite app_nil_r.
  - exact H'.
Qed.

End Runs.

(** ** What a failure can come from *)

Lemma bus_fault_app_l t u : bus_fault t -> bus_fault (t ++ u).
Proof. unfold bus_fault. rewrite existsb_app. now intros ->. Qed.

Lemma bus_fault_app_r t u : bus_fault u -> bus_fault (t ++ u).
Proof. unfold bus_fault. rewrite existsb_app. intros ->. apply orb_true_r. Qed.

Lemma timed_out_app_l t u : timed_out t -> timed_out (t ++ u).
Proof. unfold timed_out. rewrite existsb_app. now intros ->. Qed.

Lemma timed_out_app_r t u : timed_out u -> timed_out (t ++ u).
Proof. unfold timed_out. rewrite existsb_app. intros ->. apply orb_true_r. Qed.

Lemma failed_app_l t u : failed t -> failed (t ++ u).
Proof.
  intros [H|H]; [left; now apply bus_fault_app_l
                | right; now apply timed_out_app_l].
Qed.

Lemma failed_app_r t u : failed u -> failed (t ++ u).
Proof.
  intros [H|H]; [left; now apply bus_fault_app_r
                | right; now apply timed_out_app_r].
Qed.

Lemma explained_failed {A} (r : rc_or A) t :
  explained r t -> is_good r = false -> failed t.
Proof.
  destruct r; cbn; [|discriminate].
  intros (_ & [(_ & H)|(_ & H)]) _; [now right | now left].
Qed.

Lemma explained_app_r {A B} (r : rc_or A) (r' : rc_or B) t u :
  explained r u -> rc_of r' = rc_of r -> is_good r' = is_good r ->
  explained r' (t ++ u).
Proof.
  destruct r, r'; cbn; try easy. intros (N & [(E & F) | (E & F)]) -> _.
  - split; auto. left. split; auto. now apply timed_out_app_r.
  - split; auto. right. split; auto. now apply bus_fault_app_r.
Qed.

(** ** The capability register accessor *)

Section CapSpecs.

Variable hw : Type.
Variable ops : pci_ops hw.

Lemma wp_pci_write_long pos data d (Q : Z -> list event -> pci_dev hw -> Prop) :
  (forall d', device_id d' = device_id d ->
              bus d' = snd (cfg_write ops (bus d) pos data) ->
              let rc := fst (cfg_write ops (bus d) pos data) in
              Q rc [PciWrite pos data rc] d') ->
  wp (pci_write_long ops pos data) d Q.
Proof.
  intros H. unfold wp, returns, pci_write_long.
  destruct (cfg_write ops (bus d) pos data) as [rc h] eqn:E.
  eexists rc, _, _. repeat split; try reflexivity.
  cbn in H. apply H; reflexivity.
Qed.

Lemma wp_pci_read_long pos d (Q : Z -> list event -> pci_dev hw -> Prop) :
  (forall d', device_id d' = device_id d ->
              bus d' = snd (cfg_read ops (bus d) pos) ->
              let data := fst (fst (cfg_read ops (bus d) pos)) in
              let ok := snd (fst (cfg_read ops (bus d) pos)) in
              Q data [PciRead pos data ok] d') ->
  wp (pci_read_long ops pos) d Q.
Proof.
  intros H. unfold wp, returns, pci_read_long.
  destruct (cfg_read ops (bus d) pos) as [[data ok] h] eqn:E.
  eexists data, _, _. repeat split; try reflexivity.
  cbn in H. apply H; reflexivity.
Qed.

Lemma pci_cap_read_outcome offset d :
  pci_cap_read ops offset d = Some (cap_read_outcome ops offset d).
Proof.
  unfold pci_cap_read, cap_read_outcome, bind, emit, pci_write_long,
    pci_read_long, ret; cbn.
  destruct (cfg_write ops (bus d) MELLANOX_ADDR _) as [rc h1].
  rewrite <- app_assoc.
  destruct (rc <? 0); cbn; [reflexivity|].
  now destruct (cfg_read ops h1 MELLANOX_DATA) as [[data ok] h2].
Qed.

Lemma wp_pci_cap_read offset d :
  wp (pci_cap_read ops offset) d
     (fun r t _ => cap_shape (Call f_pci_cap_read [offset]) r t).
Proof.
  unfold pci_cap_read.
  apply wp_bind, wp_emit. intros d1 _.
  apply wp_bind, wp_pci_write_long. intros d2 _ _ rc.
  destruct (rc <? 0) eqn:E.
  - apply wp_ret. split; [reflexivity|]. split; [reflexivity|].
    split; [now apply Z.ltb_lt|].
    unfold bus_fault. cbn. now rewrite E.
  - apply wp_bind, wp_pci_read_long. intros d3 _ _ data ok.
    apply wp_ret. split; [reflexivity|]. split; [reflexivity|exact I].
Qed.

Lemma wp_pci_cap_write offset value d :
  wp (pci_cap_write ops offset value) d
     (fun r t _ => cap_shape (Call f_pci_cap_write [offset; value]) r t).
Proof.
  unfold pci_cap_write.
  apply wp_bind, wp_emit. intros d1 _.
  apply wp_bind, wp_pci_write_long. intros d2 _ _ rc.
  destruct (rc <? 0) eqn:E.
  - apply wp_ret. split; [reflexivity|]. split; [reflexivity|].
    split; [now apply Z.ltb_lt|].
    unfold bus_fault. cbn. now rewrite E.
  - apply wp_bind, wp_pci_write_long. intros d3 _ _ rc'.
    destruct (rc' <? 0) eqn:E'.
    + apply wp_ret. split; [reflexivity|]. split; [reflexivity|].
      split; [now apply Z.ltb_lt|].
      unfold bus_fault. cbn. rewrite E'. apply orb_true_r.
    + apply wp_ret. split; [reflexivity|]. split; [reflexivity|exact I].
Qed.

End CapSpecs.

(** ** The gateway lock and the CR-space accessor *)

Ltac fault :=
  first [ assumption
        | apply bus_fault_app_l; fault
        | apply bus_fault_app_r; fault
        | apply timed_out_app_l; fault
        | apply timed_out_app_r; fault
        | apply failed_app_l; fault
        | apply failed_app_r; fault ].

(** Carries the cause of a failure over to a longer trace. *)
Ltac explain :=
  match goal with
  | |- explained (Good _) _ => exact I
  | H : _ < 0 /\ bus_fault _ |- explained (Fail _) _ =>
      destruct H; split; [lia | right; split; [assumption | fault]]
  | H : explained (Fail _) _ |- explained (Fail _) _ =>
      let N := fresh in
      let E := fresh in
      let F := fresh in
      destruct H as (N & [(E & F) | (E & F)]);
      (split; [exact N|]);
      [left; split; [exact E | fault] | right; split; [exact E | fault]]
  end.

Ltac layers :=
  rewrite ?at_layer_app, ?from_layer_app.

Lemma u32_small x : 0 <= x < 2 ^ 32 -> u32 x = x.
Proof. intros H. unfold u32. now apply Z.mod_small. Qed.

Lemma s32_small x : - 2 ^ 31 <= x < 2 ^ 31 -> s32 x = x.
Proof. intros H. unfold s32. rewrite Z.mod_small; lia. Qed.

Section GatewaySpecs.

Variable K : rshim_h.
Variable hw : Type.
Variable ops : pci_ops hw.
Variable fuel : nat.
Hypothesis Hcnt : 0 <= LOCK_RETRY_CNT K < 2 ^ 31 - 1.
Hypothesis Hfuel : (Z.to_nat (LOCK_RETRY_CNT K) < fuel)%nat.

Lemma wp_trio_cr_gw_lock_wait n : forall retry d,
  0 <= retry <= LOCK_RETRY_CNT K ->
  (Z.to_nat (LOCK_RETRY_CNT K - retry) < n)%nat ->
  wp (trio_cr_gw_lock_wait K ops n retry) d
     (fun r t _ =>
        exists k, (1 <= k)%nat
          /\ Z.of_nat k <= LOCK_RETRY_CNT K + 1 - retry
          /\ at_layer 1 t = lock_polls k
          /\ from_layer 2 t = []
          /\ explained r t
          /\ (is_good r = true -> Z.of_nat k <= LOCK_RETRY_CNT K - retry)).
Proof.
  induction n as [|n IH]; intros retry d Hr Hn; [lia|].
  cbn [trio_cr_gw_lock_wait].
  apply wp_bind_rc. eapply wp_conseq; [apply wp_pci_cap_read|].
  intros [rc|v] t1 d1 _ (A1 & B1 & C1).
  - exists 1%nat. repeat split; try assumption; try lia; try discriminate.
    right. tauto.
  - rewrite (u32_small (retry + 1)), (u32_small (LOCK_RETRY_CNT K))
      by (change (2 ^ 32) with 4294967296; lia).
    destruct (retry + 1 >? LOCK_RETRY_CNT K) eqn:E.
    + apply wp_bind, wp_emit. intros d2 _. apply wp_ret.
      exists 1%nat. rewrite app_nil_r. layers. rewrite A1, B1.
      repeat split; try lia; try discriminate.
      left. split; [reflexivity|].
      apply timed_out_app_r. reflexivity.
    + assert (retry + 1 <= LOCK_RETRY_CNT K) by lia.
      destruct (Z.land v TRIO_CR_GW_LOCK_ACQUIRED =? 0).
      * apply wp_ret. exists 1%nat. rewrite app_nil_r.
        repeat split; try assumption; try lia.
      * eapply wp_conseq; [apply (IH (retry + 1)); lia|].
        intros r t2 d2 _ (k & K1 & K2 & K3 & K4 & K5 & K6).
        exists (S k). layers. rewrite A1, B1, K3, K4.
        repeat split; try lia.
        -- eapply explained_app_r; eauto.
        -- intros G. specialize (K6 G). lia.
Qed.

(** The lock acquire: [k] polls, then the acquire write unless the wait
    gave up. *)
Lemma wp_trio_cr_gw_lock_acquire d :
  wp (trio_cr_gw_lock_acquire K ops fuel) d
     (fun r t _ =>
        exists k j, (1 <= k)%nat /\ Z.of_nat k <= LOCK_RETRY_CNT K + 1
          /\ (j <= 1)%nat
          /\ at_layer 1 t = lock_polls k ++ firstn j (gw_steps [])
          /\ from_layer 3 t = []
          /\ explained r t
          /\ (is_good r = true -> j = 1%nat /\ Z.of_nat k <= LOCK_RETRY_CNT K)).
Proof.
  unfold trio_cr_gw_lock_acquire.
  apply wp_bind, wp_emit. intros d0 _.
  apply wp_bind_rc. eapply wp_conseq;
    [apply (wp_trio_cr_gw_lock_wait fuel 0); lia|].
  intros [rc|[]] t1 d1 _ (k & K1 & K2 & K3 & K4 & K5 & K6).
  - exists k, 0%nat.
    split; [lia|]. split; [lia|]. split; [lia|].
    split; [layers; rewrite K3; cbn; now rewrite app_nil_r|].
    split; [layers; now rewrite (from_layer_nil_le 2 3 t1) by (auto; lia)|].
    split; [explain | discriminate].
  - eapply wp_conseq; [apply wp_pci_cap_write|].
    intros r t2 d2 _ (A2 & B2 & C2).
    exists k, 1%nat.
    split; [lia|]. split; [lia|]. split; [lia|].
    split; [layers; now rewrite K3, A2|].
    split; [layers; now rewrite (from_layer_nil_le 2 3 t1),
                     (from_layer_nil_le 2 3 t2) by (auto; lia)|].
    split; [destruct r as [rc|]; explain|].
    specialize (K6 eq_refl). lia.
Qed.

Lemma wp_trio_cr_gw_lock_release d :
  wp (trio_cr_gw_lock_release ops) d
     (fun r t _ =>
        at_layer 1 t =
          [Call f_pci_cap_write [TRIO_CR_GW_LOCK; TRIO_CR_GW_LOCK_RELEASE]]
        /\ from_layer 3 t = []
        /\ match r with Good _ => True | Fail rc => rc < 0 /\ bus_fault t end).
Proof.
  unfold trio_cr_gw_lock_release.
  apply wp_bind, wp_emit. intros d0 _.
  eapply wp_conseq; [apply wp_pci_cap_write|].
  intros r t d1 _ (A & B & C).
  layers. rewrite A, (from_layer_nil_le 2 3 t) by (auto; lia).
  repeat split. destruct r as [rc|]; [|exact I].
  split; [tauto|]. apply (bus_fault_app_r [_]). tauto.
Qed.

Ltac use_shapes :=
  layers;
  repeat match goal with
    | H : from_layer 2 ?t = [] |- _ =>
        apply (from_layer_nil_le 2 3 t) in H; [|lia]
    end;
  repeat match goal with
    | H : at_layer _ ?t = _ |- context [at_layer _ ?t] => rewrite H
    | H : from_layer _ ?t = _ |- context [from_layer _ ?t] => rewrite H
    end.

Ltac cap_step lem :=
  apply wp_bind_rc; eapply wp_conseq; [apply lem|];
  let r := fresh "r" in
  let t := fresh "t" in
  let d := fresh "d" in
  let A := fresh "A" in
  let B := fresh "B" in
  let C := fresh "C" in
  intros r t d _ (A & B & C); destruct r as [?rc|?v]; cbn beta iota.

Ltac gw_stop k j :=
  split; [use_shapes; reflexivity|];
  split; [explain|];
  exists k, j; use_shapes;
  repeat split; try lia; try discriminate;
  cbn; rewrite <- ?app_assoc; reflexivity.

Lemma wp_crspace_rsh_gw_read addr d :
  wp (crspace_rsh_gw_read K ops fuel addr) d
     (fun r t _ =>
        gw_shape K (Call f_crspace_rsh_gw_read [addr])
          (Call f_pci_cap_read
             [Z.land addr 0xffff + CRSPACE_RSH_CHANNEL1_BASE])
          (gw_read_mid (addr + RSH_CHANNEL_BASE K (RSHIM_CHANNEL K)))
          (device_id d) r t).
Proof.
  unfold crspace_rsh_gw_read, gw_shape.
  apply wp_bind, wp_emit. intros d0 I0.
  apply wp_bind, wp_get_device_id. rewrite I0.
  destruct (device_id d =? BLUEFIELD2_DEVICE_ID).
  - eapply wp_conseq; [apply wp_pci_cap_read|].
    intros r t d1 _ (A & B & C).
    split; [use_shapes; reflexivity|].
    split; [|use_shapes; reflexivity].
    destruct r; explain.
  - apply wp_bind_rc. eapply wp_conseq; [apply wp_trio_cr_gw_lock_acquire|].
    intros [rc|[]] ta da _ (k & j & K1 & K2 & K3 & K4 & K5 & K6 & K7).
    { split; [use_shapes; reflexivity|].
      split.
      - explain.
      - exists k, j. use_shapes.
        repeat split; try lia; try discriminate.
        destruct j as [|[|j]]; try lia; reflexivity. }
    assert (j = 1%nat) by (now apply K7). subst j. clear K7.
    cap_step wp_pci_cap_write; [gw_stop k 2%nat|].
    cap_step wp_pci_cap_write; [gw_stop k 3%nat|].
    cap_step wp_pci_cap_write; [gw_stop k 4%nat|].
    cap_step wp_pci_cap_read; [gw_stop k 5%nat|].
    apply wp_bind_rc. eapply wp_conseq; [apply wp_trio_cr_gw_lock_release|].
    intros [rc|[]] tr dr _ (R1 & R2 & R3).
    + gw_stop k 6%nat.
    + apply wp_ret. gw_stop k 6%nat.
Qed.

Lemma wp_crspace_rsh_gw_write addr value d :
  wp (crspace_rsh_gw_write K ops fuel addr value) d
     (fun r t _ =>
        gw_shape K (Call f_crspace_rsh_gw_write [addr; value])
          (Call f_pci_cap_write
             [Z.land addr 0xffff + CRSPACE_RSH_CHANNEL1_BASE; value])
          (gw_write_mid
             (if Z.land addr 0xffff =? RSH_BOOT_FIFO_DATA K then addr
              else addr + RSH_CHANNEL_BASE K (RSHIM_CHANNEL K))
             value)
          (device_id d) r t).
Proof.
  unfold crspace_rsh_gw_write, gw_shape.
  apply wp_bind, wp_emit. intros d0 I0.
  apply wp_bind, wp_get_device_id. rewrite I0.
  destruct (device_id d =? BLUEFIELD2_DEVICE_ID).
  - eapply wp_conseq; [apply wp_pci_cap_write|].
    intros r t d1 _ (A & B & C).
    split; [use_shapes; reflexivity|].
    split; [|use_shapes; reflexivity].
    destruct r; explain.
  - apply wp_bind_rc. eapply wp_conseq; [apply wp_trio_cr_gw_lock_acquire|].
    intros [rc|[]] ta da _ (k & j & K1 & K2 & K3 & K4 & K5 & K6 & K7).
    { split; [use_shapes; reflexivity|].
      split.
      - explain.
      - exists k, j. use_shapes.
        repeat split; try lia; try discriminate.
        destruct j as [|[|j]]; try lia; reflexivity. }
    assert (j = 1%nat) by (now apply K7). subst j. clear K7.
    cap_step wp_pci_cap_write; [gw_stop k 2%nat|].
    cap_step wp_pci_cap_write; [gw_stop k 3%nat|].
    cap_step wp_pci_cap_write; [gw_stop k 4%nat|].
    cap_step wp_pci_cap_write; [gw_stop k 5%nat|].
    apply wp_bind_rc. eapply wp_conseq; [apply wp_trio_cr_gw_lock_release|].
    intros [rc|[]] tr dr _ (R1 & R2 & R3).
    + gw_stop k 6%nat.
    + apply wp_ret. gw_stop k 6%nat.
Qed.

End GatewaySpecs.

(** ** The widget's helpers *)

Section HelperSpecs.

Variable K : rshim_h.
Variable hw : Type.
Variable ops : pci_ops hw.
Variable fuel : nat.
Hypothesis Hcnt : 0 <= LOCK_RETRY_CNT K < 2 ^ 31 - 1.
Hypothesis Hfuel : (Z.to_nat (LOCK_RETRY_CNT K) < fuel)%nat.

Lemma wp_cr_read addr d :
  wp (crspace_rsh_gw_read K ops fuel addr) d
     (fun r t _ => from_layer 3 t = [Call f_crspace_rsh_gw_read [addr]]
                   /\ explained r t).
Proof.
  eapply wp_conseq; [apply wp_crspace_rsh_gw_read; assumption|].
  intros r t d' _ (A & B & _). auto.
Qed.

Lemma wp_cr_write addr value d :
  wp (crspace_rsh_gw_write K ops fuel addr value) d
     (fun r t _ =>
        from_layer 3 t = [Call f_crspace_rsh_gw_write [addr; value]]
        /\ explained r t).
Proof.
  eapply wp_conseq; [apply wp_crspace_rsh_gw_write; assumption|].
  intros r t d' _ (A & B & _). auto.
Qed.

Lemma wp_pending_wait_loop n : forall retry d,
  0 <= retry <= LOCK_RETRY_CNT K ->
  (Z.to_nat (LOCK_RETRY_CNT K - retry) < n)%nat ->
  wp (pending_wait_loop K ops fuel n retry) d
     (fun r t _ =>
        exists k, (1 <= k)%nat
          /\ Z.of_nat k <= LOCK_RETRY_CNT K + 1 - retry
          /\ from_layer 3 t = cr_polls (RSH_BYTE_ACC_CTL K) k
          /\ explained r t
          /\ (is_good r = true -> Z.of_nat k <= LOCK_RETRY_CNT K - retry)).
Proof.
  induction n as [|n IH]; intros retry d Hr Hn; [lia|].
  cbn [pending_wait_loop].
  apply wp_bind_rc. eapply wp_conseq; [apply wp_cr_read|].
  intros [rc|v] t1 d1 _ (A1 & C1).
  - exists 1%nat.
    split; [lia|]. split; [lia|]. split; [exact A1|].
    split; [exact C1 | discriminate].
  - rewrite (u32_small (retry + 1)), (u32_small (LOCK_RETRY_CNT K))
      by (change (2 ^ 32) with 4294967296; lia).
    destruct (retry + 1 >? LOCK_RETRY_CNT K) eqn:E.
    + apply wp_bind, wp_emit. intros d2 _. apply wp_ret.
      exists 1%nat. rewrite app_nil_r.
      split; [lia|]. split; [lia|].
      split; [layers; now rewrite A1|].
      split; [|discriminate].
      split; [unfold ETIMEDOUT; lia|]. left. split; [reflexivity|].
      apply timed_out_app_r. reflexivity.
    + assert (retry + 1 <= LOCK_RETRY_CNT K) by lia.
      destruct (Z.land v (RSH_BYTE_ACC_PENDING K) =? 0).
      * apply wp_ret. exists 1%nat. rewrite app_nil_r.
        split; [lia|]. split; [lia|]. split; [exact A1|].
        split; [exact I|lia].
      * eapply wp_conseq; [apply (IH (retry + 1)); lia|].
        intros r t2 d2 _ (k & K1 & K2 & K3 & K4 & K5).
        exists (S k).
        split; [lia|]. split; [lia|].
        split; [layers; now rewrite A1, K3|].
        split; [eapply explained_app_r; eauto|].
        intros G. specialize (K5 G). lia.
Qed.

Lemma wp_rshim_byte_acc_pending_wait d :
  wp (rshim_byte_acc_pending_wait K ops fuel) d
     (fun r t _ =>
        exists k, (1 <= k)%nat /\ Z.of_nat k <= LOCK_RETRY_CNT K + 1
          /\ from_layer 3 t = Call f_rshim_byte_acc_pending_wait []
                               :: cr_polls (RSH_BYTE_ACC_CTL K) k
          /\ explained r t
          /\ (is_good r = true -> Z.of_nat k <= LOCK_RETRY_CNT K)).
Proof.
  unfold rshim_byte_acc_pending_wait.
  apply wp_bind, wp_emit. intros d0 _.
  eapply wp_conseq; [apply (wp_pending_wait_loop fuel 0); lia|].
  intros r t d1 _ (k & K1 & K2 & K3 & K4 & K5).
  exists k. split; [lia|]. split; [lia|].
  split; [layers; now rewrite K3|].
  split; [eapply explained_app_r; eauto|].
  intros G. specialize (K5 G). lia.
Qed.

Lemma wp_interlock_loop n : forall retry d,
  0 <= retry <= LOCK_RETRY_CNT K ->
  (Z.to_nat (LOCK_RETRY_CNT K - retry) < n)%nat ->
  wp (interlock_loop K ops fuel n retry) d
     (fun r t _ =>
        exists k, Z.of_nat k <= LOCK_RETRY_CNT K - retry
          /\ from_layer 3 t = cr_polls (RSH_BYTE_ACC_INTERLOCK K) k
          /\ explained r t
          /\ (is_good r = true -> (1 <= k)%nat)).
Proof.
  induction n as [|n IH]; intros retry d Hr Hn; [lia|].
  cbn [interlock_loop].
  rewrite (s32_small (retry + 1))
    by (change (2 ^ 31) with 2147483648 in *; lia).
  destruct (retry + 1 >? LOCK_RETRY_CNT K) eqn:E.
  - apply wp_bind, wp_emit. intros d2 _. apply wp_ret.
    exists 0%nat. split; [lia|]. split; [reflexivity|].
    split; [|discriminate].
    split; [unfold ETIMEDOUT; lia|]. left. split; [reflexivity|].
    reflexivity.
  - assert (retry + 1 <= LOCK_RETRY_CNT K) by lia.
    apply wp_bind_rc. eapply wp_conseq; [apply wp_cr_read|].
    intros [rc|v] t1 d1 _ (A1 & C1).
    + exists 1%nat. split; [lia|]. split; [exact A1|].
      split; [exact C1 | discriminate].
    + destruct (negb (Z.land v 1 =? 0)).
      * apply wp_ret. exists 1%nat. rewrite app_nil_r.
        split; [lia|]. split; [exact A1|]. split; [exact I|lia].
      * eapply wp_conseq; [apply (IH (retry + 1)); lia|].
        intros r t2 d2 _ (k & K1 & K2 & K3 & K4).
        exists (S k). split; [lia|].
        split; [layers; now rewrite A1, K2|].
        split; [eapply explained_app_r; eauto | lia].
Qed.

Lemma wp_rshim_byte_acc_lock_acquire d :
  wp (rshim_byte_acc_lock_acquire K ops fuel) d
     (fun r t _ =>
        exists k, Z.of_nat k <= LOCK_RETRY_CNT K
          /\ from_layer 3 t = Call f_rshim_byte_acc_lock_acquire []
                               :: cr_polls (RSH_BYTE_ACC_INTERLOCK K) k
          /\ explained r t
          /\ (is_good r = true -> (1 <= k)%nat)).
Proof.
  unfold rshim_byte_acc_lock_acquire.
  apply wp_bind, wp_emit. intros d0 _.
  eapply wp_conseq; [apply (wp_interlock_loop fuel 0); lia|].
  intros r t d1 _ (k & K1 & K2 & K3 & K4).
  exists k. split; [lia|].
  split; [layers; now rewrite K2|].
  split; [eapply explained_app_r; eauto | exact K4].
Qed.

Lemma wp_rshim_byte_acc_lock_release d :
  wp (rshim_byte_acc_lock_release K ops fuel) d
     (fun r t _ =>
        from_layer 3 t =
          [Call f_rshim_byte_acc_lock_release [];
           Call f_crspace_rsh_gw_write [RSH_BYTE_ACC_INTERLOCK K; 0]]
        /\ explained r t).
Proof.
  unfold rshim_byte_acc_lock_release.
  apply wp_bind, wp_emit. intros d0 _.
  eapply wp_conseq; [apply wp_cr_write|].
  intros r t d1 _ (A & B).
  split; [layers; now rewrite A|].
  eapply explained_app_r; eauto.
Qed.

End HelperSpecs.

(** ** The Byte Access Widget and the boot FIFO writer *)

Lemma from_layer_cr_polls n reg k :
  (3 < n)%nat -> from_layer n (cr_polls reg k) = [].
Proof.
  intros H. unfold from_layer, cr_polls. rewrite filter_repeat. cbn.
  destruct (Nat.leb_spec n 3); [lia | reflexivity].
Qed.

(** Brings what is known at layer 3 down to layer 5. *)
Ltac down5 :=
  repeat match goal with
    | H : from_layer 3 ?t = _ |- context [from_layer 5 ?t] =>
        rewrite <- (from_layer_from_layer 3 5 t) by lia; rewrite H
    end.

Lemma from_layer_cons n e (t : list event) :
  from_layer n (e :: t) =
  if Nat.leb n (layer e) then e :: from_layer n t else from_layer n t.
Proof. reflexivity. Qed.

Lemma from_layer_nil n : from_layer n [] = [].
Proof. reflexivity. Qed.

Ltac shape_eq :=
  layers;
  repeat match goal with
    | H : from_layer ?n ?t = _ |- context [from_layer ?n ?t] => rewrite H
    end;
  down5;
  layers;
  repeat (rewrite from_layer_cons; cbn [layer Nat.leb]);
  rewrite ?from_layer_nil, ?from_layer_cr_polls by lia;
  repeat (progress (cbn [app]; rewrite <- ?app_assoc));
  try reflexivity.

(** Closes a branch in which a step has failed. *)
Ltac step_failed :=
  let NF := fresh in
  intros NF; exfalso; apply NF;
  match goal with
  | H : explained (Fail _) ?t |- _ =>
      let F := fresh in
      assert (F : failed t) by (apply (explained_failed _ _ H); reflexivity);
      fault
  end.

Section WidgetSpecs.

Variable K : rshim_h.
Variable hw : Type.
Variable ops : pci_ops hw.
Variable fuel : nat.
Hypothesis Hcnt : 0 <= LOCK_RETRY_CNT K < 2 ^ 31 - 1.
Hypothesis Hfuel : (Z.to_nat (LOCK_RETRY_CNT K) < fuel)%nat.

Ltac cr_step lem :=
  apply wp_bind_rc; eapply wp_conseq; [apply lem; assumption|].

Lemma wp_byte_acc_write_body value d :
  wp (byte_acc_write_body K ops fuel value) d
     (fun r t _ =>
        explained r t
        /\ from_layer 5 t = []
        /\ (is_good r = true ->
            exists kp, (1 <= kp)%nat /\ Z.of_nat kp <= LOCK_RETRY_CNT K
              /\ from_layer 3 t =
                   [Call f_crspace_rsh_gw_write
                      [RSH_BYTE_ACC_CTL K; RSH_BYTE_ACC_SIZE_4BYTE K];
                    Call f_crspace_rsh_gw_write
                      [RSH_BYTE_ACC_WDAT K; u32 value]]
                   ++ Call f_rshim_byte_acc_pending_wait []
                   :: cr_polls (RSH_BYTE_ACC_CTL K) kp
                   ++ [Call f_crspace_rsh_gw_write
                         [RSH_BYTE_ACC_WDAT K; u32 (Z.shiftr value 32)]])).
Proof.
  unfold byte_acc_write_body.
  cr_step wp_cr_write. intros [rc|[]] t1 d1 _ (A1 & C1).
  { split; [exact C1|]. split; [shape_eq | discriminate]. }
  cr_step wp_cr_write. intros [rc|[]] t2 d2 _ (A2 & C2).
  { split; [explain|]. split; [shape_eq | discriminate]. }
  cr_step wp_rshim_byte_acc_pending_wait.
  intros [rc|[]] t3 d3 _ (kp & P1 & P2 & A3 & C3 & P3).
  { split; [explain|]. split; [shape_eq | discriminate]. }
  eapply wp_conseq; [apply wp_cr_write; assumption|].
  intros r t4 d4 _ (A4 & C4).
  split; [destruct r; explain|]. split; [shape_eq|].
  intros _. exists kp. split; [lia|]. split; [auto|]. shape_eq.
Qed.

(** An 8-byte widget write: one event at layer 5, and the whole
    sequence when nothing fails.  On a device that is not the newer
    revision a return of 0 is enough for the whole sequence. *)
Lemma wp_rshim_byte_acc_write addr value d :
  wp (rshim_byte_acc_write K ops fuel addr value) d
     (fun r t _ =>
        from_layer 5 t = [Call f_rshim_byte_acc_write [addr; value]]
        /\ ((device_id d =? BLUEFIELD2_DEVICE_ID) = false -> explained r t)
        /\ (~ failed t
              \/ ((device_id d =? BLUEFIELD2_DEVICE_ID) = false
                  /\ is_good r = true) ->
            r = Good tt
            /\ exists ka kp,
                (1 <= ka)%nat /\ Z.of_nat ka <= LOCK_RETRY_CNT K
                /\ (1 <= kp)%nat /\ Z.of_nat kp <= LOCK_RETRY_CNT K
                /\ from_layer 3 t =
                     baw_write_trace K (device_id d) addr value ka kp)).
Proof.
  unfold rshim_byte_acc_write, baw_write_trace.
  apply wp_bind, wp_emit. intros d0 I0.
  apply wp_bind, wp_get_device_id. rewrite I0.
  destruct (device_id d =? BLUEFIELD2_DEVICE_ID) eqn:E.
  - (* the newer revision *)
    cr_step wp_rshim_byte_acc_lock_acquire.
    intros [rc|[]] ta da _ (ka & Q1 & Aa & Ca & Q2).
    { split; [shape_eq|]. split; [discriminate|].
      intros [NF|[? _]]; [|discriminate]. revert NF. step_failed. }
    specialize (Q2 eq_refl).
    cr_step wp_cr_write. intros [rc|[]] t1 d1 _ (A1 & C1).
    { split; [shape_eq|]. split; [discriminate|].
      intros [NF|[? _]]; [|discriminate]. revert NF. step_failed. }
    apply wp_bind. eapply wp_conseq; [apply wp_byte_acc_write_body|].
    intros rb tb db _ (Cb & Ab & Sb).
    eapply wp_conseq; [apply wp_rshim_byte_acc_lock_release; assumption|].
    intros rr tr dr _ (Ar & Cr).
    split; [shape_eq|]. split; [discriminate|].
    intros [NF|[? _]]; [|discriminate].
    destruct rb as [rc|[]]; [revert NF; step_failed|].
    destruct rr as [rc|[]]; [revert NF; step_failed|].
    split; [reflexivity|].
    destruct (Sb eq_refl) as (kp & P1 & P2 & P3).
    exists ka, kp. repeat (split; [lia|]). shape_eq.
  - (* the legacy revision *)
    apply wp_bind_rc, wp_ret.
    cr_step wp_cr_write. intros [rc|[]] t1 d1 _ (A1 & C1).
    { split; [shape_eq|]. split; [intros _; explain|].
      intros [NF|[_ ?]]; [|discriminate]. revert NF. step_failed. }
    apply wp_bind. eapply wp_conseq; [apply wp_byte_acc_write_body|].
    intros rb tb db _ (Cb & Ab & Sb).
    apply wp_ret.
    split; [shape_eq|]. split; [intros _; destruct rb; explain|].
    intros H.
    assert (G : is_good rb = true).
    { destruct H as [NF|[_ ?]]; [|assumption].
      destruct rb; [revert NF; step_failed | reflexivity]. }
    destruct rb as [rc|[]]; [discriminate|].
    split; [reflexivity|].
    destruct (Sb eq_refl) as (kp & P1 & P2 & P3).
    exists 1%nat, kp. repeat (split; [lia|]). shape_eq.
Qed.

Lemma wp_byte_acc_read_body addr d :
  wp (byte_acc_read_body K ops fuel addr) d
     (fun r t _ =>
        explained r t
        /\ from_layer 5 t = []
        /\ (is_good r = true ->
            exists k1 k2,
              (1 <= k1)%nat /\ Z.of_nat k1 <= LOCK_RETRY_CNT K
              /\ (1 <= k2)%nat /\ Z.of_nat k2 <= LOCK_RETRY_CNT K
              /\ from_layer 3 t =
                   [Call f_crspace_rsh_gw_write
                      [RSH_BYTE_ACC_ADDR K; u32 addr];
                    Call f_crspace_rsh_gw_write
                      [RSH_BYTE_ACC_CTL K;
                       Z.lor (RSH_BYTE_ACC_READ_TRIGGER K)
                         (RSH_BYTE_ACC_SIZE_4BYTE K)]]
                   ++ Call f_rshim_byte_acc_pending_wait []
                   :: cr_polls (RSH_BYTE_ACC_CTL K) k1
                   ++ [Call f_crspace_rsh_gw_read [RSH_BYTE_ACC_RDAT K]]
                   ++ Call f_rshim_byte_acc_pending_wait []
                   :: cr_polls (RSH_BYTE_ACC_CTL K) k2
                   ++ [Call f_crspace_rsh_gw_read [RSH_BYTE_ACC_RDAT K]])).
Proof.
  unfold byte_acc_read_body.
  cr_step wp_cr_write. intros [rc|[]] t1 d1 _ (A1 & C1).
  { split; [exact C1|]. split; [shape_eq | discriminate]. }
  cr_step wp_cr_write. intros [rc|[]] t2 d2 _ (A2 & C2).
  { split; [explain|]. split; [shape_eq | discriminate]. }
  cr_step wp_rshim_byte_acc_pending_wait.
  intros [rc|[]] t3 d3 _ (k1 & P1 & P2 & A3 & C3 & P3).
  { split; [explain|]. split; [shape_eq | discriminate]. }
  cr_step wp_cr_read. intros [rc|lo] t4 d4 _ (A4 & C4).
  { split; [explain|]. split; [shape_eq | discriminate]. }
  cr_step wp_rshim_byte_acc_pending_wait.
  intros [rc|[]] t5 d5 _ (k2 & P4 & P5 & A5 & C5 & P6).
  { split; [explain|]. split; [shape_eq | discriminate]. }
  cr_step wp_cr_read. intros [rc|hi] t6 d6 _ (A6 & C6).
  { split; [explain|]. split; [shape_eq | discriminate]. }
  apply wp_ret.
  split; [exact I|]. split; [shape_eq|].
  intros _. exists k1, k2.
  split; [lia|]. split; [auto|]. split; [lia|]. split; [auto|]. shape_eq.
Qed.

(** An 8-byte widget read: one event at layer 5, and the whole sequence
    with a stored result when nothing fails. *)
Lemma wp_rshim_byte_acc_read addr d :
  wp (rshim_byte_acc_read K ops fuel addr) d
     (fun r t _ =>
        from_layer 5 t = [Call f_rshim_byte_acc_read [addr]]
        /\ ((device_id d =? BLUEFIELD2_DEVICE_ID) = false ->
            explained (fst r) t
            /\ (is_good (fst r) = true -> snd r <> None))
        /\ (~ failed t ->
            fst r = Good tt /\ snd r <> None
            /\ exists ka k0 k1 k2,
                (1 <= ka)%nat /\ Z.of_nat ka <= LOCK_RETRY_CNT K
                /\ (1 <= k0)%nat /\ Z.of_nat k0 <= LOCK_RETRY_CNT K
                /\ (1 <= k1)%nat /\ Z.of_nat k1 <= LOCK_RETRY_CNT K
                /\ (1 <= k2)%nat /\ Z.of_nat k2 <= LOCK_RETRY_CNT K
                /\ from_layer 3 t =
                     baw_read_trace K (device_id d) addr ka k0 k1 k2)).
Proof.
  unfold rshim_byte_acc_read, baw_read_trace.
  apply wp_bind, wp_emit. intros d0 I0.
  apply wp_bind. eapply wp_conseq;
    [apply wp_rshim_byte_acc_pending_wait; assumption|].
  intros [rc|[]] t0 d1 I1 (k0 & P1 & P2 & A0 & C0 & P3).
  { apply wp_ret. cbn [fst snd].
    split; [shape_eq|]. split; [intros _; split; [explain|discriminate]|].
    step_failed. }
  specialize (P3 eq_refl).
  apply wp_bind, wp_get_device_id. rewrite I1, I0.
  destruct (device_id d =? BLUEFIELD2_DEVICE_ID) eqn:E.
  - (* the newer revision *)
    apply wp_bind. eapply wp_conseq;
      [apply wp_rshim_byte_acc_lock_acquire; assumption|].
    intros [rc|[]] ta da _ (ka & Q1 & Aa & Ca & Q2).
    { apply wp_ret. cbn [fst snd].
      split; [shape_eq|]. split; [discriminate|]. step_failed. }
    specialize (Q2 eq_refl).
    apply wp_bind. eapply wp_conseq; [apply wp_byte_acc_read_body|].
    intros rb tb db _ (Cb & Ab & Sb).
    apply wp_bind. eapply wp_conseq;
      [apply wp_rshim_byte_acc_lock_release; assumption|].
    intros rr tr dr _ (Ar & Cr).
    apply wp_ret. cbn [fst snd].
    split; [shape_eq|]. split; [discriminate|].
    intros NF.
    destruct rb as [rc|v]; [revert NF; step_failed|].
    destruct rr as [rc|[]]; [revert NF; step_failed|].
    split; [reflexivity|]. split; [discriminate|].
    destruct (Sb eq_refl) as (k1 & k2 & R1 & R2 & R3 & R4 & R5).
    exists ka, k0, k1, k2. repeat (split; [lia|]). shape_eq.
  - (* the legacy revision *)
    apply wp_bind, wp_ret.
    apply wp_bind. eapply wp_conseq; [apply wp_byte_acc_read_body|].
    intros rb tb db _ (Cb & Ab & Sb).
    apply wp_ret. cbn [fst snd].
    split; [shape_eq|].
    split.
    { intros _. destruct rb as [rc|v].
      - split; [explain | discriminate].
      - split; [exact I | discriminate]. }
    intros NF.
    destruct rb as [rc|v]; [revert NF; step_failed|].
    split; [reflexivity|]. split; [discriminate|].
    destruct (Sb eq_refl) as (k1 & k2 & R1 & R2 & R3 & R4 & R5).
    exists 1%nat, k0, k1, k2. repeat (split; [lia|]). shape_eq.
Qed.

Lemma wp_rshim_boot_fifo_write addr value d :
  wp (rshim_boot_fifo_write K ops fuel addr value) d
     (fun r t _ =>
        explained r t
        /\ from_layer 5 t = [Call f_rshim_boot_fifo_write [addr; value]]
        /\ (is_good r = true ->
            from_layer 3 t =
              [Call f_rshim_boot_fifo_write [addr; value];
               Call f_crspace_rsh_gw_write [addr; u32 value];
               Call f_crspace_rsh_gw_write
                 [addr; u32 (Z.shiftr value 32)]])).
Proof.
  unfold rshim_boot_fifo_write.
  apply wp_bind, wp_emit. intros d0 I0.
  cr_step wp_cr_write. intros [rc|[]] t1 d1 _ (A1 & C1).
  { split; [explain|]. split; [shape_eq | discriminate]. }
  cr_step wp_cr_write. intros [rc|[]] t2 d2 _ (A2 & C2).
  { split; [explain|]. split; [shape_eq | discriminate]. }
  apply wp_ret. split; [exact I|]. split; [shape_eq|]. intros _. shape_eq.
Qed.

End WidgetSpecs.

(** ** The dispatcher *)

Section DispatcherSpecs.

Variable K : rshim_h.
Variable hw : Type.
Variable ops : pci_ops hw.
Variable fuel : nat.
Hypothesis Hcnt : 0 <= LOCK_RETRY_CNT K < 2 ^ 31 - 1.
Hypothesis Hfuel : (Z.to_nat (LOCK_RETRY_CNT K) < fuel)%nat.

Lemma returnsD_on_pci {A} (m : M hw A) dev
    (Q : A -> list event -> pci_dev hw -> Prop) :
  wp m (pci dev) Q ->
  exists r t dev',
    returnsD (on_pci m) dev r t dev'
    /\ write_count dev' = write_count dev /\ Q r t (pci dev').
Proof.
  intros (r & t & d' & (E & I & T) & H).
  exists r, t, (Build_rshim_pcie (has_rshim dev) d' (write_count dev)).
  unfold returnsD, on_pci. rewrite E. cbn. auto 10.
Qed.

Lemma rshim_pcie_read_spec chan addr dev :
  exists r t dev',
    returnsD (rshim_pcie_read K ops fuel chan addr) dev r t dev'
    /\ if has_rshim dev
       then write_count dev' = 0
            /\ from_layer 5 t =
                 [Call f_rshim_pcie_read [chan; addr];
                  Call f_rshim_byte_acc_read [RSH_CHANNEL_BASE K chan + addr]]
            /\ (~ failed t -> fst r = Good tt /\ snd r <> None)
       else r = (Fail (- ENODEV), None)
            /\ write_count dev' = write_count dev
            /\ t = [Call f_rshim_pcie_read [chan; addr]].
Proof.
  unfold rshim_pcie_read, returnsD. cbn.
  destruct (has_rshim dev) eqn:Hr; cbn.
  - set (dev1 := set_write_count 0 _).
    destruct (returnsD_on_pci
                (rshim_byte_acc_read K ops fuel (RSH_CHANNEL_BASE K chan + addr))
                dev1 _ (wp_rshim_byte_acc_read K hw ops fuel Hcnt Hfuel _ _))
      as (r & t & dev' & (E & H1 & H2 & H3) & W & S5 & _ & S3).
    exists r, ([Call f_rshim_pcie_read [chan; addr]] ++ t), dev'.
    split; [|split; [exact W|split]].
    + rewrite E, H1, H2, H3. cbn. rewrite <- app_assoc. auto.
    + layers. now rewrite S5.
    + intros NF. destruct S3 as (G1 & G2 & _); [|auto].
      intros F. apply NF. now apply (failed_app_r [_]).
  - eexists _, [Call f_rshim_pcie_read [chan; addr]], _.
    split; [split; [reflexivity|]|]; cbn; auto.
Qed.

Lemma write_throttle_spec chan dev :
  exists t dev',
    returnsD (write_throttle K ops fuel chan) dev tt t dev'
    /\ write_count dev' =
         (if has_rshim dev
          then next_count (device_id (pci dev)) (write_count dev)
          else if device_id (pci dev) =? BLUEFIELD1_DEVICE_ID
               then u8 (write_count dev + 1) else write_count dev)
    /\ from_layer 5 t =
         if drains (device_id (pci dev)) (write_count dev)
         then if has_rshim dev then drain_read K chan
              else [Call f_rshim_pcie_read [chan; RSH_SCRATCHPAD K]]
         else [].
Proof.
  unfold returnsD, write_throttle, drains, next_count.
  destruct (device_id (pci dev) =? BLUEFIELD1_DEVICE_ID) eqn:E;
    cbn [andb].
  - destruct (write_count dev =? 7) eqn:E7.
    + destruct (rshim_pcie_read_spec chan (RSH_SCRATCHPAD K) dev)
        as (r & t & dev' & (E1 & H1 & H2 & H3) & S).
      rewrite E1. exists t, (set_write_count (u8 (write_count dev' + 1)) dev').
      split; [repeat split; auto|].
      destruct (has_rshim dev).
      * destruct S as (W & S5 & _). cbn. rewrite W. auto.
      * destruct S as (_ & W & ->). cbn. rewrite W. auto.
    + exists [], (set_write_count (u8 (write_count dev + 1)) dev).
      split; [repeat split; cbn; auto; now rewrite app_nil_r|].
      cbn. destruct (has_rshim dev); auto.
  - exists [], dev.
    split; [repeat split; cbn; auto; now rewrite app_nil_r|].
    destruct (has_rshim dev); auto.
Qed.

(** A write that passes the [has_rshim] guard: the drain read when one
    is due, then the routed call; and the counter afterwards. *)
Lemma rshim_pcie_write_spec chan addr value dev :
  exists r t dev',
    returnsD (rshim_pcie_write K ops fuel chan addr value) dev r t dev'
    /\ if has_rshim dev
       then write_count dev'
              = next_count (device_id (pci dev)) (write_count dev)
            /\ from_layer 5 t =
                 Call f_rshim_pcie_write [chan; addr; value]
                 :: (if drains (device_id (pci dev)) (write_count dev)
                     then drain_read K chan else [])
                 ++ [routed K chan addr value]
       else r = Fail (- ENODEV)
            /\ write_count dev' = write_count dev
            /\ t = [Call f_rshim_pcie_write [chan; addr; value]].
Proof.
  unfold returnsD, rshim_pcie_write, routed.
  cbn [on_pci emit pci has_rshim write_count device_id bus trace].
  destruct (has_rshim dev) eqn:Hr; cbn [negb].
  - match goal with
    | |- context [write_throttle K ops fuel chan ?x] => set (dev0 := x)
    end.
    destruct (write_throttle_spec chan dev0)
      as (t1 & dev1 & (E1 & H1 & H2 & H3) & W1 & S1).
    rewrite E1. cbn in H1, H2, H3, W1, S1.
    destruct (addr =? RSH_BOOT_FIFO_DATA K).
    + destruct (returnsD_on_pci
                  (rshim_boot_fifo_write K ops fuel
                     (RSH_CHANNEL_BASE K chan + addr) value)
                  dev1 _ (wp_rshim_boot_fifo_write K hw ops fuel Hcnt Hfuel _ _ _))
        as (r & t & dev' & (E & G1 & G2 & G3) & W & _ & S5 & _).
      exists r, ([Call f_rshim_pcie_write [chan; addr; value]] ++ t1 ++ t),
        dev'.
      split; [|split; [congruence|]].
      * rewrite E, G1, G2, G3, H1, H2, H3.
        rewrite <- !app_assoc. auto.
      * layers. rewrite S1, S5. reflexivity.
    + destruct (returnsD_on_pci
                  (rshim_byte_acc_write K ops fuel
                     (RSH_CHANNEL_BASE K chan + addr) value)
                  dev1 _ (wp_rshim_byte_acc_write K hw ops fuel Hcnt Hfuel _ _ _))
        as (r & t & dev' & (E & G1 & G2 & G3) & W & S5 & _).
      exists r, ([Call f_rshim_pcie_write [chan; addr; value]] ++ t1 ++ t),
        dev'.
      split; [|split; [congruence|]].
      * rewrite E, G1, G2, G3, H1, H2, H3.
        rewrite <- !app_assoc. auto.
      * layers. rewrite S1, S5. reflexivity.
  - eexists _, [Call f_rshim_pcie_write [chan; addr; value]], _.
    cbn. auto 10.
Qed.

End DispatcherSpecs.

(** ** The first error of a run *)

Lemma failed_existsb t : failed t <-> existsb is_failure t = true.
Proof.
  unfold failed, bus_fault, timed_out, is_failure.
  induction t as [|e t IH]; cbn.
  - split; [intros [H|H]; discriminate H | discriminate].
  - rewrite !orb_true_iff in *. tauto.
Qed.

Lemma not_failed_app t u : ~ failed (t ++ u) <-> ~ failed t /\ ~ failed u.
Proof.
  rewrite !failed_existsb, existsb_app, orb_true_iff. tauto.
Qed.

Lemma not_failed_one e : is_failure e = false -> ~ failed [e].
Proof.
  intros H. rewrite failed_existsb. cbn. rewrite H. discriminate.
Qed.

Lemma stops_app {A} (r : rc_or A) t u :
  ~ failed t -> stops_at_first_error r u -> stops_at_first_error r (t ++ u).
Proof.
  intros Ht. destruct r as [rc|a]; cbn.
  - intros (t0 & e & -> & N & F & E).
    exists (t ++ t0), e. rewrite app_assoc.
    split; [reflexivity|]. split; [now apply not_failed_app|]. auto.
  - intros Hu. now apply not_failed_app.
Qed.

Lemma stops_negative {A} (r : rc_or A) t :
  stops_at_first_error r t -> rc_of r <= 0 /\ (is_good r = false -> rc_of r < 0).
Proof.
  destruct r as [rc|a]; cbn; [|intros _; split; [lia|discriminate]].
  intros (t0 & e & _ & _ & F & ->).
  unfold is_failure in F.
  destruct e as [f xs|p v rc'|p v o|f]; cbn in *; try discriminate.
  - rewrite orb_false_r in F. apply Z.ltb_lt in F. lia.
  - unfold ETIMEDOUT. lia.
Qed.

Section FirstError.

Variable K : rshim_h.
Variable hw : Type.
Variable ops : pci_ops hw.
Variable fuel : nat.
Hypothesis Hcnt : 0 <= LOCK_RETRY_CNT K < 2 ^ 31 - 1.
Hypothesis Hfuel : (Z.to_nat (LOCK_RETRY_CNT K) < fuel)%nat.

(** A computation of which every run stops at its first error. *)
Local Abbreviation stopping m :=
  (forall d : pci_dev hw, wp m d (fun r t _ => stops_at_first_error r t)).

Lemma stopping_bind_rc {A B} (m : M hw (rc_or A)) (k : A -> M hw (rc_or B)) :
  stopping m -> (forall a, stopping (k a)) -> stopping (bind_rc m k).
Proof.
  intros Hm Hk d. apply wp_bind_rc.
  eapply wp_conseq; [apply Hm|].
  intros [rc|a] t d1 _ S; [exact S|].
  eapply wp_conseq; [apply Hk|].
  intros r t2 d2 _ S2. now apply stops_app.
Qed.

Lemma stopping_call {A} f xs (m : M hw (rc_or A)) :
  stopping m -> stopping (bind (emit (Call f xs)) (fun _ => m)).
Proof.
  intros Hm d. apply wp_bind, wp_emit. intros d1 _.
  eapply wp_conseq; [apply Hm|].
  intros r t d2 _ S. apply stops_app; [|exact S].
  now apply not_failed_one.
Qed.

Lemma stopping_ret {A} (a : A) : stopping (ret (Good a)).
Proof.
  intros d. apply wp_ret. cbn. rewrite failed_existsb. discriminate.
Qed.

Lemma stopping_timeout {A} f :
  stopping (bind (emit (TimedOut f))
              (fun _ => ret (Fail (- ETIMEDOUT) : rc_or A))).
Proof.
  intros d. apply wp_bind, wp_emit. intros d1 _. apply wp_ret.
  exists [], (TimedOut f). repeat split.
  rewrite failed_existsb. discriminate.
Qed.

Lemma stopping_pci_cap_read offset : stopping (pci_cap_read ops offset).
Proof.
  intros d. unfold pci_cap_read.
  apply wp_bind, wp_emit. intros d1 _.
  apply wp_bind, wp_pci_write_long. intros d2 _ _ rc.
  destruct (rc <? 0) eqn:E.
  - apply wp_ret. eexists [_], _. cbn.
    split; [reflexivity|]. split; [now apply not_failed_one|].
    split; [|reflexivity]. unfold is_failure. cbn. now rewrite E.
  - apply wp_bind, wp_pci_read_long. intros d3 _ _ data ok.
    apply wp_ret. cbn. rewrite failed_existsb. cbn.
    unfold is_failure. cbn. rewrite E. discriminate.
Qed.

Lemma stopping_pci_cap_write offset value :
  stopping (pci_cap_write ops offset value).
Proof.
  intros d. unfold pci_cap_write.
  apply wp_bind, wp_emit. intros d1 _.
  apply wp_bind, wp_pci_write_long. intros d2 _ _ rc.
  destruct (rc <? 0) eqn:E.
  - apply wp_ret. eexists [_], _. cbn.
    split; [reflexivity|]. split; [now apply not_failed_one|].
    split; [|reflexivity]. unfold is_failure. cbn. now rewrite E.
  - apply wp_bind, wp_pci_write_long. intros d3 _ _ rc'.
    destruct (rc' <? 0) eqn:E'.
    + apply wp_ret. eexists [_; _], _. cbn.
      split; [reflexivity|].
      split; [rewrite failed_existsb; cbn; unfold is_failure; cbn;
              rewrite E; discriminate|].
      split; [|reflexivity]. unfold is_failure. cbn. now rewrite E'.
    + apply wp_ret. cbn. rewrite failed_existsb. cbn.
      unfold is_failure. cbn. rewrite E, E'. discriminate.
Qed.

Lemma stopping_trio_cr_gw_lock_wait n : forall retry,
  0 <= retry <= LOCK_RETRY_CNT K ->
  (Z.to_nat (LOCK_RETRY_CNT K - retry) < n)%nat ->
  stopping (trio_cr_gw_lock_wait K ops n retry).
Proof.
  induction n as [|n IH]; intros retry Hr Hn; [lia|].
  cbn [trio_cr_gw_lock_wait].
  apply stopping_bind_rc; [apply stopping_pci_cap_read|]. intros v.
  rewrite (u32_small (retry + 1)), (u32_small (LOCK_RETRY_CNT K))
    by (change (2 ^ 32) with 4294967296; lia).
  destruct (retry + 1 >? LOCK_RETRY_CNT K) eqn:E;
    [apply stopping_timeout|].
  destruct (Z.land v TRIO_CR_GW_LOCK_ACQUIRED =? 0);
    [apply stopping_ret|].
  apply IH; lia.
Qed.

Lemma stopping_trio_cr_gw_lock_acquire :
  stopping (trio_cr_gw_lock_acquire K ops fuel).
Proof.
  unfold trio_cr_gw_lock_acquire. apply stopping_call.
  apply stopping_bind_rc; [apply stopping_trio_cr_gw_lock_wait; lia|].
  intros _. apply stopping_pci_cap_write.
Qed.

Lemma stopping_trio_cr_gw_lock_release :
  stopping (trio_cr_gw_lock_release ops).
Proof.
  unfold trio_cr_gw_lock_release. apply stopping_call.
  apply stopping_pci_cap_write.
Qed.

Lemma stopping_get_device_id {A} (k : Z -> M hw (rc_or A)) :
  (forall id, stopping (k id)) -> stopping (bind get_device_id k).
Proof.
  intros Hk d. apply wp_bind, wp_get_device_id. apply Hk.
Qed.

Ltac stopping_steps :=
  repeat first
    [ apply stopping_pci_cap_read
    | apply stopping_pci_cap_write
    | apply stopping_trio_cr_gw_lock_acquire
    | apply stopping_trio_cr_gw_lock_release
    | apply stopping_ret
    | apply stopping_get_device_id; intros ?
    | apply stopping_bind_rc; [|intros ?]
    | apply stopping_call
    | match goal with
      | |- context [if ?c then _ else _] => destruct c
      end ].

Lemma stopping_crspace_rsh_gw_read addr :
  stopping (crspace_rsh_gw_read K ops fuel addr).
Proof. unfold crspace_rsh_gw_read. stopping_steps. Qed.

Lemma stopping_crspace_rsh_gw_write addr value :
  stopping (crspace_rsh_gw_write K ops fuel addr value).
Proof. unfold crspace_rsh_gw_write. stopping_steps. Qed.

Lemma stopping_pending_wait_loop n : forall retry,
  0 <= retry <= LOCK_RETRY_CNT K ->
  (Z.to_nat (LOCK_RETRY_CNT K - retry) < n)%nat ->
  stopping (pending_wait_loop K ops fuel n retry).
Proof.
  induction n as [|n IH]; intros retry Hr Hn; [lia|].
  cbn [pending_wait_loop].
  apply stopping_bind_rc; [apply stopping_crspace_rsh_gw_read|]. intros v.
  rewrite (u32_small (retry + 1)), (u32_small (LOCK_RETRY_CNT K))
    by (change (2 ^ 32) with 4294967296; lia).
  destruct (retry + 1 >? LOCK_RETRY_CNT K) eqn:E;
    [apply stopping_timeout|].
  destruct (Z.land v (RSH_BYTE_ACC_PENDING K) =? 0);
    [apply stopping_ret|].
  apply IH; lia.
Qed.

Lemma stopping_rshim_byte_acc_pending_wait :
  stopping (rshim_byte_acc_pending_wait K ops fuel).
Proof.
  unfold rshim_byte_acc_pending_wait. apply stopping_call.
  apply stopping_pending_wait_loop; lia.
Qed.

Lemma stopping_interlock_loop n : forall retry,
  0 <= retry <= LOCK_RETRY_CNT K ->
  (Z.to_nat (LOCK_RETRY_CNT K - retry) < n)%nat ->
  stopping (interlock_loop K ops fuel n retry).
Proof.
  induction n as [|n IH]; intros retry Hr Hn; [lia|].
  cbn [interlock_loop].
  rewrite (s32_small (retry + 1))
    by (change (2 ^ 31) with 2147483648 in *; lia).
  destruct (retry + 1 >? LOCK_RETRY_CNT K) eqn:E;
    [apply stopping_timeout|].
  apply stopping_bind_rc; [apply stopping_crspace_rsh_gw_read|]. intros v.
  destruct (negb (Z.land v 1 =? 0)); [apply stopping_ret|].
  apply IH; lia.
Qed.

Lemma stopping_rshim_byte_acc_lock_acquire :
  stopping (rshim_byte_acc_lock_acquire K ops fuel).
Proof.
  unfold rshim_byte_acc_lock_acquire. apply stopping_call.
  apply stopping_interlock_loop; lia.
Qed.

Lemma stopping_rshim_byte_acc_lock_release :
  stopping (rshim_byte_acc_lock_release K ops fuel).
Proof.
  unfold rshim_byte_acc_lock_release. apply stopping_call.
  apply stopping_crspace_rsh_gw_write.
Qed.

Lemma stopping_rshim_boot_fifo_write addr value :
  stopping (rshim_boot_fifo_write K ops fuel addr value).
Proof.
  unfold rshim_boot_fifo_write. apply stopping_call.
  apply stopping_bind_rc; [apply stopping_crspace_rsh_gw_write|]. intros _.
  apply stopping_bind_rc; [apply stopping_crspace_rsh_gw_write|]. intros _.
  apply stopping_ret.
Qed.

Lemma stopping_byte_acc_write_body value :
  stopping (byte_acc_write_body K ops fuel value).
Proof.
  unfold byte_acc_write_body.
  apply stopping_bind_rc; [apply stopping_crspace_rsh_gw_write|]. intros _.
  apply stopping_bind_rc; [apply stopping_crspace_rsh_gw_write|]. intros _.
  apply stopping_bind_rc; [apply stopping_rshim_byte_acc_pending_wait|].
  intros _. apply stopping_crspace_rsh_gw_write.
Qed.

Lemma stopping_byte_acc_read_body addr :
  stopping (byte_acc_read_body K ops fuel addr).
Proof.
  unfold byte_acc_read_body.
  apply stopping_bind_rc; [apply stopping_crspace_rsh_gw_write|]. intros _.
  apply stopping_bind_rc; [apply stopping_crspace_rsh_gw_write|]. intros _.
  apply stopping_bind_rc; [apply stopping_rshim_byte_acc_pending_wait|].
  intros _.
  apply stopping_bind_rc; [apply stopping_crspace_rsh_gw_read|]. intros lo.
  apply stopping_bind_rc; [apply stopping_rshim_byte_acc_pending_wait|].
  intros _.
  apply stopping_bind_rc; [apply stopping_crspace_rsh_gw_read|]. intros hi.
  apply stopping_ret.
Qed.

Lemma stopping_same {A} (m : M hw (rc_or A)) :
  stopping m -> stopping (bind m (fun rc => ret rc)).
Proof.
  intros Hm d. apply wp_bind. eapply wp_conseq; [apply Hm|].
  intros r t d1 _ S. apply wp_ret. now rewrite app_nil_r.
Qed.

(** On a revision without the interlock, the widget write is its
    statements in sequence. *)
Lemma stops_rshim_byte_acc_write addr value d :
  device_id d <> BLUEFIELD2_DEVICE_ID ->
  wp (rshim_byte_acc_write K ops fuel addr value) d
     (fun r t _ => stops_at_first_error r t).
Proof.
  intros Hid. apply Z.eqb_neq in Hid. revert d Hid.
  unfold rshim_byte_acc_write. intros d Hid.
  apply wp_bind, wp_emit. intros d1 I1.
  apply wp_bind, wp_get_device_id. rewrite I1, Hid. cbn [app].
  eapply wp_conseq.
  - apply stopping_bind_rc; [apply stopping_ret|]. intros _.
    apply stopping_bind_rc; [apply stopping_crspace_rsh_gw_write|]. intros _.
    apply stopping_same, stopping_byte_acc_write_body.
  - intros r t d2 _ S. apply (stops_app r [_]); [|exact S].
    now apply not_failed_one.
Qed.

Lemma stops_rshim_byte_acc_read addr d :
  device_id d <> BLUEFIELD2_DEVICE_ID ->
  wp (rshim_byte_acc_read K ops fuel addr) d
     (fun r t _ => stops_at_first_error (fst r) t
                   /\ (snd r <> None <-> is_good (fst r) = true)).
Proof.
  intros Hid. apply Z.eqb_neq in Hid.
  unfold rshim_byte_acc_read.
  apply wp_bind, wp_emit. intros d1 I1.
  apply wp_bind.
  eapply wp_conseq; [apply stopping_rshim_byte_acc_pending_wait|].
  intros [rc|[]] t1 d2 I2 S1.
  - apply wp_ret. cbn [fst snd]. rewrite app_nil_r.
    split; [apply (stops_app (Fail rc) [_]); auto; now apply not_failed_one|].
    cbn. split; [congruence | discriminate].
  - apply wp_bind, wp_get_device_id. rewrite I2, I1, Hid.
    apply wp_bind, wp_ret. apply wp_bind.
    eapply wp_conseq; [apply stopping_byte_acc_read_body|].
    intros r t2 d3 _ S2. apply wp_ret. cbn [app fst snd].
    rewrite app_nil_r.
    assert (N : ~ failed (Call f_rshim_byte_acc_read [addr] :: t1)).
    { apply (not_failed_app [_]). split; [now apply not_failed_one|exact S1]. }
    destruct r as [rc|v]; cbn [stored is_good].
    + split; [apply (stops_app (Fail rc) (_ :: t1)); assumption|].
      split; [congruence | discriminate].
    + split; [apply (stops_app (Good tt) (_ :: t1)); assumption|].
      split; [reflexivity | discriminate].
Qed.

(** The two writes of the boot FIFO writer, in every run. *)
Lemma wp_boot_fifo_words addr value d :
  wp (rshim_boot_fifo_write K ops fuel addr value) d
     (fun r t _ =>
        exists j, (1 <= j <= 2)%nat
          /\ from_layer 3 t =
               Call f_rshim_boot_fifo_write [addr; value]
               :: firstn j
                    [Call f_crspace_rsh_gw_write [addr; u32 value];
                     Call f_crspace_rsh_gw_write
                       [addr; u32 (Z.shiftr value 32)]]
          /\ (is_good r = true -> j = 2%nat)).
Proof.
  unfold rshim_boot_fifo_write.
  apply wp_bind, wp_emit. intros d1 _.
  apply wp_bind_rc. eapply wp_conseq; [apply wp_cr_write; assumption|].
  intros [rc|[]] t1 d2 _ (A1 & _).
  - exists 1%nat. split; [lia|]. split; [|discriminate].
    layers. now rewrite A1.
  - apply wp_bind_rc. eapply wp_conseq; [apply wp_cr_write; assumption|].
    intros [rc|[]] t2 d3 _ (A2 & _).
    + exists 2%nat. split; [lia|]. split; [|discriminate].
      layers. now rewrite A1, A2.
    + apply wp_ret. exists 2%nat. split; [lia|]. split; [|reflexivity].
      layers. now rewrite A1, A2.
Qed.

End FirstError.

Section Both.

Variable hw : Type.

(** A run is determined by the computation and the device it starts
    on, so what two specifications say of it holds together. *)
Lemma wp_and {A} (m : M hw A) d
    (Q1 Q2 : A -> list event -> pci_dev hw -> Prop) :
  wp m d Q1 -> wp m d Q2 -> wp m d (fun r t d' => Q1 r t d' /\ Q2 r t d').
Proof.
  intros (r1 & t1 & d1 & (E1 & I1 & T1) & H1)
         (r2 & t2 & d2 & (E2 & I2 & T2) & H2).
  rewrite E1 in E2. injection E2 as <- <-.
  rewrite T1 in T2. apply app_inv_head in T2. subst t2.
  exists r1, t1, d1. repeat split; assumption.
Qed.

End Both.

(** * The capability register accessor (C8) *)

(** C8, counterexample: on a bus whose data-register read fails,
    [pci_cap_read] of the gateway lock register still returns 0, with the
    word the failed read delivered as its result. *)
Lemma cap_read_misses_read_failure :
  exists d',
    pci_cap_read dead_read_ops TRIO_CR_GW_LOCK
      (script_dev BLUEFIELD1_DEVICE_ID) = Some (Good 0xffffffff, d')
    /\ trace d' = [Call f_pci_cap_read [TRIO_CR_GW_LOCK];
                   PciWrite MELLANOX_ADDR (TRIO_CR_GW_LOCK + 1) 0;
                   PciRead MELLANOX_DATA 0xffffffff false]
    /\ existsb is_failed_transaction (trace d') = true
    /\ ~ cap_read_reports_every_failure.
Proof.
  eexists. split; [vm_compute; reflexivity|].
  split; [reflexivity|]. split; [reflexivity|].
  intros H.
  specialize (H script dead_read_ops TRIO_CR_GW_LOCK
                (script_dev BLUEFIELD1_DEVICE_ID) (Good 0xffffffff)).
  specialize (H _ _ (conj eq_refl (conj eq_refl eq_refl)) eq_refl).
  discriminate H.
Qed.

(** C8, as amended: [pci_cap_read offset] first writes [offset] with the
    read bit set to the address register.  When that write returns a
    negative status it returns this status and does not touch the data
    register.  Otherwise it reads the data register and returns 0 with
    the word read, whether or not the read transaction succeeded. *)
Theorem pci_cap_read_spec :
  forall hw (ops : pci_ops hw) (offset : Z) (d : pci_dev hw),
  exists r d',
    pci_cap_read ops offset d = Some (r, d')
    /\ device_id d' = device_id d
    /\ let sel := u32 (Z.lor offset MELLANOX_CAP_READ) in
       let rc := fst (cfg_write ops (bus d) MELLANOX_ADDR sel) in
       let h1 := snd (cfg_write ops (bus d) MELLANOX_ADDR sel) in
       if rc <? 0
       then r = Fail rc /\ bus d' = h1
            /\ trace d' = trace d ++ [Call f_pci_cap_read [offset];
                                      PciWrite MELLANOX_ADDR sel rc]
       else let data := fst (fst (cfg_read ops h1 MELLANOX_DATA)) in
            let ok := snd (fst (cfg_read ops h1 MELLANOX_DATA)) in
            r = Good data
            /\ bus d' = snd (cfg_read ops h1 MELLANOX_DATA)
            /\ trace d' = trace d ++ [Call f_pci_cap_read [offset];
                                      PciWrite MELLANOX_ADDR sel rc;
                                      PciRead MELLANOX_DATA data ok].
Proof.
  intros hw ops offset d.
  rewrite pci_cap_read_outcome. unfold cap_read_outcome.
  destruct (cfg_write ops (bus d) MELLANOX_ADDR _) as [rc h1]. cbn [fst snd].
  destruct (rc <? 0).
  - eexists _, _. split; [reflexivity|]. cbn. auto.
  - destruct (cfg_read ops h1 MELLANOX_DATA) as [[data ok] h2].
    eexists _, _. split; [reflexivity|]. cbn. rewrite <- app_assoc. auto.
Qed.

(** * The polling loops (C6) *)

Lemma explained_poll_result (r : rc_or unit) t :
  explained r t -> poll_result r t.
Proof.
  destruct r as [rc|[]]; cbn; [|now left].
  intros (_ & [(-> & _)|(_ & F)]); [right; now left | right; now right].
Qed.

(** C6: every polling loop terminates.  Whatever the bus and the polled
    register do, and for every iteration budget of the model above
    [LOCK_RETRY_CNT], the gateway lock acquire, the pending-bit wait and
    the interlock acquire return: with 0 after at most [LOCK_RETRY_CNT]
    polls, or with [-ETIMEDOUT] (the pass after the last allowed poll), or
    at once with the status of a configuration write that failed.  The
    iteration budget of the model never cuts a loop off. *)
Theorem polling_loops_terminate :
  forall hw (K : rshim_h) (ops : pci_ops hw) (fuel : nat),
    0 <= LOCK_RETRY_CNT K < 2 ^ 31 - 1 ->
    (Z.to_nat (LOCK_RETRY_CNT K) < fuel)%nat ->
    forall d : pci_dev hw, polling_terminates K ops fuel d.
Proof.
  intros hw K ops fuel Hcnt Hfuel d. split; [|split].
  - destruct (wp_trio_cr_gw_lock_acquire K hw ops fuel Hcnt Hfuel d)
      as (r & t & d' & R & k & j & K1 & K2 & K3 & K4 & K5 & K6 & K7).
    exists r, t, d', k, j.
    split; [exact R|]. split; [now apply explained_poll_result|].
    split; [exact K1|]. split; [exact K2|]. split; [exact K4|].
    intros G. now apply K7.
  - destruct (wp_rshim_byte_acc_pending_wait K hw ops fuel Hcnt Hfuel d)
      as (r & t & d' & R & k & K1 & K2 & K3 & K4 & K5).
    exists r, t, d', k.
    split; [exact R|]. split; [now apply explained_poll_result|]. auto.
  - destruct (wp_rshim_byte_acc_lock_acquire K hw ops fuel Hcnt Hfuel d)
      as (r & t & d' & R & k & K1 & K2 & K3 & K4).
    exists r, t, d', k.
    split; [exact R|]. split; [now apply explained_poll_result|]. auto.
Qed.

Lemma polling_loops_terminate_witness :
  (0 <= LOCK_RETRY_CNT bluefield_h < 2 ^ 31 - 1)
  /\ (Z.to_nat (LOCK_RETRY_CNT bluefield_h) < 1001)%nat
  /\ polling_terminates bluefield_h stuck_ops 1001
       (script_dev BLUEFIELD2_DEVICE_ID).
Proof.
  assert (H1 : 0 <= LOCK_RETRY_CNT bluefield_h < 2 ^ 31 - 1)
    by (cbn; lia).
  assert (H2 : (Z.to_nat (LOCK_RETRY_CNT bluefield_h) < 1001)%nat)
    by (apply Nat.ltb_lt; vm_compute; reflexivity).
  split; [exact H1|]. split; [exact H2|].
  exact (polling_loops_terminate script bluefield_h stuck_ops 1001 H1 H2
           (script_dev BLUEFIELD2_DEVICE_ID)).
Defined.

(** With the registers stuck, each of the three gives up with
    [-ETIMEDOUT]; the pending-bit wait has polled 1001 times, the
    interlock acquire 1000 times. *)
Example stuck_registers_time_out :
  (exists d', trio_cr_gw_lock_acquire bluefield_h stuck_ops 1001
                (script_dev BLUEFIELD1_DEVICE_ID)
              = Some (Fail (- ETIMEDOUT), d')
              /\ at_layer 1 (trace d') = lock_polls 1001)
  /\ (exists d', rshim_byte_acc_pending_wait bluefield_h stuck_ops 1001
                   (script_dev BLUEFIELD2_DEVICE_ID)
                 = Some (Fail (- ETIMEDOUT), d')
                 /\ at_layer 3 (trace d') = cr_polls 0x490 1001)
  /\ (exists d', rshim_byte_acc_lock_acquire bluefield_h stuck_ops 1001
                   (script_dev BLUEFIELD2_DEVICE_ID)
                 = Some (Fail (- ETIMEDOUT), d')
                 /\ at_layer 3 (trace d') = cr_polls 0x4b0 1000).
Proof.
  split; [|split]; eexists;
    (split; [vm_compute; reflexivity|]); vm_compute; reflexivity.
Qed.

(** * The gateway lock on the exit paths (C2) *)

Lemma fn_eqb_eq f g : fn_eqb f g = true -> f = g.
Proof. destruct f, g; cbn; congruence. Qed.

Lemma event_eqb_layer e a : event_eqb e a = true -> layer a = layer e.
Proof.
  destruct e as [f xs| | |f], a as [g ys| | |g]; cbn; try discriminate; auto.
  intros H. apply andb_prop in H as (H & _). apply andb_prop in H as (H & _).
  apply fn_eqb_eq in H. now subst.
Qed.

Lemma occurrences_at_layer e t :
  occurrences e (at_layer (layer e) t) = occurrences e t.
Proof.
  unfold occurrences, at_layer. f_equal. apply filter_implied.
  intros a H. apply event_eqb_layer in H. rewrite H. apply Nat.eqb_refl.
Qed.

Lemma occurrences_lock_polls e k :
  event_eqb e (Call f_pci_cap_read [TRIO_CR_GW_LOCK]) = false ->
  occurrences e (lock_polls k) = 0%nat.
Proof.
  intros H. unfold occurrences, lock_polls. now rewrite filter_repeat, H.
Qed.

Lemma last_polls_steps k (l : list event) a x :
  last (lock_polls k ++ l ++ [x]) a = x.
Proof. now rewrite app_assoc, last_last. Qed.

(** The discipline follows from the shape of the accesses, when the
    accesses between acquire and release do not write the lock
    patterns. *)
Lemma gw_steps_discipline {A} (r : rc_or A) t k j (m1 m2 m3 m4 : event) :
  at_layer 1 t = lock_polls k ++ firstn j (gw_steps [m1; m2; m3; m4]) ->
  (j <= 6)%nat ->
  (is_good r = true -> j = 6%nat) ->
  (forall m, In m [m1; m2; m3; m4] ->
             event_eqb lock_acquire_write m = false
             /\ event_eqb lock_release_write m = false) ->
  lock_discipline r t.
Proof.
  intros Ht Hj Hg Hm.
  destruct (Hm m1) as (a1 & r1); [cbn; auto|].
  destruct (Hm m2) as (a2 & r2); [cbn; auto|].
  destruct (Hm m3) as (a3 & r3); [cbn; auto|].
  destruct (Hm m4) as (a4 & r4); [cbn; auto 6|].
  assert (Oa : occurrences lock_acquire_write t
               = occurrences lock_acquire_write
                   (firstn j (gw_steps [m1; m2; m3; m4]))).
  { rewrite <- (occurrences_at_layer lock_acquire_write t).
    change (layer lock_acquire_write) with 1%nat.
    rewrite Ht, occurrences_app, occurrences_lock_polls; reflexivity. }
  assert (Or : occurrences lock_release_write t
               = occurrences lock_release_write
                   (firstn j (gw_steps [m1; m2; m3; m4]))).
  { rewrite <- (occurrences_at_layer lock_release_write t).
    change (layer lock_release_write) with 1%nat.
    rewrite Ht, occurrences_app, occurrences_lock_polls; reflexivity. }
  assert (aa : event_eqb lock_acquire_write lock_acquire_write = true)
    by reflexivity.
  assert (ar : event_eqb lock_acquire_write lock_release_write = false)
    by reflexivity.
  assert (ra : event_eqb lock_release_write lock_acquire_write = false)
    by reflexivity.
  assert (rr : event_eqb lock_release_write lock_release_write = true)
    by reflexivity.
  unfold lock_discipline. rewrite Oa, Or, Ht.
  unfold occurrences, gw_steps.
  fold lock_acquire_write lock_release_write.
  destruct j as [|[|[|[|[|[|[|j]]]]]]]; try lia;
    cbn [firstn app filter];
    rewrite ?aa, ?ar, ?ra, ?rr, ?a1, ?a2, ?a3, ?a4, ?r1, ?r2, ?r3, ?r4;
    cbn [length];
    (split; [lia|]); (split; [lia|]);
    (split; [intros G; specialize (Hg G); try discriminate Hg; auto|]);
    try (intros; discriminate).
  intros _. apply (last_polls_steps k [_; _; _; _; _]).
Qed.

(** The last event of a layer splits the trace: none of that layer
    comes after it. *)
Lemma last_at_layer_split n x dflt t :
  x <> dflt ->
  last (at_layer n t) dflt = x ->
  exists t1 t2, t = t1 ++ x :: t2 /\ at_layer n t2 = [].
Proof.
  intros N. induction t as [|a t IH] using rev_ind; intros H.
  - cbn in H. congruence.
  - rewrite at_layer_app in H. cbn [at_layer filter] in H.
    destruct (Nat.eqb (layer a) n) eqn:E.
    + rewrite last_last in H. subst a.
      exists t, []. split; reflexivity.
    + rewrite app_nil_r in H. destruct (IH H) as (t1 & t2 & -> & Z2).
      exists t1, (t2 ++ [a]). split; [now rewrite <- app_assoc|].
      rewrite at_layer_app, Z2. cbn. now rewrite E.
Qed.

(** A failure is an event of the bus layer. *)
Lemma is_failure_layer e : is_failure e = true -> layer e = 0%nat.
Proof. destruct e; cbn; congruence. Qed.

(** In a failing run that keeps the discipline and stops at its first
    failure, a release can only be the step that failed. *)
Lemma discipline_release_failed {A} (r : rc_or A) t :
  lock_discipline r t -> stops_at_first_error r t ->
  release_only_if_it_failed r t.
Proof.
  intros (Ha & Hr & _ & Hl) S. destruct r as [rc|a]; [|exact I].
  destruct S as (t0 & e & -> & N & F & ->). cbn.
  destruct (occurrences lock_release_write (t0 ++ [e])) as [|n] eqn:O;
    [now left | right].
  assert (O1 : S n = 1%nat) by lia.
  specialize (Hl O1). rewrite at_layer_app in Hl.
  cbn [at_layer filter] in Hl. rewrite (is_failure_layer e F) in Hl.
  cbn [Nat.eqb] in Hl. rewrite app_nil_r in Hl.
  destruct (last_at_layer_split 1 lock_release_write lock_acquire_write t0)
    as (t1 & t2 & -> & Z2); [discriminate | exact Hl |].
  exists t1, t2, e. rewrite <- app_assoc. cbn [app]. auto.
Qed.

(** C2, as amended: on the legacy revision a 32-bit CR-space read or
    write acquires the Gateway Lock at most once.  When every step
    succeeds, the acquire is matched by exactly one release, issued as the
    last access of the operation.  When a step fails, the operation
    returns the status of that step at once: the failure is the last
    event of the run, so that no release follows it, and a failing run
    contains a release only when the release itself is the step that
    failed.  A failure between the acquire and the release leaves the
    lock taken. *)
Theorem gateway_lock_released_on_success :
  forall hw (K : rshim_h) (ops : pci_ops hw) (fuel : nat),
    0 <= LOCK_RETRY_CNT K < 2 ^ 31 - 1 ->
    (Z.to_nat (LOCK_RETRY_CNT K) < fuel)%nat ->
    forall (d : pci_dev hw) (addr value : Z),
      device_id d <> BLUEFIELD2_DEVICE_ID ->
      gateway_lock_discipline K ops fuel d addr value.
Proof.
  intros hw K ops fuel Hcnt Hfuel d addr value Hid.
  apply Z.eqb_neq in Hid. split.
  - destruct (wp_and hw _ d _ _
                (wp_crspace_rsh_gw_read K hw ops fuel Hcnt Hfuel addr d)
                (stopping_crspace_rsh_gw_read K hw ops fuel Hcnt Hfuel
                   addr d))
      as (r & t & d' & R & (_ & _ & S) & F).
    rewrite Hid in S. destruct S as (k & j & _ & _ & Hj & Ht & Hg).
    exists r, t, d'. split; [exact R|].
    assert (D : lock_discipline r t).
    { eapply gw_steps_discipline; eauto.
      intros m [<-|[<-|[<-|[<-|[]]]]]; split; reflexivity. }
    split; [exact D|]. split; [exact F|].
    now apply discipline_release_failed.
  - destruct (wp_and hw _ d _ _
                (wp_crspace_rsh_gw_write K hw ops fuel Hcnt Hfuel addr
                   value d)
                (stopping_crspace_rsh_gw_write K hw ops fuel Hcnt Hfuel
                   addr value d))
      as (r & t & d' & R & (_ & _ & S) & F).
    rewrite Hid in S. destruct S as (k & j & _ & _ & Hj & Ht & Hg).
    exists r, t, d'. split; [exact R|].
    assert (D : lock_discipline r t).
    { eapply gw_steps_discipline; eauto.
      intros m [<-|[<-|[<-|[<-|[]]]]]; split; reflexivity. }
    split; [exact D|]. split; [exact F|].
    now apply discipline_release_failed.
Qed.

Lemma gateway_lock_released_on_success_witness :
  (0 <= LOCK_RETRY_CNT bluefield_h < 2 ^ 31 - 1)
  /\ (Z.to_nat (LOCK_RETRY_CNT bluefield_h) < 1001)%nat
  /\ device_id (script_dev BLUEFIELD1_DEVICE_ID) <> BLUEFIELD2_DEVICE_ID
  /\ gateway_lock_discipline bluefield_h (script_ops never (reads_as 0)) 1001
       (script_dev BLUEFIELD1_DEVICE_ID) 0x490 0x10.
Proof.
  assert (H1 : 0 <= LOCK_RETRY_CNT bluefield_h < 2 ^ 31 - 1)
    by (cbn; lia).
  assert (H2 : (Z.to_nat (LOCK_RETRY_CNT bluefield_h) < 1001)%nat)
    by (apply Nat.ltb_lt; vm_compute; reflexivity).
  assert (H3 : device_id (script_dev BLUEFIELD1_DEVICE_ID)
               <> BLUEFIELD2_DEVICE_ID) by (cbn; discriminate).
  split; [exact H1|]. split; [exact H2|]. split; [exact H3|].
  exact (gateway_lock_released_on_success script bluefield_h
           (script_ops never (reads_as 0)) 1001 H1 H2
           (script_dev BLUEFIELD1_DEVICE_ID) 0x490 0x10 H3).
Defined.

(** C2, counterexample: a legacy device whose lock is free, on a bus
    whose fourth configuration write fails.  The read of the widget's
    control register polls the lock, acquires it with two good writes,
    fails on the next one and returns [-EIO]: one acquire, no release. *)
Lemma gw_read_leaks_lock :
  exists d',
    crspace_rsh_gw_read bluefield_h (script_ops (only 3) (reads_as 0)) 1001
      (RSH_BYTE_ACC_CTL bluefield_h) (script_dev BLUEFIELD1_DEVICE_ID)
    = Some (Fail (- EIO), d')
    /\ at_layer 0 (trace d') =
         [PciWrite MELLANOX_ADDR (TRIO_CR_GW_LOCK + 1) 0;
          PciRead MELLANOX_DATA 0 true;
          PciWrite MELLANOX_DATA TRIO_CR_GW_LOCK_ACQUIRED 0;
          PciWrite MELLANOX_ADDR TRIO_CR_GW_LOCK 0;
          PciWrite MELLANOX_DATA 0x10490 (- EIO)]
    /\ occurrences lock_acquire_write (trace d') = 1%nat
    /\ occurrences lock_release_write (trace d') = 0%nat
    /\ ~ lock_balanced (trace d').
Proof.
  eexists. split; [vm_compute; reflexivity|].
  split; [reflexivity|]. split; [reflexivity|]. split; [reflexivity|].
  unfold lock_balanced. vm_compute. discriminate.
Qed.

(** The same on the write path: the failure of the trigger write leaves
    the lock taken. *)
Example gw_write_leaks_lock :
  exists d',
    crspace_rsh_gw_write bluefield_h (script_ops (only 9) (reads_as 0)) 1001
      (RSH_BYTE_ACC_CTL bluefield_h) 0x10 (script_dev BLUEFIELD1_DEVICE_ID)
    = Some (Fail (- EIO), d')
    /\ occurrences lock_acquire_write (trace d') = 1%nat
    /\ occurrences lock_release_write (trace d') = 0%nat.
Proof.
  eexists. split; [vm_compute; reflexivity|]. split; reflexivity.
Qed.

(** The one failing run with a release: the release is what fails.  On
    a bus whose eleventh configuration write fails, the read goes through
    the gateway and fails on the data write of the release, the last event
    of the run. *)
Example gw_read_release_fails :
  exists d',
    crspace_rsh_gw_read bluefield_h (script_ops (only 10) (reads_as 0)) 1001
      (RSH_BYTE_ACC_CTL bluefield_h) (script_dev BLUEFIELD1_DEVICE_ID)
    = Some (Fail (- EIO), d')
    /\ occurrences lock_acquire_write (trace d') = 1%nat
    /\ occurrences lock_release_write (trace d') = 1%nat
    /\ skipn (length (trace d') - 2) (trace d')
       = [lock_release_write;
          PciWrite MELLANOX_DATA TRIO_CR_GW_LOCK_RELEASE (- EIO)].
Proof.
  eexists. split; [vm_compute; reflexivity|].
  split; [reflexivity|]. split; reflexivity.
Qed.

(** * The widget interlock on the exit paths (C3, C4) *)

(** C3, the failing input: on the newer revision the interlock is
    acquired (write 0 selects the interlock register, which reads 1), then
    the write of the target address to RSH_BYTE_ACC_ADDR fails (write 1).
    [rshim_byte_acc_write] returns [-EIO] through the one [return rc] that
    is not a [goto exit_write]: the interlock release is never called. *)
Theorem byte_acc_write_leaks_interlock :
  exists d',
    rshim_byte_acc_write bluefield_h (ready_ops (only 1)) 1001
      0x20100 0x1122334455667788 (script_dev BLUEFIELD2_DEVICE_ID)
    = Some (Fail (- EIO), d')
    /\ from_layer 3 (trace d') =
         [Call f_rshim_byte_acc_write [0x20100; 0x1122334455667788];
          Call f_rshim_byte_acc_lock_acquire [];
          Call f_crspace_rsh_gw_read [RSH_BYTE_ACC_INTERLOCK bluefield_h];
          Call f_crspace_rsh_gw_write
            [RSH_BYTE_ACC_ADDR bluefield_h; 0x20100]]
    /\ occurrences (Call f_rshim_byte_acc_lock_release []) (trace d')
       = 0%nat.
Proof.
  eexists. split; [vm_compute; reflexivity|]. split; reflexivity.
Qed.

(** The sibling exits of the same function do release: when the next
    step, the control write, fails (write 3), the release is called. *)
Example byte_acc_write_releases_after_ctl_failure :
  exists d',
    rshim_byte_acc_write bluefield_h (ready_ops (only 3)) 1001
      0x20100 0x1122334455667788 (script_dev BLUEFIELD2_DEVICE_ID)
    = Some (Good tt, d')
    /\ occurrences (Call f_rshim_byte_acc_lock_release []) (trace d')
       = 1%nat.
Proof.
  eexists. split; [vm_compute; reflexivity|]. reflexivity.
Qed.

(** And so does the read on the corresponding exit: its address write
    failing (write 2) still ends in the release. *)
Example byte_acc_read_releases_after_addr_failure :
  exists d',
    rshim_byte_acc_read bluefield_h (ready_ops (only 2)) 1001 0x20100
      (script_dev BLUEFIELD2_DEVICE_ID)
    = Some ((Good tt, None), d')
    /\ occurrences (Call f_rshim_byte_acc_lock_release []) (trace d')
       = 1%nat.
Proof.
  eexists. split; [vm_compute; reflexivity|]. reflexivity.
Qed.

(** C4, the failing input: on the newer revision the pending-bit wait of
    an 8-byte widget write gives up with [-ETIMEDOUT]; the interlock
    release that follows succeeds, its status is assigned to the same
    [rc], and the write returns 0. *)
Theorem byte_acc_write_loses_first_error :
  exists d',
    rshim_byte_acc_write bluefield_h pending_stuck_ops 1001
      0x20100 0x1122334455667788 (script_dev BLUEFIELD2_DEVICE_ID)
    = Some (Good tt, d')
    /\ timed_out (trace d')
    /\ from_layer 4 (trace d') =
         [Call f_rshim_byte_acc_write [0x20100; 0x1122334455667788];
          Call f_rshim_byte_acc_lock_acquire [];
          Call f_rshim_byte_acc_pending_wait [];
          Call f_rshim_byte_acc_lock_release []].
Proof.
  eexists. split; [vm_compute; reflexivity|]. split; reflexivity.
Qed.

(** The read does the same: its control write fails with [-EIO] (write
    4), the release succeeds, and the read returns 0 although nothing was
    stored through [result]. *)
Example byte_acc_read_loses_first_error :
  exists d',
    rshim_byte_acc_read bluefield_h (ready_ops (only 4)) 1001 0x20100
      (script_dev BLUEFIELD2_DEVICE_ID)
    = Some ((Good tt, None), d')
    /\ bus_fault (trace d').
Proof.
  eexists. split; [vm_compute; reflexivity|]. reflexivity.
Qed.

(** * The order of an 8-byte widget write (C9) *)

(** C9, counterexample: a write on the newer revision in which nothing
    fails.  The low word follows the control write directly; there is one
    pending-bit wait, between the two data words, and no choice of poll
    counts makes the run the claimed sequence. *)
Lemma byte_acc_write_waits_once :
  exists d',
    rshim_byte_acc_write bluefield_h (ready_ops never) 1001
      0x20100 0x1122334455667788 (script_dev BLUEFIELD2_DEVICE_ID)
    = Some (Good tt, d')
    /\ ~ failed (trace d')
    /\ from_layer 3 (trace d') =
         [Call f_rshim_byte_acc_write [0x20100; 0x1122334455667788];
          Call f_rshim_byte_acc_lock_acquire [];
          Call f_crspace_rsh_gw_read [RSH_BYTE_ACC_INTERLOCK bluefield_h];
          Call f_crspace_rsh_gw_write [RSH_BYTE_ACC_ADDR bluefield_h; 0x20100];
          Call f_crspace_rsh_gw_write
            [RSH_BYTE_ACC_CTL bluefield_h;
             RSH_BYTE_ACC_SIZE_4BYTE bluefield_h];
          Call f_crspace_rsh_gw_write
            [RSH_BYTE_ACC_WDAT bluefield_h; 0x55667788];
          Call f_rshim_byte_acc_pending_wait [];
          Call f_crspace_rsh_gw_read [RSH_BYTE_ACC_CTL bluefield_h];
          Call f_crspace_rsh_gw_write
            [RSH_BYTE_ACC_WDAT bluefield_h; 0x11223344];
          Call f_rshim_byte_acc_lock_release [];
          Call f_crspace_rsh_gw_write
            [RSH_BYTE_ACC_INTERLOCK bluefield_h; 0]]
    /\ forall ka kp1 kp2,
         from_layer 3 (trace d') <>
         claimed_write_trace bluefield_h BLUEFIELD2_DEVICE_ID
           0x20100 0x1122334455667788 ka kp1 kp2.
Proof.
  eexists. split; [vm_compute; reflexivity|].
  split; [intros [H|H]; vm_compute in H; discriminate|].
  split; [reflexivity|].
  intros ka kp1 kp2 H.
  apply (f_equal (fun t => occurrences
                             (Call f_rshim_byte_acc_pending_wait []) t)) in H.
  unfold claimed_write_trace, cr_polls, occurrences in H.
  cbn [Z.eqb BLUEFIELD2_DEVICE_ID Pos.eqb] in H.
  repeat (rewrite ?filter_app, ?length_app, ?filter_repeat in H;
          cbn [filter event_eqb fn_eqb andb length] in H).
  vm_compute in H. lia.
Qed.

(** C9, as amended: for every 8-byte widget write in which no step fails
    (no configuration write returns a negative status and no polling loop
    gives up), the operations issued are exactly: (newer revision)
    interlock acquire, write of the target address to ACC_ADDR, write of
    the size bits to ACC_CTL, write of the low 32 bits to ACC_WDAT, one
    pending-bit wait, write of the high 32 bits to ACC_WDAT, then (newer
    revision) interlock release, in that order. *)
Theorem byte_acc_write_sequence :
  forall hw (K : rshim_h) (ops : pci_ops hw) (fuel : nat),
    0 <= LOCK_RETRY_CNT K < 2 ^ 31 - 1 ->
    (Z.to_nat (LOCK_RETRY_CNT K) < fuel)%nat ->
    forall (d : pci_dev hw) (addr value : Z),
      byte_acc_write_in_order K ops fuel d addr value.
Proof.
  intros hw K ops fuel Hcnt Hfuel d addr value.
  destruct (wp_rshim_byte_acc_write K hw ops fuel Hcnt Hfuel addr value d)
    as (r & t & d' & R & _ & _ & S).
  exists r, t, d'. split; [exact R|]. intros NF. apply S. now left.
Qed.

Lemma byte_acc_write_sequence_witness :
  (0 <= LOCK_RETRY_CNT bluefield_h < 2 ^ 31 - 1)
  /\ (Z.to_nat (LOCK_RETRY_CNT bluefield_h) < 1001)%nat
  /\ byte_acc_write_in_order bluefield_h (ready_ops never) 1001
       (script_dev BLUEFIELD2_DEVICE_ID) 0x20100 0x1122334455667788.
Proof.
  assert (H1 : 0 <= LOCK_RETRY_CNT bluefield_h < 2 ^ 31 - 1)
    by (cbn; lia).
  assert (H2 : (Z.to_nat (LOCK_RETRY_CNT bluefield_h) < 1001)%nat)
    by (apply Nat.ltb_lt; vm_compute; reflexivity).
  split; [exact H1|]. split; [exact H2|].
  exact (byte_acc_write_sequence script bluefield_h (ready_ops never) 1001
           H1 H2 (script_dev BLUEFIELD2_DEVICE_ID)
           0x20100 0x1122334455667788).
Defined.

(** * The routing of a write (C7) *)

(** C7, as amended: a write that passes the [has_rshim] guard is routed
    to the Boot FIFO Writer if its offset is the boot-FIFO data register
    and to the Byte Access Widget otherwise; in both cases the address
    passed down is [channelBase(channel) + offset].  What the boot FIFO is
    spared is the base of the widget's channel: the legacy gateway write
    adds [RSH_CHANNEL_BASE(RSHIM_CHANNEL)] to every address except those
    whose low 16 bits are the boot-FIFO data register. *)
Theorem write_is_routed :
  forall hw (K : rshim_h) (ops : pci_ops hw) (fuel : nat),
    0 <= LOCK_RETRY_CNT K < 2 ^ 31 - 1 ->
    (Z.to_nat (LOCK_RETRY_CNT K) < fuel)%nat ->
    forall (dev : rshim_pcie hw) (chan addr value : Z),
      has_rshim dev = true ->
      write_routing K ops fuel dev chan addr value
      /\ (device_id (pci dev) <> BLUEFIELD2_DEVICE_ID ->
          gateway_write_address K ops fuel (pci dev) addr value).
Proof.
  intros hw K ops fuel Hcnt Hfuel dev chan addr value Hr. split.
  - destruct (rshim_pcie_write_spec K hw ops fuel Hcnt Hfuel
                chan addr value dev) as (r & t & dev' & R & S).
    rewrite Hr in S. destruct S as (_ & S).
    exists r, t, dev'. split; [exact R|exact S].
  - intros Hid. apply Z.eqb_neq in Hid.
    destruct (wp_crspace_rsh_gw_write K hw ops fuel Hcnt Hfuel
                addr value (pci dev)) as (r & t & d' & R & _ & _ & S).
    rewrite Hid in S. destruct S as (k & j & _ & _ & _ & Ht & Hg).
    exists r, t, d'. split; [exact R|]. intros G.
    exists k. rewrite Ht, (Hg G). reflexivity.
Qed.

Lemma write_is_routed_witness :
  (0 <= LOCK_RETRY_CNT bluefield_h < 2 ^ 31 - 1)
  /\ (Z.to_nat (LOCK_RETRY_CNT bluefield_h) < 1001)%nat
  /\ has_rshim quiet_legacy = true
  /\ write_routing bluefield_h (script_ops never (reads_as 0)) 1001
       quiet_legacy 2 0x408 0xAABBCCDDEEFF0011
  /\ (device_id (pci quiet_legacy) <> BLUEFIELD2_DEVICE_ID ->
      gateway_write_address bluefield_h (script_ops never (reads_as 0)) 1001
        (pci quiet_legacy) 0x408 0xAABBCCDDEEFF0011).
Proof.
  assert (H1 : 0 <= LOCK_RETRY_CNT bluefield_h < 2 ^ 31 - 1)
    by (cbn; lia).
  assert (H2 : (Z.to_nat (LOCK_RETRY_CNT bluefield_h) < 1001)%nat)
    by (apply Nat.ltb_lt; vm_compute; reflexivity).
  split; [exact H1|]. split; [exact H2|]. split; [reflexivity|].
  exact (write_is_routed script bluefield_h (script_ops never (reads_as 0))
           1001 H1 H2 quiet_legacy 2 0x408 0xAABBCCDDEEFF0011 eq_refl).
Defined.

(** C7, counterexample: a write of the boot-FIFO data register on
    channel 2 of a legacy device.  The Boot FIFO Writer is called with
    [0x20408], the channel base added, and that is the address the
    gateway is given for both words. *)
Lemma boot_fifo_write_is_channel_offset :
  exists dev',
    rshim_pcie_write bluefield_h (script_ops never (reads_as 0)) 1001
      2 0x408 0xAABBCCDDEEFF0011 quiet_legacy
    = Some (Good tt, dev')
    /\ from_layer 3 (trace (pci dev')) =
         [Call f_rshim_pcie_write [2; 0x408; 0xAABBCCDDEEFF0011];
          Call f_rshim_boot_fifo_write [0x20408; 0xAABBCCDDEEFF0011];
          Call f_crspace_rsh_gw_write [0x20408; 0xEEFF0011];
          Call f_crspace_rsh_gw_write [0x20408; 0xAABBCCDD]]
    /\ occurrences (Call f_pci_cap_write [TRIO_CR_GW_ADDR_LOWER; 0x20408])
         (trace (pci dev')) = 2%nat
    /\ ~ boot_fifo_address_has_no_channel_base.
Proof.
  eexists. split; [vm_compute; reflexivity|].
  split; [reflexivity|]. split; [reflexivity|].
  intros H.
  let v := eval vm_compute in
             (rshim_pcie_write bluefield_h (script_ops never (reads_as 0))
                1001 2 0x408 0xAABBCCDDEEFF0011 quiet_legacy) in
  match v with
  | Some (?r, ?dev') =>
      assert (R : returnsD
                    (rshim_pcie_write bluefield_h
                       (script_ops never (reads_as 0)) 1001 2
                       (RSH_BOOT_FIFO_DATA bluefield_h) 0xAABBCCDDEEFF0011)
                    quiet_legacy r (trace (pci dev')) dev')
        by (split; [vm_compute; reflexivity | repeat split; reflexivity]);
      pose proof (H script bluefield_h (script_ops never (reads_as 0))
                    1001%nat quiet_legacy 2 0xAABBCCDDEEFF0011
                    r (trace (pci dev')) dev' eq_refl R) as I
  end.
  vm_compute in I.
  repeat (destruct I as [I|I]; [discriminate I|]). exact I.
Qed.

(** * The write counter (C5, C10) *)

Lemma run_calls_app {hw} K (ops : pci_ops hw) fuel cs c dev :
  run_calls K ops fuel (cs ++ [c]) dev =
  match run_calls K ops fuel cs dev with
  | Some dev' => do_call K ops fuel c dev'
  | None => None
  end.
Proof.
  revert dev. induction cs as [|c0 cs IH]; intros dev; cbn.
  - now destruct (do_call K ops fuel c dev).
  - destruct (do_call K ops fuel c0 dev); [apply IH | reflexivity].
Qed.

Lemma writes_since_read_app cs c :
  writes_since_read (cs ++ [c]) =
  match c with
  | BackendRead _ _ => 0%nat
  | BackendWrite _ _ _ => S (writes_since_read cs)
  end.
Proof. unfold writes_since_read. now rewrite fold_left_app. Qed.

Lemma next_count_after id n :
  next_count id (count_after id n) = count_after id (S n).
Proof.
  unfold next_count, count_after, u8.
  destruct (id =? BLUEFIELD1_DEVICE_ID); [|reflexivity].
  destruct n as [|m].
  - reflexivity.
  - rewrite Nat2Z.inj_succ.
    assert (H := Z.mod_pos_bound (Z.of_nat m) 7 ltac:(lia)).
    destruct (Z.of_nat m mod 7 + 1 =? 7) eqn:E.
    + apply Z.eqb_eq in E.
      assert (Z.succ (Z.of_nat m) mod 7 = 0).
      { rewrite Z.mod_eq in * by lia.
        assert (Z.succ (Z.of_nat m) / 7 = Z.of_nat m / 7 + 1).
        { symmetry. apply Z.div_unique with (r := 0); lia. }
        lia. }
      rewrite H0. reflexivity.
    + apply Z.eqb_neq in E.
      assert (Z.succ (Z.of_nat m) mod 7 = Z.of_nat m mod 7 + 1).
      { symmetry.
        apply Z.mod_unique with (q := Z.of_nat m / 7); [lia|].
        rewrite Z.mod_eq by lia. lia. }
      rewrite H0. rewrite Z.mod_small; lia.
Qed.

Lemma drains_count_after id n :
  drains id (count_after id n) = drain_due id n.
Proof.
  unfold drains, drain_due, count_after.
  destruct (id =? BLUEFIELD1_DEVICE_ID); [|reflexivity]. cbn [andb].
  destruct n as [|m]; [reflexivity|].
  rewrite Nat2Z.inj_succ.
  assert (H := Z.mod_pos_bound (Z.of_nat m) 7 ltac:(lia)).
  assert (L : (0 <? Z.succ (Z.of_nat m)) = true) by (apply Z.ltb_lt; lia).
  rewrite L. cbn [andb].
  destruct (Z.of_nat m mod 7 + 1 =? 7) eqn:E.
  - apply Z.eqb_eq in E. symmetry. apply Z.eqb_eq.
    rewrite Z.mod_eq in * by lia.
    assert (Z.succ (Z.of_nat m) / 7 = Z.of_nat m / 7 + 1).
    { symmetry. apply Z.div_unique with (r := 0); lia. }
    lia.
  - apply Z.eqb_neq in E. symmetry. apply Z.eqb_neq.
    assert (Z.succ (Z.of_nat m) mod 7 = Z.of_nat m mod 7 + 1).
    { symmetry.
      apply Z.mod_unique with (q := Z.of_nat m / 7); [lia|].
      rewrite Z.mod_eq by lia. lia. }
    lia.
Qed.

Lemma count_after_range id n : 0 <= count_after id n <= 7.
Proof.
  unfold count_after. destruct (id =? BLUEFIELD1_DEVICE_ID); [|lia].
  destruct n as [|m]; [lia|].
  assert (H := Z.mod_pos_bound (Z.of_nat m) 7 ltac:(lia)). lia.
Qed.

Section CounterSpecs.

Variable K : rshim_h.
Variable hw : Type.
Variable ops : pci_ops hw.
Variable fuel : nat.
Hypothesis Hcnt : 0 <= LOCK_RETRY_CNT K < 2 ^ 31 - 1.
Hypothesis Hfuel : (Z.to_nat (LOCK_RETRY_CNT K) < fuel)%nat.

(** Every sequence of calls on a probed device runs to its end, with
    [has_rshim] still set and the counter a function of the number of
    writes since the last read. *)
Lemma run_calls_state (p : pci_dev hw) (cs : list call) :
  exists dev,
    run_calls K ops fuel cs (rshim_pcie_probe p) = Some dev
    /\ has_rshim dev = true
    /\ device_id (pci dev) = device_id p
    /\ write_count dev = count_after (device_id p) (writes_since_read cs).
Proof.
  induction cs as [|c cs IH] using rev_ind.
  - exists (rshim_pcie_probe p). cbn. repeat split.
    unfold count_after. now destruct (device_id p =? BLUEFIELD1_DEVICE_ID).
  - destruct IH as (dev & E & Hr & Hid & Hc).
    rewrite run_calls_app, E, writes_since_read_app.
    destruct c as [chan addr | chan addr value]; cbn [do_call].
    + destruct (rshim_pcie_read_spec K hw ops fuel Hcnt Hfuel chan addr dev)
        as (r & t & dev' & (E1 & H1 & H2 & H3) & S).
      rewrite Hr in S. destruct S as (W & _).
      rewrite E1. exists dev'. split; [reflexivity|].
      split; [congruence|]. split; [congruence|].
      rewrite W. unfold count_after.
      now destruct (device_id p =? BLUEFIELD1_DEVICE_ID).
    + destruct (rshim_pcie_write_spec K hw ops fuel Hcnt Hfuel
                  chan addr value dev)
        as (r & t & dev' & (E1 & H1 & H2 & H3) & S).
      rewrite Hr in S. destruct S as (W & _).
      rewrite E1. exists dev'. split; [reflexivity|].
      split; [congruence|]. split; [congruence|].
      rewrite W, Hid, Hc. apply next_count_after.
Qed.

End CounterSpecs.

(** C5: in every sequence of dispatcher calls on a probed device, every
    read resets the write counter to zero; on the legacy revision the
    write that follows exactly 7 writes without a read in between first
    performs a drain read of the scratch register and then issues its own
    write, while after fewer than 7 it does not; on the newer revision no
    write performs a drain read. *)
Theorem write_throttle_every_seven :
  forall hw (K : rshim_h) (ops : pci_ops hw) (fuel : nat),
    0 <= LOCK_RETRY_CNT K < 2 ^ 31 - 1 ->
    (Z.to_nat (LOCK_RETRY_CNT K) < fuel)%nat ->
    forall (p : pci_dev hw) (cs : list call),
      throttled K ops fuel p cs
      /\ drain_due BLUEFIELD1_DEVICE_ID 7 = true
      /\ (forall n, (n < 7)%nat -> drain_due BLUEFIELD1_DEVICE_ID n = false)
      /\ (forall n, drain_due BLUEFIELD2_DEVICE_ID n = false).
Proof.
  intros hw K ops fuel Hcnt Hfuel p cs. split; [|split; [|split]].
  - destruct (run_calls_state K hw ops fuel Hcnt Hfuel p cs)
      as (dev & E & Hr & Hid & Hc).
    exists dev. split; [exact E|]. split.
    + intros chan addr.
      destruct (rshim_pcie_read_spec K hw ops fuel Hcnt Hfuel chan addr dev)
        as (r & t & dev' & R & S).
      rewrite Hr in S. exists r, t, dev'. split; [exact R|]. apply S.
    + intros chan addr value.
      destruct (rshim_pcie_write_spec K hw ops fuel Hcnt Hfuel
                  chan addr value dev) as (r & t & dev' & R & S).
      rewrite Hr in S. destruct S as (_ & S).
      exists r, t, dev'. split; [exact R|].
      now rewrite S, Hid, Hc, drains_count_after.
  - reflexivity.
  - intros n Hn. do 7 (destruct n as [|n]; [reflexivity|]). lia.
  - reflexivity.
Qed.

Lemma write_throttle_every_seven_witness :
  (0 <= LOCK_RETRY_CNT bluefield_h < 2 ^ 31 - 1)
  /\ (Z.to_nat (LOCK_RETRY_CNT bluefield_h) < 1001)%nat
  /\ throttled bluefield_h (script_ops never (reads_as 0)) 1001
       (script_dev BLUEFIELD1_DEVICE_ID) seven_writes
  /\ drain_due BLUEFIELD1_DEVICE_ID 7 = true
  /\ (forall n, (n < 7)%nat -> drain_due BLUEFIELD1_DEVICE_ID n = false)
  /\ (forall n, drain_due BLUEFIELD2_DEVICE_ID n = false).
Proof.
  assert (H1 : 0 <= LOCK_RETRY_CNT bluefield_h < 2 ^ 31 - 1)
    by (cbn; lia).
  assert (H2 : (Z.to_nat (LOCK_RETRY_CNT bluefield_h) < 1001)%nat)
    by (apply Nat.ltb_lt; vm_compute; reflexivity).
  split; [exact H1|]. split; [exact H2|].
  exact (write_throttle_every_seven script bluefield_h
           (script_ops never (reads_as 0)) 1001 H1 H2
           (script_dev BLUEFIELD1_DEVICE_ID) seven_writes).
Defined.

(** The eighth write of that run: the drain read of the scratch
    register comes before the widget write. *)
Example eighth_write_drains :
  exists dev7 dev8,
    run_calls bluefield_h (script_ops never (reads_as 0)) 1001 seven_writes
      quiet_legacy = Some dev7
    /\ write_count dev7 = 7
    /\ rshim_pcie_write bluefield_h (script_ops never (reads_as 0)) 1001
         1 0x100 8 dev7 = Some (Good tt, dev8)
    /\ write_count dev8 = 1
    /\ skipn (length (from_layer 5 (trace (pci dev7))))
         (from_layer 5 (trace (pci dev8))) =
       [Call f_rshim_pcie_write [1; 0x100; 8];
        Call f_rshim_pcie_read [1; 0x20];
        Call f_rshim_byte_acc_read [0x10020];
        Call f_rshim_byte_acc_write [0x10100; 8]].
Proof.
  eexists _, _. split; [vm_compute; reflexivity|].
  split; [reflexivity|]. split; [vm_compute; reflexivity|].
  split; reflexivity.
Qed.

(** C10: after every sequence of dispatcher calls on a probed device the
    write counter is between 0 and 7.  Every read sets it to 0; a legacy
    write increments it when it is below 7 and otherwise increments the 0
    the drain read has left; any other revision never changes it.  The
    [u8] increment therefore never wraps. *)
Theorem write_count_in_range :
  forall hw (K : rshim_h) (ops : pci_ops hw) (fuel : nat),
    0 <= LOCK_RETRY_CNT K < 2 ^ 31 - 1 ->
    (Z.to_nat (LOCK_RETRY_CNT K) < fuel)%nat ->
    forall (p : pci_dev hw) (cs : list call),
      counter_bounded K ops fuel p cs.
Proof.
  intros hw K ops fuel Hcnt Hfuel p cs.
  destruct (run_calls_state K hw ops fuel Hcnt Hfuel p cs)
    as (dev & E & Hr & Hid & Hc).
  assert (B := count_after_range (device_id p) (writes_since_read cs)).
  exists dev. split; [exact E|]. split; [now rewrite Hc|]. split; [|split].
  - intros N. rewrite Hc. unfold count_after.
    apply Z.eqb_neq in N. now rewrite N.
  - intros chan addr.
    destruct (rshim_pcie_read_spec K hw ops fuel Hcnt Hfuel chan addr dev)
      as (r & t & dev' & R & S).
    rewrite Hr in S. exists r, t, dev'. split; [exact R|]. apply S.
  - intros chan addr value.
    destruct (rshim_pcie_write_spec K hw ops fuel Hcnt Hfuel
                chan addr value dev) as (r & t & dev' & R & S).
    rewrite Hr in S. destruct S as (S & _).
    exists r, t, dev'. split; [exact R|].
    rewrite S, Hid. unfold next_count, u8.
    destruct (device_id p =? BLUEFIELD1_DEVICE_ID); [|reflexivity].
    rewrite Hc in *.
    destruct (count_after (device_id p) (writes_since_read cs) =? 7);
      rewrite Z.mod_small; lia.
Qed.

Lemma write_count_in_range_witness :
  (0 <= LOCK_RETRY_CNT bluefield_h < 2 ^ 31 - 1)
  /\ (Z.to_nat (LOCK_RETRY_CNT bluefield_h) < 1001)%nat
  /\ counter_bounded bluefield_h (script_ops never (reads_as 0)) 1001
       (script_dev BLUEFIELD1_DEVICE_ID) seven_writes.
Proof.
  assert (H1 : 0 <= LOCK_RETRY_CNT bluefield_h < 2 ^ 31 - 1)
    by (cbn; lia).
  assert (H2 : (Z.to_nat (LOCK_RETRY_CNT bluefield_h) < 1001)%nat)
    by (apply Nat.ltb_lt; vm_compute; reflexivity).
  split; [exact H1|]. split; [exact H2|].
  exact (write_count_in_range script bluefield_h
           (script_ops never (reads_as 0)) 1001 H1 H2
           (script_dev BLUEFIELD1_DEVICE_ID) seven_writes).
Defined.

(** * The simulated hardware register file *)

Example bluefield_h_sane : sane_rshim_h bluefield_h = true.
Proof. reflexivity. Qed.

Lemma bytes_of x :
  0 <= x < 2 ^ 32 ->
  exists b0 b1 b2 b3,
    0 <= b0 < 256 /\ 0 <= b1 < 256 /\ 0 <= b2 < 256 /\ 0 <= b3 < 256
    /\ x = b0 + 256 * b1 + 65536 * b2 + 16777216 * b3.
Proof.
  intros H. change (2 ^ 32) with 4294967296 in H.
  pose proof (Z.div_mod x 256 ltac:(lia)) as E0.
  pose proof (Z.mod_pos_bound x 256 ltac:(lia)) as B0.
  pose proof (Z.div_mod (x / 256) 256 ltac:(lia)) as E1.
  pose proof (Z.mod_pos_bound (x / 256) 256 ltac:(lia)) as B1.
  pose proof (Z.div_mod (x / 256 / 256) 256 ltac:(lia)) as E2.
  pose proof (Z.mod_pos_bound (x / 256 / 256) 256 ltac:(lia)) as B2.
  exists (x mod 256), (x / 256 mod 256), (x / 256 / 256 mod 256),
    (x / 256 / 256 / 256).
  repeat split; try lia.
Qed.

Lemma htonl_bytes b0 b1 b2 b3 :
  0 <= b0 < 256 -> 0 <= b1 < 256 -> 0 <= b2 < 256 -> 0 <= b3 < 256 ->
  htonl (b0 + 256 * b1 + 65536 * b2 + 16777216 * b3)
  = b3 + 256 * b2 + 65536 * b1 + 16777216 * b0.
Proof.
  intros H0 H1 H2 H3. unfold htonl.
  change (2 ^ 8) with 256. change (2 ^ 16) with 65536.
  change (2 ^ 24) with 16777216.
  set (x := b0 + 256 * b1 + 65536 * b2 + 16777216 * b3).
  assert (E0 : x mod 256 = b0).
  { symmetry. apply Z.mod_unique with (q := b1 + 256 * b2 + 65536 * b3); lia. }
  assert (D1 : x / 256 = b1 + 256 * b2 + 65536 * b3).
  { symmetry. apply Z.div_unique with (r := b0); lia. }
  assert (E1 : x / 256 mod 256 = b1).
  { rewrite D1. symmetry. apply Z.mod_unique with (q := b2 + 256 * b3); lia. }
  assert (D2 : x / 65536 = b2 + 256 * b3).
  { symmetry. apply Z.div_unique with (r := b0 + 256 * b1); lia. }
  assert (E2 : x / 65536 mod 256 = b2).
  { rewrite D2. symmetry. apply Z.mod_unique with (q := b3); lia. }
  assert (D3 : x / 16777216 = b3).
  { symmetry. apply Z.div_unique with (r := b0 + 256 * b1 + 65536 * b2); lia. }
  assert (E3 : x / 16777216 mod 256 = b3).
  { rewrite D3. apply Z.mod_small; lia. }
  rewrite E0, E1, E2, E3. lia.
Qed.

Lemma htonl_involutive x : 0 <= x < 2 ^ 32 -> htonl (htonl x) = x.
Proof.
  intros H. destruct (bytes_of x H) as (b0 & b1 & b2 & b3 & H0 & H1 & H2 & H3 & ->).
  rewrite htonl_bytes by assumption.
  rewrite htonl_bytes by assumption. lia.
Qed.

Lemma htonl_range x : 0 <= x < 2 ^ 32 -> 0 <= htonl x < 2 ^ 32.
Proof.
  intros H.
  destruct (bytes_of x H) as (b0 & b1 & b2 & b3 & H0 & H1 & H2 & H3 & ->).
  rewrite htonl_bytes by assumption.
  change (2 ^ 32) with 4294967296. lia.
Qed.

Lemma u32_range x : 0 <= u32 x < 2 ^ 32.
Proof. unfold u32. apply Z.mod_pos_bound. lia. Qed.

Lemma u32_u32 x : u32 (u32 x) = u32 x.
Proof. apply u32_small, u32_range. Qed.

Lemma lor_even_1 x : 0 <= x -> Z.odd x = false -> Z.lor x 1 = x + 1.
Proof.
  intros H O. destruct x as [|p|p]; [reflexivity| |lia].
  destruct p; cbn in O; try discriminate. reflexivity.
Qed.

Lemma land_ffff x : 0 <= x < 0x10000 -> Z.land x 0xffff = x.
Proof.
  intros H. change 0xffff with (Z.ones 16).
  rewrite Z.land_ones by lia. apply Z.mod_small. exact H.
Qed.

Lemma halves_join v :
  0 <= v < 2 ^ 64 ->
  Z.lor (u64 (u32 (u32 v)))
        (u64 (Z.shiftl (u64 (u32 (u32 (Z.shiftr v 32)))) 32)) = v.
Proof.
  intros H. unfold u32, u64.
  rewrite !Z.shiftr_div_pow2, !Z.shiftl_mul_pow2 by lia.
  assert (B := Z.mod_pos_bound v (2 ^ 32) ltac:(lia)).
  assert (D : 0 <= v / 2 ^ 32 < 2 ^ 32).
  { split; [apply Z.div_pos; lia|].
    apply Z.div_lt_upper_bound; [lia|].
    change (2 ^ 32 * 2 ^ 32) with (2 ^ 64). lia. }
  rewrite (Z.mod_small (v mod 2 ^ 32)) by lia.
  rewrite (Z.mod_small (v mod 2 ^ 32)) by (change (2^64) with (2^32 * 2^32); nia).
  rewrite !(Z.mod_small (v / 2 ^ 32)) by (try lia; change (2^64) with (2^32 * 2^32); nia).
  rewrite (Z.mod_small (v / 2 ^ 32 * 2 ^ 32))
    by (change (2^64) with (2^32 * 2^32); nia).
  rewrite <- Z.shiftl_mul_pow2 by lia.
  rewrite <- Z.land_ones by lia.
  rewrite <- (Z.shiftr_div_pow2 v 32) by lia.
  apply Z.bits_inj'. intros n Hn.
  rewrite Z.lor_spec, Z.land_spec, Z.shiftl_spec by lia.
  destruct (Z.ltb_spec n 32).
  - rewrite Z.ones_spec_low by lia.
    rewrite (Z.testbit_neg_r _ (n - 32)) by lia.
    now rewrite andb_true_r, orb_false_r.
  - rewrite Z.ones_spec_high by lia.
    rewrite Z.shiftr_spec by lia.
    rewrite andb_false_r. cbn. f_equal. lia.
Qed.

Lemma joined_halves v :
  0 <= v < 2 ^ 64 -> joined (u32 v + 2 ^ 32 * u32 (Z.shiftr v 32)) = v.
Proof.
  intros H. unfold joined.
  assert (A := u32_range v). assert (B := u32_range (Z.shiftr v 32)).
  assert (E1 : (u32 v + 2 ^ 32 * u32 (Z.shiftr v 32)) mod 2 ^ 32 = u32 v).
  { symmetry. apply Z.mod_unique with (q := u32 (Z.shiftr v 32)); lia. }
  assert (E2 : (u32 v + 2 ^ 32 * u32 (Z.shiftr v 32)) / 2 ^ 32
               = u32 (Z.shiftr v 32)).
  { symmetry. apply Z.div_unique with (r := u32 v); lia. }
  rewrite E1, E2.
  change (u32 (Z.shiftr v 32) mod 2 ^ 32) with (u32 (u32 (Z.shiftr v 32))).
  rewrite !u32_u32.
  rewrite <- (u32_u32 v), <- (u32_u32 (Z.shiftr v 32)).
  now apply halves_join.
Qed.

(** ** The driver on the simulated device *)

Section OnTheSimulator.

Variable K : rshim_h.
Variable fuel : nat.
Hypothesis Hsane : sane_rshim_h K = true.
Hypothesis Hfuel : (1 <= fuel)%nat.
Local Abbreviation ops := (sim_ops K).
Local Abbreviation wbase := (widget_base K).

Lemma sim_cap_write off v (d : pci_dev sim) :
  0 <= off < 2 ^ 32 -> Z.odd off = false ->
  wp (pci_cap_write ops off v) d
     (fun r _ d' => r = Good tt
                    /\ bus d' = cr_write K off v (set_cap_data v (bus d))).
Proof.
  intros Hoff Hodd. unfold pci_cap_write.
  apply wp_bind, wp_emit_bus. intros d0 I0 B0.
  apply wp_bind, wp_pci_write_long. intros d1 I1 B1 rc.
  subst rc. cbn in B1 |- *.
  apply wp_bind, wp_pci_write_long. intros d2 I2 B2 rc.
  subst rc. rewrite B1 in *. cbn in B2 |- *.
  rewrite (u32_small off) in * by exact Hoff. rewrite Hodd in *.
  cbn in B2 |- *. apply wp_ret. split; [reflexivity|].
  now rewrite B2, B0.
Qed.

Lemma sim_cap_read off (d : pci_dev sim) :
  0 <= off < 2 ^ 32 - 1 -> Z.odd off = false ->
  wp (pci_cap_read ops off) d
     (fun r _ d' =>
        r = Good (u32 (fst (cr_read K off (bus d))))
        /\ bus d' = set_cap_data (u32 (fst (cr_read K off (bus d))))
                      (snd (cr_read K off (bus d)))).
Proof.
  intros Hoff Hodd. unfold pci_cap_read.
  apply wp_bind, wp_emit_bus. intros d0 I0 B0.
  apply wp_bind, wp_pci_write_long. intros d1 I1 B1 rc.
  subst rc. unfold MELLANOX_CAP_READ in *.
  rewrite lor_even_1 in * by (auto; lia).
  rewrite (u32_small (off + 1)) in * by lia.
  assert (O : Z.odd (off + 1) = true).
  { rewrite Z.add_1_r, Z.odd_succ. rewrite <- Z.negb_odd. now rewrite Hodd. }
  cbn in B1 |- *. rewrite O in *.
  replace (off + 1 - 1) with off in * by lia.
  rewrite B0 in *.
  destruct (cr_read K off (bus d)) as [x s'] eqn:E. cbn in B1 |- *.
  apply wp_bind, wp_pci_read_long. intros d2 I2 B2 data ok.
  subst data ok. rewrite B1 in *. cbn in B2 |- *.
  apply wp_ret. split; [reflexivity|]. now rewrite B2.
Qed.

Lemma sane_cnt : 1 <= LOCK_RETRY_CNT K < 2 ^ 31 - 1.
Proof.
  unfold sane_rshim_h in Hsane.
  repeat (apply andb_prop in Hsane; destruct Hsane as [Hsane ?]).
  apply Z.leb_le in Hsane.
  match goal with H : (_ <? 2 ^ 31 - 1) = true |- _ => apply Z.ltb_lt in H end.
  lia.
Qed.

Lemma sane_base : 0 <= wbase /\ wbase + 0x10000 <= 2 ^ 32.
Proof.
  unfold sane_rshim_h in Hsane.
  repeat (apply andb_prop in Hsane; destruct Hsane as [Hsane ?]).
  repeat match goal with
         | H : (_ <=? _) = true |- _ => apply Z.leb_le in H
         end.
  lia.
Qed.

Lemma sane_reg reg :
  is_widget_reg K reg ->
  0 <= reg < 0x10000 /\ Z.odd reg = false
  /\ (reg =? RSH_BOOT_FIFO_DATA K) = false.
Proof.
  intros Hin.
  assert (F : forallb (widget_register K)
                [RSH_BYTE_ACC_ADDR K; RSH_BYTE_ACC_CTL K; RSH_BYTE_ACC_WDAT K;
                 RSH_BYTE_ACC_RDAT K; RSH_BYTE_ACC_INTERLOCK K] = true).
  { unfold sane_rshim_h in Hsane.
    repeat (apply andb_prop in Hsane; destruct Hsane as [Hsane ?]).
    assumption. }
  rewrite forallb_forall in F. specialize (F reg Hin).
  unfold widget_register in F.
  repeat (apply andb_prop in F; destruct F as [F ?]).
  apply Z.leb_le in F.
  match goal with H : (_ <? _) = true |- _ => apply Z.ltb_lt in H end.
  match goal with H : negb _ = true |- _ => apply negb_true_iff in H end.
  match goal with H : Z.even _ = true |- _ =>
    rewrite <- Z.negb_odd in H; apply negb_true_iff in H end.
  auto.
Qed.

Lemma sane_distinct :
  all_distinct
    [RSH_BYTE_ACC_ADDR K; RSH_BYTE_ACC_CTL K; RSH_BYTE_ACC_WDAT K;
     RSH_BYTE_ACC_RDAT K; RSH_BYTE_ACC_INTERLOCK K] = true.
Proof.
  unfold sane_rshim_h in Hsane.
  repeat (apply andb_prop in Hsane; destruct Hsane as [Hsane ?]).
  assumption.
Qed.

Lemma sane_ctl :
  0 <= RSH_BYTE_ACC_SIZE_4BYTE K < 2 ^ 32
  /\ 0 <= Z.lor (RSH_BYTE_ACC_READ_TRIGGER K) (RSH_BYTE_ACC_SIZE_4BYTE K)
       < 2 ^ 32
  /\ (Z.land (RSH_BYTE_ACC_SIZE_4BYTE K) (RSH_BYTE_ACC_READ_TRIGGER K) =? 0)
     = true
  /\ (Z.land (Z.lor (RSH_BYTE_ACC_READ_TRIGGER K)
                (RSH_BYTE_ACC_SIZE_4BYTE K))
        (RSH_BYTE_ACC_READ_TRIGGER K) =? 0) = false.
Proof.
  unfold sane_rshim_h in Hsane.
  repeat (apply andb_prop in Hsane; destruct Hsane as [Hsane ?]).
  repeat match goal with
         | H : (_ <=? _) = true |- _ => apply Z.leb_le in H
         | H : (_ <? _) = true |- _ => apply Z.ltb_lt in H
         | H : negb _ = true |- _ => apply negb_true_iff in H
         end.
  repeat split; auto; lia.
Qed.
Arguments rsh_write32 : simpl never.
Arguments rsh_read32 : simpl never.
Arguments htonl : simpl never.
Arguments ntohl : simpl never.
Arguments u32 : simpl never.

Lemma in_window_reg reg :
  0 <= reg < 0x10000 ->
  in_window (reg + CRSPACE_RSH_CHANNEL1_BASE) = true.
Proof.
  intros H. unfold in_window, CRSPACE_RSH_CHANNEL1_BASE.
  apply andb_true_intro. split; [apply Z.leb_le | apply Z.ltb_lt]; lia.
Qed.

Lemma cr_read_lock s : cr_read K TRIO_CR_GW_LOCK s = (gw_lock s, s).
Proof. reflexivity. Qed.

Lemma cr_read_data s : cr_read K TRIO_CR_GW_DATA_LOWER s = (gw_data s, s).
Proof. reflexivity. Qed.

Lemma cr_read_window reg s :
  0 <= reg < 0x10000 ->
  cr_read K (reg + CRSPACE_RSH_CHANNEL1_BASE) s =
  (fst (rsh_read32 K (reg + wbase) (rsh s)),
   with_rsh s (snd (rsh_read32 K (reg + wbase) (rsh s)))).
Proof.
  intros H. unfold cr_read. rewrite in_window_reg by exact H.
  replace (reg + CRSPACE_RSH_CHANNEL1_BASE - CRSPACE_RSH_CHANNEL1_BASE + wbase)
    with (reg + wbase) by lia.
  now destruct (rsh_read32 K (reg + wbase) (rsh s)).
Qed.

Lemma cr_write_window reg v s :
  0 <= reg < 0x10000 ->
  cr_write K (reg + CRSPACE_RSH_CHANNEL1_BASE) v s =
  with_rsh s (rsh_write32 K (reg + wbase) v (rsh s)).
Proof.
  intros H. unfold cr_write. rewrite in_window_reg by exact H.
  now replace (reg + CRSPACE_RSH_CHANNEL1_BASE - CRSPACE_RSH_CHANNEL1_BASE
               + wbase) with (reg + wbase) by lia.
Qed.

(** The lock is free: the acquire takes it at the first poll. *)
Lemma sim_lock_acquire (d : pci_dev sim) :
  gw_lock (bus d) = 0 ->
  wp (trio_cr_gw_lock_acquire K ops fuel) d
     (fun r _ d' =>
        r = Good tt
        /\ gw_lock (bus d') = TRIO_CR_GW_LOCK_ACQUIRED
        /\ rsh (bus d') = rsh (bus d)).
Proof.
  intros L. unfold trio_cr_gw_lock_acquire.
  apply wp_bind, wp_emit_bus. intros d0 I0 B0.
  replace fuel with (S (pred fuel)) by lia. cbn [trio_cr_gw_lock_wait].
  apply wp_bind_rc, wp_bind_rc.
  eapply wp_conseq;
    [apply sim_cap_read; [unfold TRIO_CR_GW_LOCK; lia | reflexivity]|].
  intros r t d1 I1 (-> & B1).
  rewrite B0, cr_read_lock in *. cbn [fst snd] in *. rewrite L in *.
  assert (C := sane_cnt).
  rewrite (u32_small (0 + 1)), (u32_small (LOCK_RETRY_CNT K))
    by (change (2 ^ 32) with 4294967296; lia).
  destruct (0 + 1 >? LOCK_RETRY_CNT K) eqn:E; [lia|].
  change (u32 0) with 0 in *. cbn [Z.land Z.eqb].
  apply wp_ret.
  eapply wp_conseq;
    [apply sim_cap_write; [unfold TRIO_CR_GW_LOCK; lia | reflexivity]|].
  intros r t2 d2 I2 (-> & B2). rewrite B2, B1. cbn. auto.
Qed.

Lemma sim_lock_release (d : pci_dev sim) :
  wp (trio_cr_gw_lock_release ops) d
     (fun r _ d' =>
        r = Good tt
        /\ gw_lock (bus d') = 0
        /\ rsh (bus d') = rsh (bus d)).
Proof.
  unfold trio_cr_gw_lock_release.
  apply wp_bind, wp_emit_bus. intros d0 I0 B0.
  eapply wp_conseq;
    [apply sim_cap_write; [unfold TRIO_CR_GW_LOCK; lia | reflexivity]|].
  intros r t2 d2 I2 (-> & B2). rewrite B2, B0. cbn. auto.
Qed.

Ltac gw_cap_write :=
  apply wp_bind_rc; eapply wp_conseq;
  [apply sim_cap_write;
   [unfold TRIO_CR_GW_LOCK, TRIO_CR_GW_DATA_LOWER, TRIO_CR_GW_CTL,
      TRIO_CR_GW_ADDR_LOWER; lia | reflexivity]|];
  let B := fresh "B" in
  intros ? ? ? ? (-> & B); cbn beta iota.

(** A 4-byte write to a register of the widget reaches the widget on
    both revisions and leaves the gateway lock free. *)
Lemma sim_gw_write reg v (d : pci_dev sim) :
  is_widget_reg K reg -> gw_lock (bus d) = 0 -> 0 <= v < 2 ^ 32 ->
  wp (crspace_rsh_gw_write K ops fuel reg v) d
     (fun r _ d' =>
        r = Good tt
        /\ gw_lock (bus d') = 0
        /\ rsh (bus d') = rsh_write32 K (reg + wbase) v (rsh (bus d))).
Proof.
  intros Hreg L Hv. destruct (sane_reg reg Hreg) as (R1 & R2 & R3).
  destruct sane_base as (W1 & W2).
  unfold crspace_rsh_gw_write.
  apply wp_bind, wp_emit_bus. intros d0 I0 B0.
  apply wp_bind, wp_get_device_id.
  rewrite (land_ffff reg) by exact R1. rewrite R3.
  destruct (device_id d0 =? BLUEFIELD2_DEVICE_ID).
  - eapply wp_conseq; [apply sim_cap_write|].
    + unfold CRSPACE_RSH_CHANNEL1_BASE. lia.
    + rewrite Z.odd_add, R2. reflexivity.
    + intros r t d1 I1 (-> & B1).
      rewrite B1, cr_write_window by exact R1. cbn. rewrite B0. auto.
  - apply wp_bind_rc. eapply wp_conseq;
      [apply sim_lock_acquire; now rewrite B0|].
    intros r t d1 I1 (-> & L1 & S1).
    gw_cap_write. gw_cap_write. gw_cap_write. gw_cap_write.
    apply wp_bind_rc. eapply wp_conseq; [apply sim_lock_release|].
    intros r t6 d6 I6 (-> & L6 & S6). apply wp_ret.
    split; [reflexivity|]. split; [exact L6|].
    rewrite S6, B3, B2, B1, B. cbn.
    change (RSH_CHANNEL_BASE K (RSHIM_CHANNEL K)) with wbase.
    rewrite (u32_small (reg + wbase)) by lia.
    unfold ntohl. rewrite htonl_involutive by exact Hv.
    now rewrite S1, B0.
Qed.

Lemma sim_gw_read reg (d : pci_dev sim) :
  is_widget_reg K reg -> gw_lock (bus d) = 0 ->
  wp (crspace_rsh_gw_read K ops fuel reg) d
     (fun r _ d' =>
        r = Good (u32 (fst (rsh_read32 K (reg + wbase) (rsh (bus d)))))
        /\ gw_lock (bus d') = 0
        /\ rsh (bus d') = snd (rsh_read32 K (reg + wbase) (rsh (bus d)))).
Proof.
  intros Hreg L. destruct (sane_reg reg Hreg) as (R1 & R2 & R3).
  destruct sane_base as (W1 & W2).
  unfold crspace_rsh_gw_read.
  apply wp_bind, wp_emit_bus. intros d0 I0 B0.
  apply wp_bind, wp_get_device_id.
  rewrite (land_ffff reg) by exact R1.
  destruct (device_id d0 =? BLUEFIELD2_DEVICE_ID).
  - eapply wp_conseq; [apply sim_cap_read|].
    + unfold CRSPACE_RSH_CHANNEL1_BASE. lia.
    + rewrite Z.odd_add, R2. reflexivity.
    + intros r t d1 I1 (-> & B1).
      rewrite B1, cr_read_window by exact R1. cbn. rewrite B0. auto.
  - apply wp_bind_rc. eapply wp_conseq;
      [apply sim_lock_acquire; now rewrite B0|].
    intros r t d1 I1 (-> & L1 & S1).
    gw_cap_write. gw_cap_write. gw_cap_write.
    apply wp_bind_rc. eapply wp_conseq;
      [apply sim_cap_read; [unfold TRIO_CR_GW_DATA_LOWER; lia | reflexivity]|].
    intros r t5 d5 I5 (-> & B5). cbn beta iota.
    apply wp_bind_rc. eapply wp_conseq; [apply sim_lock_release|].
    intros r t6 d6 I6 (-> & L6 & S6). apply wp_ret.
    rewrite cr_read_data in *. cbn [fst snd] in *.
    rewrite B2, B1, B in *. cbn in B5 |- *.
    change (RSH_CHANNEL_BASE K (RSHIM_CHANNEL K)) with wbase in *.
    rewrite (u32_small (reg + wbase)) in * by lia.
    rewrite S1, B0 in *.
    destruct (rsh_read32 K (reg + wbase) (rsh (bus d))) as [x w] eqn:E.
    cbn in B5 |- *.
    rewrite (u32_small (htonl (u32 x))) in *
      by (apply htonl_range, u32_range).
    unfold ntohl. rewrite htonl_involutive by apply u32_range.
    split; [reflexivity|]. split; [exact L6|].
    rewrite S6, B5. reflexivity.
Qed.

Lemma sane_distinct_facts :
  RSH_BYTE_ACC_ADDR K <> RSH_BYTE_ACC_CTL K
  /\ RSH_BYTE_ACC_ADDR K <> RSH_BYTE_ACC_WDAT K
  /\ RSH_BYTE_ACC_ADDR K <> RSH_BYTE_ACC_RDAT K
  /\ RSH_BYTE_ACC_ADDR K <> RSH_BYTE_ACC_INTERLOCK K
  /\ RSH_BYTE_ACC_CTL K <> RSH_BYTE_ACC_WDAT K
  /\ RSH_BYTE_ACC_CTL K <> RSH_BYTE_ACC_RDAT K
  /\ RSH_BYTE_ACC_CTL K <> RSH_BYTE_ACC_INTERLOCK K
  /\ RSH_BYTE_ACC_WDAT K <> RSH_BYTE_ACC_RDAT K
  /\ RSH_BYTE_ACC_WDAT K <> RSH_BYTE_ACC_INTERLOCK K
  /\ RSH_BYTE_ACC_RDAT K <> RSH_BYTE_ACC_INTERLOCK K.
Proof.
  assert (H := sane_distinct). cbn in H.
  repeat match goal with
         | H : _ && _ = true |- _ => apply andb_prop in H; destruct H
         end.
  repeat match goal with
         | H : negb (_ =? _) = true |- _ =>
             apply negb_true_iff, Z.eqb_neq in H
         end.
  repeat split; assumption.
Qed.

(** Decides the comparisons of the simulator's address decoder. *)
Ltac decode :=
  repeat match goal with
    | |- context [?a + wbase =? ?b + wbase] =>
        let E := fresh in
        destruct (Z.eqb_spec (a + wbase) (b + wbase)) as [E|E];
        [try (exfalso; lia)|try (exfalso; apply E; reflexivity)]
    end.

Lemma rsh_read32_ctl w :
  rsh_read32 K (RSH_BYTE_ACC_CTL K + wbase) w = (0, w).
Proof.
  destruct sane_distinct_facts as (D1 & D2 & D3 & D4 & D5 & D6 & D7 & D8 & D9 & D10).
  unfold rsh_read32. decode. reflexivity.
Qed.

Lemma rsh_read32_interlock w :
  rsh_read32 K (RSH_BYTE_ACC_INTERLOCK K + wbase) w = (1, w).
Proof.
  destruct sane_distinct_facts as (D1 & D2 & D3 & D4 & D5 & D6 & D7 & D8 & D9 & D10).
  unfold rsh_read32. decode. reflexivity.
Qed.

Lemma rsh_read32_rdat w :
  rsh_read32 K (RSH_BYTE_ACC_RDAT K + wbase) w =
  match acc_rbuf w with
  | x :: rest =>
      (x, {| acc_addr := acc_addr w; acc_wlow := acc_wlow w;
             acc_rbuf := rest; regs := regs w; boot_fifo := boot_fifo w |})
  | [] => (0, w)
  end.
Proof. unfold rsh_read32. decode. reflexivity. Qed.

Lemma rsh_write32_addr v w :
  rsh_write32 K (RSH_BYTE_ACC_ADDR K + wbase) v w =
  {| acc_addr := v; acc_wlow := acc_wlow w; acc_rbuf := acc_rbuf w;
     regs := regs w; boot_fifo := boot_fifo w |}.
Proof. unfold rsh_write32. decode. reflexivity. Qed.

Lemma rsh_write32_ctl v w :
  rsh_write32 K (RSH_BYTE_ACC_CTL K + wbase) v w =
  {| acc_addr := acc_addr w; acc_wlow := None;
     acc_rbuf :=
       if Z.land v (RSH_BYTE_ACC_READ_TRIGGER K) =? 0 then []
       else [regs w (acc_addr w) mod 2 ^ 32;
             regs w (acc_addr w) / 2 ^ 32 mod 2 ^ 32];
     regs := regs w; boot_fifo := boot_fifo w |}.
Proof.
  destruct sane_distinct_facts as (D1 & D2 & D3 & D4 & D5 & D6 & D7 & D8 & D9 & D10).
  unfold rsh_write32. decode. reflexivity.
Qed.

Lemma rsh_write32_wdat v w :
  rsh_write32 K (RSH_BYTE_ACC_WDAT K + wbase) v w =
  match acc_wlow w with
  | None =>
      {| acc_addr := acc_addr w; acc_wlow := Some v;
         acc_rbuf := acc_rbuf w; regs := regs w;
         boot_fifo := boot_fifo w |}
  | Some low =>
      {| acc_addr := acc_addr w; acc_wlow := None;
         acc_rbuf := acc_rbuf w;
         regs := set_regs (regs w) (acc_addr w) (low + 2 ^ 32 * v);
         boot_fifo := boot_fifo w |}
  end.
Proof.
  destruct sane_distinct_facts as (D1 & D2 & D3 & D4 & D5 & D6 & D7 & D8 & D9 & D10).
  unfold rsh_write32. decode. reflexivity.
Qed.

Lemma rsh_write32_interlock v w :
  rsh_write32 K (RSH_BYTE_ACC_INTERLOCK K + wbase) v w = w.
Proof.
  destruct sane_distinct_facts as (D1 & D2 & D3 & D4 & D5 & D6 & D7 & D8 & D9 & D10).
  unfold rsh_write32. decode. reflexivity.
Qed.

Lemma reg_addr : is_widget_reg K (RSH_BYTE_ACC_ADDR K).
Proof. unfold is_widget_reg. cbn. auto. Qed.

Lemma reg_ctl : is_widget_reg K (RSH_BYTE_ACC_CTL K).
Proof. unfold is_widget_reg. cbn. auto. Qed.

Lemma reg_wdat : is_widget_reg K (RSH_BYTE_ACC_WDAT K).
Proof. unfold is_widget_reg. cbn. auto. Qed.

Lemma reg_rdat : is_widget_reg K (RSH_BYTE_ACC_RDAT K).
Proof. unfold is_widget_reg. cbn. auto. Qed.

Lemma reg_interlock : is_widget_reg K (RSH_BYTE_ACC_INTERLOCK K).
Proof. unfold is_widget_reg. cbn. auto 6. Qed.

(** The pending bit is clear at the first poll. *)
Lemma sim_pending_wait (d : pci_dev sim) :
  gw_lock (bus d) = 0 ->
  wp (rshim_byte_acc_pending_wait K ops fuel) d
     (fun r _ d' =>
        r = Good tt /\ gw_lock (bus d') = 0 /\ rsh (bus d') = rsh (bus d)).
Proof.
  intros L. unfold rshim_byte_acc_pending_wait.
  apply wp_bind, wp_emit_bus. intros d0 I0 B0.
  assert (F : pending_wait_loop K ops fuel fuel 0
              = pending_wait_loop K ops fuel (S (pred fuel)) 0)
    by (f_equal; lia).
  rewrite F. cbn [pending_wait_loop].
  apply wp_bind_rc. eapply wp_conseq;
    [apply sim_gw_read; [apply reg_ctl | now rewrite B0]|].
  intros r t d1 I1 (-> & L1 & S1).
  rewrite rsh_read32_ctl in *. cbn [fst snd] in *.
  assert (C := sane_cnt).
  rewrite (u32_small (0 + 1)), (u32_small (LOCK_RETRY_CNT K))
    by (change (2 ^ 32) with 4294967296; lia).
  destruct (0 + 1 >? LOCK_RETRY_CNT K) eqn:E; [lia|].
  change (u32 0) with 0. cbn [Z.land Z.eqb].
  apply wp_ret. rewrite S1, B0. auto.
Qed.

(** The interlock is ready at the first poll. *)
Lemma sim_interlock_acquire (d : pci_dev sim) :
  gw_lock (bus d) = 0 ->
  wp (rshim_byte_acc_lock_acquire K ops fuel) d
     (fun r _ d' =>
        r = Good tt /\ gw_lock (bus d') = 0 /\ rsh (bus d') = rsh (bus d)).
Proof.
  intros L. unfold rshim_byte_acc_lock_acquire.
  apply wp_bind, wp_emit_bus. intros d0 I0 B0.
  assert (F : interlock_loop K ops fuel fuel 0
              = interlock_loop K ops fuel (S (pred fuel)) 0)
    by (f_equal; lia).
  rewrite F. cbn [interlock_loop].
  assert (C := sane_cnt).
  rewrite (s32_small (0 + 1)) by (change (2 ^ 31) with 2147483648; lia).
  destruct (0 + 1 >? LOCK_RETRY_CNT K) eqn:E; [lia|].
  apply wp_bind_rc. eapply wp_conseq;
    [apply sim_gw_read; [apply reg_interlock | now rewrite B0]|].
  intros r t d1 I1 (-> & L1 & S1).
  rewrite rsh_read32_interlock in *. cbn [fst snd] in *.
  change (u32 1) with 1. cbn [Z.land Z.eqb negb Pos.land].
  apply wp_ret. rewrite S1, B0. auto.
Qed.

Lemma sim_interlock_release (d : pci_dev sim) :
  gw_lock (bus d) = 0 ->
  wp (rshim_byte_acc_lock_release K ops fuel) d
     (fun r _ d' =>
        r = Good tt /\ gw_lock (bus d') = 0 /\ rsh (bus d') = rsh (bus d)).
Proof.
  intros L. unfold rshim_byte_acc_lock_release.
  apply wp_bind, wp_emit_bus. intros d0 I0 B0.
  eapply wp_conseq;
    [apply sim_gw_write; [apply reg_interlock | now rewrite B0 | lia]|].
  intros r t d1 I1 (-> & L1 & S1).
  rewrite rsh_write32_interlock in S1. rewrite S1, B0. auto.
Qed.

Ltac sim_write lem d I L S :=
  apply wp_bind_rc; eapply wp_conseq;
  [apply sim_gw_write;
   [apply lem | congruence | first [apply u32_range | assumption]]|];
  intros ? ? d I (-> & L & S); cbn beta iota.

Ltac sim_wait d I L S :=
  apply wp_bind_rc; eapply wp_conseq;
  [apply sim_pending_wait; congruence|];
  intros ? ? d I (-> & L & S); cbn beta iota.

Ltac sim_read lem d I L S :=
  apply wp_bind_rc; eapply wp_conseq;
  [apply sim_gw_read; [apply lem | congruence]|];
  intros ? ? d I (-> & L & S); cbn beta iota.

(** An 8-byte widget write stores the two halves of the value in the
    register at the target address. *)
Lemma sim_byte_acc_write a v (d : pci_dev sim) :
  gw_lock (bus d) = 0 ->
  wp (rshim_byte_acc_write K ops fuel a v) d
     (fun r _ d' =>
        r = Good tt
        /\ gw_lock (bus d') = 0
        /\ regs (rsh (bus d')) =
             set_regs (regs (rsh (bus d))) (u32 a)
               (u32 v + 2 ^ 32 * u32 (Z.shiftr v 32))).
Proof.
  intros L. destruct sane_ctl as (C1 & C2 & C3 & C4).
  apply Z.eqb_eq in C3.
  unfold rshim_byte_acc_write.
  apply wp_bind, wp_emit_bus. intros d0 I0 B0.
  apply wp_bind, wp_get_device_id.
  assert (wp (if device_id d0 =? BLUEFIELD2_DEVICE_ID
              then rshim_byte_acc_lock_acquire K ops fuel
              else ret (Good tt)) d0
            (fun r _ d' => r = Good tt /\ gw_lock (bus d') = 0
                           /\ rsh (bus d') = rsh (bus d))) as A.
  { destruct (device_id d0 =? BLUEFIELD2_DEVICE_ID).
    - eapply wp_conseq; [apply sim_interlock_acquire; congruence|].
      intros r t d1 I1 (-> & L1 & S1). rewrite S1, B0. auto.
    - apply wp_ret. rewrite B0. auto. }
  apply wp_bind_rc. eapply wp_conseq; [exact A|]. clear A.
  intros r t d1 I1 (-> & L1 & S1).
  sim_write reg_addr d2 I2 L2 S2.
  apply wp_bind. unfold byte_acc_write_body.
  sim_write reg_ctl d3 I3 L3 S3.
  sim_write reg_wdat d4 I4 L4 S4.
  sim_wait d5 I5 L5 S5.
  eapply wp_conseq;
    [apply sim_gw_write; [apply reg_wdat | congruence | apply u32_range]|].
  intros r t6 d6 I6 (-> & L6 & S6).
  assert (R : regs (rsh (bus d6)) =
              set_regs (regs (rsh (bus d))) (u32 a)
                (u32 v + 2 ^ 32 * u32 (Z.shiftr v 32))).
  { rewrite S6, S5, S4, S3, S2, S1.
    rewrite rsh_write32_addr, rsh_write32_ctl, !rsh_write32_wdat.
    cbn. reflexivity. }
  assert (I16 : device_id d6 = device_id d0) by congruence.
  destruct (device_id d0 =? BLUEFIELD2_DEVICE_ID).
  - eapply wp_conseq; [apply sim_interlock_release; congruence|].
    intros r t7 d7 I7 (-> & L7 & S7). rewrite S7. auto.
  - apply wp_ret. auto.
Qed.

(** An 8-byte widget read delivers the register at the target address
    and leaves the register file as it is. *)
Lemma sim_byte_acc_read a (d : pci_dev sim) :
  gw_lock (bus d) = 0 ->
  wp (rshim_byte_acc_read K ops fuel a) d
     (fun r _ d' =>
        r = (Good tt, Some (joined (regs (rsh (bus d)) (u32 a))))
        /\ gw_lock (bus d') = 0
        /\ regs (rsh (bus d')) = regs (rsh (bus d))).
Proof.
  intros L. destruct sane_ctl as (C1 & C2 & C3 & C4).
  unfold rshim_byte_acc_read.
  apply wp_bind, wp_emit_bus. intros d0 I0 B0.
  apply wp_bind. eapply wp_conseq; [apply sim_pending_wait; congruence|].
  intros r t1 d1 I1 (-> & L1 & S1). cbn beta iota.
  apply wp_bind, wp_get_device_id.
  assert (wp (if device_id d1 =? BLUEFIELD2_DEVICE_ID
              then rshim_byte_acc_lock_acquire K ops fuel
              else ret (Good tt)) d1
            (fun r _ d' => r = Good tt /\ gw_lock (bus d') = 0
                           /\ rsh (bus d') = rsh (bus d))) as A.
  { destruct (device_id d1 =? BLUEFIELD2_DEVICE_ID).
    - eapply wp_conseq; [apply sim_interlock_acquire; congruence|].
      intros r t d2 I2 (-> & L2 & S2). rewrite S2, S1, B0. auto.
    - apply wp_ret. rewrite S1, B0. auto. }
  apply wp_bind. eapply wp_conseq; [exact A|]. clear A.
  intros r t2 d2 I2 (-> & L2 & S2). cbn beta iota.
  apply wp_bind. unfold byte_acc_read_body.
  sim_write reg_addr d3 I3 L3 S3.
  sim_write reg_ctl d4 I4 L4 S4.
  sim_wait d5 I5 L5 S5.
  sim_read reg_rdat d6 I6 L6 S6.
  sim_wait d7 I7 L7 S7.
  sim_read reg_rdat d8 I8 L8 S8.
  apply wp_ret.
  rewrite S7 in *. rewrite S5, S4, S3, S2 in S6 |- *.
  rewrite rsh_write32_addr, rsh_write32_ctl in S6 |- *.
  rewrite C4 in S6 |- *. rewrite rsh_read32_rdat in S6 |- *.
  cbn in S6 |- *. rewrite S6 in *. rewrite rsh_read32_rdat in S8 |- *.
  cbn in S8 |- *.
  assert (I18 : device_id d8 = device_id d1) by congruence.
  destruct (device_id d1 =? BLUEFIELD2_DEVICE_ID).
  - apply wp_bind. eapply wp_conseq;
      [apply sim_interlock_release; congruence|].
    intros r t9 d9 I9 (-> & L9 & S9). apply wp_ret.
    rewrite S9, S8. cbn. auto.
  - apply wp_ret. rewrite S8. cbn. auto.
Qed.

Lemma sim_pcie_read chan off (dev : rshim_pcie sim) :
  has_rshim dev = true -> gw_lock (bus (pci dev)) = 0 ->
  exists dev',
    rshim_pcie_read K ops fuel chan off dev
    = Some ((Good tt,
             Some (joined (regs (rsh (bus (pci dev)))
                             (u32 (RSH_CHANNEL_BASE K chan + off))))),
            dev')
    /\ has_rshim dev' = true
    /\ device_id (pci dev') = device_id (pci dev)
    /\ write_count dev' = 0
    /\ gw_lock (bus (pci dev')) = 0
    /\ regs (rsh (bus (pci dev'))) = regs (rsh (bus (pci dev))).
Proof.
  intros Hr L. unfold rshim_pcie_read.
  cbn [on_pci emit pci has_rshim write_count]. rewrite Hr. cbn [negb].
  match goal with
  | |- context [on_pci ?m ?x] =>
      destruct (returnsD_on_pci _ m x _ (sim_byte_acc_read _ (pci x) L))
        as (r & t & dev' & (E & H1 & H2 & H3) & W & -> & L' & R')
  end.
  exists dev'. rewrite E. cbn in *. auto 10.
Qed.

Lemma sim_pcie_write chan off v (dev : rshim_pcie sim) :
  has_rshim dev = true -> gw_lock (bus (pci dev)) = 0 ->
  off <> RSH_BOOT_FIFO_DATA K ->
  exists dev',
    rshim_pcie_write K ops fuel chan off v dev = Some (Good tt, dev')
    /\ has_rshim dev' = true
    /\ device_id (pci dev') = device_id (pci dev)
    /\ gw_lock (bus (pci dev')) = 0
    /\ regs (rsh (bus (pci dev'))) =
         set_regs (regs (rsh (bus (pci dev))))
           (u32 (RSH_CHANNEL_BASE K chan + off))
           (u32 v + 2 ^ 32 * u32 (Z.shiftr v 32)).
Proof.
  intros Hr L Hoff. apply Z.eqb_neq in Hoff.
  unfold rshim_pcie_write.
  cbn [on_pci emit pci has_rshim write_count]. rewrite Hr, Hoff. cbn [negb].
  match goal with
  | |- context [write_throttle K ops fuel chan ?x] => set (dev0 := x)
  end.
  assert (T : exists dev1,
             write_throttle K ops fuel chan dev0 = Some (tt, dev1)
             /\ has_rshim dev1 = true
             /\ device_id (pci dev1) = device_id (pci dev)
             /\ gw_lock (bus (pci dev1)) = 0
             /\ regs (rsh (bus (pci dev1))) = regs (rsh (bus (pci dev)))).
  { unfold write_throttle.
    destruct (device_id (pci dev0) =? BLUEFIELD1_DEVICE_ID).
    - destruct (write_count dev0 =? 7).
      + destruct (sim_pcie_read chan (RSH_SCRATCHPAD K) dev0 eq_refl L)
          as (dev1 & E & H1 & H2 & H3 & H4 & H5).
        rewrite E. eexists. split; [reflexivity|]. cbn. auto.
      + eexists. split; [reflexivity|]. cbn. auto.
    - eexists. split; [reflexivity|]. cbn. auto. }
  destruct T as (dev1 & E1 & H1 & H2 & H3 & H4). rewrite E1.
  destruct (returnsD_on_pci _
              (rshim_byte_acc_write K ops fuel (RSH_CHANNEL_BASE K chan + off) v)
              dev1 _ (sim_byte_acc_write _ v (pci dev1) H3))
    as (r & t & dev' & (E & G1 & G2 & G3) & W & -> & L' & R').
  exists dev'. rewrite E. split; [reflexivity|].
  split; [congruence|]. split; [congruence|]. split; [exact L'|].
  now rewrite R', H4.
Qed.

End OnTheSimulator.

(** C1: on the simulated register file, whatever the device revision, the
    write counter and the content of the registers, a write of a valid
    triple followed by a read of the same location returns 0 both times
    and the read delivers exactly the value written. *)
Theorem write_then_read_round_trip :
  forall (K : rshim_h) (fuel : nat) (dev : rshim_pcie sim)
         (chan offset value : Z),
    sane_rshim_h K = true ->
    (1 <= fuel)%nat ->
    has_rshim dev = true ->
    gw_lock (bus (pci dev)) = 0 ->
    valid_triple K chan offset value ->
    round_trip K fuel dev chan offset value.
Proof.
  intros K fuel dev chan offset value Hsane Hfuel Hr L (Hoff & Hv).
  destruct (sim_pcie_write K fuel Hsane Hfuel chan offset value dev Hr L Hoff)
    as (dev1 & E1 & H1 & H2 & H3 & H4).
  destruct (sim_pcie_read K fuel Hsane Hfuel chan offset dev1 H1 H3)
    as (dev2 & E2 & _).
  exists dev1, dev2. split; [exact E1|].
  rewrite E2, H4. unfold set_regs. rewrite Z.eqb_refl.
  now rewrite joined_halves.
Qed.

Lemma write_then_read_round_trip_witness :
  sane_rshim_h bluefield_h = true
  /\ (1 <= 1)%nat
  /\ has_rshim (rshim_pcie_probe
                  (Build_pci_dev BLUEFIELD1_DEVICE_ID sim_reset [])) = true
  /\ gw_lock (bus (pci (rshim_pcie_probe
                          (Build_pci_dev BLUEFIELD1_DEVICE_ID sim_reset []))))
     = 0
  /\ valid_triple bluefield_h 2 0x100 0x1122334455667788
  /\ round_trip bluefield_h 1
       (rshim_pcie_probe (Build_pci_dev BLUEFIELD1_DEVICE_ID sim_reset []))
       2 0x100 0x1122334455667788.
Proof.
  assert (H5 : valid_triple bluefield_h 2 0x100 0x1122334455667788)
    by (split; [cbn; discriminate | lia]).
  split; [reflexivity|]. split; [apply le_n|]. split; [reflexivity|].
  split; [reflexivity|]. split; [exact H5|].
  exact (write_then_read_round_trip bluefield_h 1
           (rshim_pcie_probe (Build_pci_dev BLUEFIELD1_DEVICE_ID sim_reset []))
           2 0x100 0x1122334455667788 eq_refl (le_n 1) eq_refl eq_refl H5).
Defined.

(** The round trip by evaluation on both revisions, on the legacy one
    also with the counter at 7, where the write starts with the drain
    read. *)
Example round_trips_run :
  round_trip bluefield_h 1
    (Build_rshim_pcie true
       (Build_pci_dev BLUEFIELD1_DEVICE_ID sim_reset []) 0)
    2 0x100 0x1122334455667788
  /\ round_trip bluefield_h 1
       (Build_rshim_pcie true
          (Build_pci_dev BLUEFIELD1_DEVICE_ID sim_reset []) 7)
       2 0x100 0x1122334455667788
  /\ round_trip bluefield_h 1
       (Build_rshim_pcie true
          (Build_pci_dev BLUEFIELD2_DEVICE_ID sim_reset []) 0)
       2 0x100 0x1122334455667788.
Proof.
  split; [|split]; eexists _, _;
    (split; [vm_compute; reflexivity|]); vm_compute; reflexivity.
Qed.

(** The boot FIFO's port is no such location: what is written to it goes
    into the FIFO, two words, and a read of the same offset finds the
    register file as it was. *)
Example boot_fifo_is_no_register :
  exists dev1 dev2,
    rshim_pcie_write bluefield_h (sim_ops bluefield_h) 1 2 0x408
      0x1122334455667788
      (rshim_pcie_probe (Build_pci_dev BLUEFIELD2_DEVICE_ID sim_reset []))
    = Some (Good tt, dev1)
    /\ boot_fifo (rsh (bus (pci dev1))) = [0x55667788; 0x11223344]
    /\ rshim_pcie_read bluefield_h (sim_ops bluefield_h) 1 2 0x408 dev1
       = Some ((Good tt, Some 0), dev2).
Proof.
  eexists _, _. split; [vm_compute; reflexivity|].
  split; [reflexivity|]. vm_compute. reflexivity.
Qed.

(** * Further properties of the access stack *)

(** ** Stopping at the first error *)

(** X2: the gateway layer stops at the first error it observes, on
    both revisions.  A run of the gateway lock acquire or release or of a
    CR-space read or write that returns 0 contains no [pci_write_long]
    with a negative status and no polling loop that gave up; a run that
    returns a non-zero status ends with the first such event, and the
    status returned is the status of that write, or [-ETIMEDOUT] for a
    loop that gave up. *)
Theorem gateway_stops_at_first_error :
  forall hw (K : rshim_h) (ops : pci_ops hw) (fuel : nat),
    0 <= LOCK_RETRY_CNT K < 2 ^ 31 - 1 ->
    (Z.to_nat (LOCK_RETRY_CNT K) < fuel)%nat ->
    forall (d : pci_dev hw) (addr value : Z),
      wp (trio_cr_gw_lock_acquire K ops fuel) d
         (fun r t _ => stops_at_first_error r t)
      /\ wp (trio_cr_gw_lock_release ops) d
            (fun r t _ => stops_at_first_error r t)
      /\ wp (crspace_rsh_gw_read K ops fuel addr) d
            (fun r t _ => stops_at_first_error r t)
      /\ wp (crspace_rsh_gw_write K ops fuel addr value) d
            (fun r t _ => stops_at_first_error r t).
Proof.
  intros hw K ops fuel Hcnt Hfuel d addr value.
  split; [now apply stopping_trio_cr_gw_lock_acquire|].
  split; [now apply stopping_trio_cr_gw_lock_release|].
  split; [now apply stopping_crspace_rsh_gw_read|].
  now apply stopping_crspace_rsh_gw_write.
Qed.

Lemma gateway_stops_at_first_error_witness :
  (0 <= LOCK_RETRY_CNT bluefield_h < 2 ^ 31 - 1)
  /\ (Z.to_nat (LOCK_RETRY_CNT bluefield_h) < 1001)%nat
  /\ wp (crspace_rsh_gw_read bluefield_h (script_ops (only 3) (reads_as 0))
           1001 (RSH_BYTE_ACC_CTL bluefield_h))
        (script_dev BLUEFIELD1_DEVICE_ID)
        (fun r t _ => stops_at_first_error r t).
Proof.
  assert (H1 : 0 <= LOCK_RETRY_CNT bluefield_h < 2 ^ 31 - 1) by (cbn; lia).
  assert (H2 : (Z.to_nat (LOCK_RETRY_CNT bluefield_h) < 1001)%nat)
    by (apply Nat.ltb_lt; vm_compute; reflexivity).
  split; [exact H1|]. split; [exact H2|].
  exact (proj1 (proj2 (proj2
           (gateway_stops_at_first_error script bluefield_h
              (script_ops (only 3) (reads_as 0)) 1001 H1 H2
              (script_dev BLUEFIELD1_DEVICE_ID)
              (RSH_BYTE_ACC_CTL bluefield_h) 0)))).
Defined.

(** X17: the helpers of the widget stop at the first error they
    observe, on both revisions.  A run of the pending-bit wait, of the
    interlock acquire or of the interlock release that returns 0 has seen
    no failure; a run that returns a non-zero status ends with the first
    failure, a [pci_write_long] with a negative status or a polling loop
    that gave up, and returns the status of that failure. *)
Theorem widget_helpers_stop_at_first_error :
  forall hw (K : rshim_h) (ops : pci_ops hw) (fuel : nat),
    0 <= LOCK_RETRY_CNT K < 2 ^ 31 - 1 ->
    (Z.to_nat (LOCK_RETRY_CNT K) < fuel)%nat ->
    forall d : pci_dev hw,
      wp (rshim_byte_acc_pending_wait K ops fuel) d
         (fun r t _ => stops_at_first_error r t)
      /\ wp (rshim_byte_acc_lock_acquire K ops fuel) d
            (fun r t _ => stops_at_first_error r t)
      /\ wp (rshim_byte_acc_lock_release K ops fuel) d
            (fun r t _ => stops_at_first_error r t).
Proof.
  intros hw K ops fuel Hcnt Hfuel d.
  split; [now apply stopping_rshim_byte_acc_pending_wait|].
  split; [now apply stopping_rshim_byte_acc_lock_acquire|].
  now apply stopping_rshim_byte_acc_lock_release.
Qed.

Lemma widget_helpers_stop_at_first_error_witness :
  (0 <= LOCK_RETRY_CNT bluefield_h < 2 ^ 31 - 1)
  /\ (Z.to_nat (LOCK_RETRY_CNT bluefield_h) < 1001)%nat
  /\ wp (rshim_byte_acc_pending_wait bluefield_h pending_stuck_ops 1001)
        (script_dev BLUEFIELD2_DEVICE_ID)
        (fun r t _ => stops_at_first_error r t).
Proof.
  assert (H1 : 0 <= LOCK_RETRY_CNT bluefield_h < 2 ^ 31 - 1) by (cbn; lia).
  assert (H2 : (Z.to_nat (LOCK_RETRY_CNT bluefield_h) < 1001)%nat)
    by (apply Nat.ltb_lt; vm_compute; reflexivity).
  split; [exact H1|]. split; [exact H2|].
  exact (proj1 (widget_helpers_stop_at_first_error script bluefield_h
                  pending_stuck_ops 1001 H1 H2
                  (script_dev BLUEFIELD2_DEVICE_ID))).
Defined.

(** X6: the boot FIFO writer, on both revisions and in every run, does
    nothing but two CR-space writes to the address it is given: the low
    32 bits of the value, then the high 32 bits.  It calls neither the
    pending-bit wait nor the interlock.  When the first write fails the
    second is not issued, and the status returned is that of the first
    failure; it returns 0 only after both writes. *)
Theorem boot_fifo_write_two_words :
  forall hw (K : rshim_h) (ops : pci_ops hw) (fuel : nat),
    0 <= LOCK_RETRY_CNT K < 2 ^ 31 - 1 ->
    (Z.to_nat (LOCK_RETRY_CNT K) < fuel)%nat ->
    forall (d : pci_dev hw) (addr value : Z),
      wp (rshim_boot_fifo_write K ops fuel addr value) d
         (fun r t _ =>
            stops_at_first_error r t
            /\ exists j, (1 <= j <= 2)%nat
                 /\ from_layer 3 t =
                      Call f_rshim_boot_fifo_write [addr; value]
                      :: firstn j
                           [Call f_crspace_rsh_gw_write [addr; u32 value];
                            Call f_crspace_rsh_gw_write
                              [addr; u32 (Z.shiftr value 32)]]
                 /\ (is_good r = true -> j = 2%nat)).
Proof.
  intros hw K ops fuel Hcnt Hfuel d addr value.
  apply wp_and.
  - now apply stopping_rshim_boot_fifo_write.
  - now apply wp_boot_fifo_words.
Qed.

Lemma boot_fifo_write_two_words_witness :
  (0 <= LOCK_RETRY_CNT bluefield_h < 2 ^ 31 - 1)
  /\ (Z.to_nat (LOCK_RETRY_CNT bluefield_h) < 1001)%nat
  /\ wp (rshim_boot_fifo_write bluefield_h (script_ops (only 3) (reads_as 0))
           1001 0x408 0xAABBCCDDEEFF0011)
        (script_dev BLUEFIELD1_DEVICE_ID)
        (fun r t _ =>
           stops_at_first_error r t
           /\ exists j, (1 <= j <= 2)%nat
                /\ from_layer 3 t =
                     Call f_rshim_boot_fifo_write [0x408; 0xAABBCCDDEEFF0011]
                     :: firstn j
                          [Call f_crspace_rsh_gw_write
                             [0x408; u32 0xAABBCCDDEEFF0011];
                           Call f_crspace_rsh_gw_write
                             [0x408; u32 (Z.shiftr 0xAABBCCDDEEFF0011 32)]]
                /\ (is_good r = true -> j = 2%nat)).
Proof.
  assert (H1 : 0 <= LOCK_RETRY_CNT bluefield_h < 2 ^ 31 - 1) by (cbn; lia).
  assert (H2 : (Z.to_nat (LOCK_RETRY_CNT bluefield_h) < 1001)%nat)
    by (apply Nat.ltb_lt; vm_compute; reflexivity).
  split; [exact H1|]. split; [exact H2|].
  exact (boot_fifo_write_two_words script bluefield_h
           (script_ops (only 3) (reads_as 0)) 1001 H1 H2
           (script_dev BLUEFIELD1_DEVICE_ID) 0x408 0xAABBCCDDEEFF0011).
Defined.

(** X7: on a revision without the interlock the 8-byte widget read and
    write stop at the first error and return it.  A run that returns 0
    has seen no failure; a run that returns a non-zero status ends with
    the first failure, whose status it returns.  The read stores a value
    through [result] exactly when it returns 0. *)
Theorem legacy_widget_returns_first_error :
  forall hw (K : rshim_h) (ops : pci_ops hw) (fuel : nat),
    0 <= LOCK_RETRY_CNT K < 2 ^ 31 - 1 ->
    (Z.to_nat (LOCK_RETRY_CNT K) < fuel)%nat ->
    forall (d : pci_dev hw) (addr value : Z),
      device_id d <> BLUEFIELD2_DEVICE_ID ->
      wp (rshim_byte_acc_write K ops fuel addr value) d
         (fun r t _ => stops_at_first_error r t)
      /\ wp (rshim_byte_acc_read K ops fuel addr) d
            (fun r t _ => stops_at_first_error (fst r) t
                          /\ (snd r <> None <-> is_good (fst r) = true)).
Proof.
  intros hw K ops fuel Hcnt Hfuel d addr value Hid. split.
  - now apply stops_rshim_byte_acc_write.
  - now apply stops_rshim_byte_acc_read.
Qed.

Lemma legacy_widget_returns_first_error_witness :
  (0 <= LOCK_RETRY_CNT bluefield_h < 2 ^ 31 - 1)
  /\ (Z.to_nat (LOCK_RETRY_CNT bluefield_h) < 1001)%nat
  /\ device_id (script_dev BLUEFIELD1_DEVICE_ID) <> BLUEFIELD2_DEVICE_ID
  /\ wp (rshim_byte_acc_write bluefield_h
           (script_ops (only 3) (reads_as 0)) 1001
           0x20100 0x1122334455667788)
        (script_dev BLUEFIELD1_DEVICE_ID)
        (fun r t _ => stops_at_first_error r t).
Proof.
  assert (H1 : 0 <= LOCK_RETRY_CNT bluefield_h < 2 ^ 31 - 1) by (cbn; lia).
  assert (H2 : (Z.to_nat (LOCK_RETRY_CNT bluefield_h) < 1001)%nat)
    by (apply Nat.ltb_lt; vm_compute; reflexivity).
  assert (H3 : device_id (script_dev BLUEFIELD1_DEVICE_ID)
               <> BLUEFIELD2_DEVICE_ID) by (cbn; discriminate).
  split; [exact H1|]. split; [exact H2|]. split; [exact H3|].
  exact (proj1 (legacy_widget_returns_first_error script bluefield_h
                  (script_ops (only 3) (reads_as 0)) 1001 H1 H2
                  (script_dev BLUEFIELD1_DEVICE_ID)
                  0x20100 0x1122334455667788 H3)).
Defined.

(** That run: a legacy device on a bus whose fourth configuration write
    fails.  The widget write sends the target address through the
    gateway; the lock is taken with two good writes, the next write, of
    the byte-swapped address to the data register, fails, and the widget
    write returns its status with that write as the last event of the
    run. *)
Example legacy_write_ends_at_failed_write :
  exists d',
    rshim_byte_acc_write bluefield_h (script_ops (only 3) (reads_as 0)) 1001
      0x20100 0x1122334455667788 (script_dev BLUEFIELD1_DEVICE_ID)
    = Some (Fail (- EIO), d')
    /\ at_layer 0 (trace d') =
         [PciWrite MELLANOX_ADDR (TRIO_CR_GW_LOCK + 1) 0;
          PciRead MELLANOX_DATA 0 true;
          PciWrite MELLANOX_DATA TRIO_CR_GW_LOCK_ACQUIRED 0;
          PciWrite MELLANOX_ADDR TRIO_CR_GW_LOCK 0;
          PciWrite MELLANOX_DATA (htonl 0x20100) (- EIO)]
    /\ last (trace d') lock_acquire_write
       = PciWrite MELLANOX_DATA (htonl 0x20100) (- EIO).
Proof.
  eexists. split; [vm_compute; reflexivity|]. split; reflexivity.
Qed.

(** X8: an 8-byte widget read in which no step fails returns 0, stores
    a value and issues exactly: a pending-bit wait, (newer revision)
    interlock acquire, write of the target address to ACC_ADDR, write of
    the read trigger and the size bits to ACC_CTL, a pending-bit wait,
    read of ACC_RDAT, a pending-bit wait, read of ACC_RDAT, then (newer
    revision) interlock release, in that order. *)
Theorem byte_acc_read_sequence :
  forall hw (K : rshim_h) (ops : pci_ops hw) (fuel : nat),
    0 <= LOCK_RETRY_CNT K < 2 ^ 31 - 1 ->
    (Z.to_nat (LOCK_RETRY_CNT K) < fuel)%nat ->
    forall (d : pci_dev hw) (addr : Z),
      wp (rshim_byte_acc_read K ops fuel addr) d
         (fun r t _ =>
            ~ failed t ->
            fst r = Good tt /\ snd r <> None
            /\ exists ka k0 k1 k2,
                (1 <= ka)%nat /\ Z.of_nat ka <= LOCK_RETRY_CNT K
                /\ (1 <= k0)%nat /\ Z.of_nat k0 <= LOCK_RETRY_CNT K
                /\ (1 <= k1)%nat /\ Z.of_nat k1 <= LOCK_RETRY_CNT K
                /\ (1 <= k2)%nat /\ Z.of_nat k2 <= LOCK_RETRY_CNT K
                /\ from_layer 3 t =
                     baw_read_trace K (device_id d) addr ka k0 k1 k2).
Proof.
  intros hw K ops fuel Hcnt Hfuel d addr.
  eapply wp_conseq; [now apply wp_rshim_byte_acc_read|].
  intros r t d' _ (_ & _ & S). exact S.
Qed.

Lemma byte_acc_read_sequence_witness :
  (0 <= LOCK_RETRY_CNT bluefield_h < 2 ^ 31 - 1)
  /\ (Z.to_nat (LOCK_RETRY_CNT bluefield_h) < 1001)%nat
  /\ wp (rshim_byte_acc_read bluefield_h (ready_ops never) 1001 0x20100)
        (script_dev BLUEFIELD2_DEVICE_ID)
        (fun r t _ =>
           ~ failed t ->
           fst r = Good tt /\ snd r <> None
           /\ exists ka k0 k1 k2,
               (1 <= ka)%nat /\ Z.of_nat ka <= LOCK_RETRY_CNT bluefield_h
               /\ (1 <= k0)%nat /\ Z.of_nat k0 <= LOCK_RETRY_CNT bluefield_h
               /\ (1 <= k1)%nat /\ Z.of_nat k1 <= LOCK_RETRY_CNT bluefield_h
               /\ (1 <= k2)%nat /\ Z.of_nat k2 <= LOCK_RETRY_CNT bluefield_h
               /\ from_layer 3 t =
                    baw_read_trace bluefield_h
                      (device_id (script_dev BLUEFIELD2_DEVICE_ID))
                      0x20100 ka k0 k1 k2).
Proof.
  assert (H1 : 0 <= LOCK_RETRY_CNT bluefield_h < 2 ^ 31 - 1) by (cbn; lia).
  assert (H2 : (Z.to_nat (LOCK_RETRY_CNT bluefield_h) < 1001)%nat)
    by (apply Nat.ltb_lt; vm_compute; reflexivity).
  split; [exact H1|]. split; [exact H2|].
  exact (byte_acc_read_sequence script bluefield_h (ready_ops never) 1001
           H1 H2 (script_dev BLUEFIELD2_DEVICE_ID) 0x20100).
Defined.

Example byte_acc_read_in_order :
  exists d',
    rshim_byte_acc_read bluefield_h (ready_ops never) 1001 0x20100
      (script_dev BLUEFIELD2_DEVICE_ID)
    = Some ((Good tt, Some 0x100000001), d')
    /\ ~ failed (trace d')
    /\ from_layer 3 (trace d') =
         baw_read_trace bluefield_h BLUEFIELD2_DEVICE_ID 0x20100 1 1 1 1.
Proof.
  eexists. split; [vm_compute; reflexivity|].
  split; [|vm_compute; reflexivity].
  rewrite failed_existsb. vm_compute. discriminate.
Qed.

Section Guard.

Variable K : rshim_h.
Variable hw : Type.
Variable ops : pci_ops hw.
Variable fuel : nat.

(** A call on a backend without RShim access enters itself in the trace
    and returns. *)
Lemma refused_read chan addr dev :
  has_rshim dev = false ->
  exists dev',
    rshim_pcie_read K ops fuel chan addr dev
    = Some ((Fail (- ENODEV), None), dev')
    /\ bus (pci dev') = bus (pci dev)
    /\ write_count dev' = write_count dev
    /\ trace (pci dev') = trace (pci dev) ++ [Call f_rshim_pcie_read [chan; addr]].
Proof.
  intros H. unfold rshim_pcie_read. cbn. rewrite H. cbn.
  eexists. split; [reflexivity|]. cbn. auto.
Qed.

Lemma refused_write chan addr value dev :
  has_rshim dev = false ->
  exists dev',
    rshim_pcie_write K ops fuel chan addr value dev
    = Some (Fail (- ENODEV), dev')
    /\ bus (pci dev') = bus (pci dev)
    /\ write_count dev' = write_count dev
    /\ trace (pci dev')
       = trace (pci dev) ++ [Call f_rshim_pcie_write [chan; addr; value]].
Proof.
  intros H. unfold rshim_pcie_write. cbn. rewrite H. cbn.
  eexists. split; [reflexivity|]. cbn. auto.
Qed.

End Guard.

(** X9: on a backend without RShim access ([has_rshim] clear) the
    dispatcher refuses both operations with [-ENODEV] before doing
    anything: no configuration-space transaction is issued, the hardware
    is untouched and the write counter keeps its value; a refused read
    stores nothing and does not reset the counter, a refused write does
    not count and triggers no drain read. *)
Theorem no_rshim_no_access :
  forall hw (K : rshim_h) (ops : pci_ops hw) (fuel : nat)
         (dev : rshim_pcie hw) (chan addr value : Z),
    has_rshim dev = false ->
    (exists dev',
        rshim_pcie_read K ops fuel chan addr dev
        = Some ((Fail (- ENODEV), None), dev')
        /\ bus (pci dev') = bus (pci dev)
        /\ write_count dev' = write_count dev
        /\ at_layer 0 (trace (pci dev')) = at_layer 0 (trace (pci dev)))
    /\ (exists dev',
           rshim_pcie_write K ops fuel chan addr value dev
           = Some (Fail (- ENODEV), dev')
           /\ bus (pci dev') = bus (pci dev)
           /\ write_count dev' = write_count dev
           /\ at_layer 0 (trace (pci dev')) = at_layer 0 (trace (pci dev))).
Proof.
  intros hw K ops fuel dev chan addr value H. split.
  - destruct (refused_read K hw ops fuel chan addr dev H)
      as (dev' & E & B & W & T).
    exists dev'. rewrite T, at_layer_app. cbn. rewrite app_nil_r. auto.
  - destruct (refused_write K hw ops fuel chan addr value dev H)
      as (dev' & E & B & W & T).
    exists dev'. rewrite T, at_layer_app. cbn. rewrite app_nil_r. auto.
Qed.

Lemma no_rshim_no_access_witness :
  has_rshim (Build_rshim_pcie false (script_dev BLUEFIELD1_DEVICE_ID) 7)
  = false
  /\ exists dev',
       rshim_pcie_write bluefield_h (script_ops never (reads_as 0)) 1001
         0 0x408 0x1122334455667788
         (Build_rshim_pcie false (script_dev BLUEFIELD1_DEVICE_ID) 7)
       = Some (Fail (- ENODEV), dev')
       /\ bus (pci dev') = bus (script_dev BLUEFIELD1_DEVICE_ID)
       /\ write_count dev' = 7
       /\ at_layer 0 (trace (pci dev')) = [].
Proof.
  split; [reflexivity|].
  exact (proj2 (no_rshim_no_access script bluefield_h
                  (script_ops never (reads_as 0)) 1001
                  (Build_rshim_pcie false (script_dev BLUEFIELD1_DEVICE_ID) 7)
                  0 0x408 0x1122334455667788 eq_refl)).
Defined.

(** X10: the status of a write is the status of its own access.  On a
    BlueField-1 backend with RShim access the run of [rshim_pcie_write]
    is the drain read, when one is due, followed by the routed write; the
    status of the drain read is dropped, and what the write returns is 0
    when its own access saw no failure and otherwise the status of the
    first failure of its own access. *)
Theorem write_status_is_its_own :
  forall hw (K : rshim_h) (ops : pci_ops hw) (fuel : nat),
    0 <= LOCK_RETRY_CNT K < 2 ^ 31 - 1 ->
    (Z.to_nat (LOCK_RETRY_CNT K) < fuel)%nat ->
    forall (dev : rshim_pcie hw) (chan addr value : Z),
      has_rshim dev = true ->
      device_id (pci dev) = BLUEFIELD1_DEVICE_ID ->
      exists r t dev' t_drain t_own,
        returnsD (rshim_pcie_write K ops fuel chan addr value) dev r t dev'
        /\ t = Call f_rshim_pcie_write [chan; addr; value]
               :: t_drain ++ t_own
        /\ from_layer 5 t_drain =
             (if write_count dev =? 7 then drain_read K chan else [])
        /\ from_layer 5 t_own = [routed K chan addr value]
        /\ stops_at_first_error r t_own.
Proof.
  intros hw K ops fuel Hcnt Hfuel dev chan addr value Hr Hid.
  unfold returnsD, rshim_pcie_write, routed.
  cbn [on_pci emit pci has_rshim write_count device_id bus trace].
  rewrite Hr. cbn [negb].
  match goal with
  | |- context [write_throttle K ops fuel chan ?x] => set (dev0 := x)
  end.
  destruct (write_throttle_spec K hw ops fuel Hcnt Hfuel chan dev0)
    as (t1 & dev1 & (E1 & H1 & H2 & H3) & _ & S1).
  rewrite E1. cbn in H1, H2, H3, S1.
  unfold drains in S1. rewrite Hid, Z.eqb_refl in S1. cbn [andb] in S1.
  assert (N : device_id (pci dev1) <> BLUEFIELD2_DEVICE_ID)
    by (rewrite H2, Hid; discriminate).
  destruct (addr =? RSH_BOOT_FIFO_DATA K).
  - destruct (returnsD_on_pci hw _ dev1 _
                (wp_and hw _ _ _ _
                   (stopping_rshim_boot_fifo_write K hw ops fuel Hcnt Hfuel
                      (RSH_CHANNEL_BASE K chan + addr) value (pci dev1))
                   (wp_rshim_boot_fifo_write K hw ops fuel Hcnt Hfuel
                      (RSH_CHANNEL_BASE K chan + addr) value (pci dev1))))
      as (r & t & dev' & (E & G1 & G2 & G3) & W & S & _ & S5 & _).
    exists r, ([Call f_rshim_pcie_write [chan; addr; value]] ++ t1 ++ t),
      dev', t1, t.
    split; [|auto].
    rewrite E, G1, G2, G3, H1, H2, H3. rewrite <- !app_assoc. auto.
  - destruct (returnsD_on_pci hw _ dev1 _
                (wp_and hw _ _ _ _
                   (stops_rshim_byte_acc_write K hw ops fuel Hcnt Hfuel
                      (RSH_CHANNEL_BASE K chan + addr) value (pci dev1) N)
                   (wp_rshim_byte_acc_write K hw ops fuel Hcnt Hfuel
                      (RSH_CHANNEL_BASE K chan + addr) value (pci dev1))))
      as (r & t & dev' & (E & G1 & G2 & G3) & W & S & S5 & _).
    exists r, ([Call f_rshim_pcie_write [chan; addr; value]] ++ t1 ++ t),
      dev', t1, t.
    split; [|auto].
    rewrite E, G1, G2, G3, H1, H2, H3. rewrite <- !app_assoc. auto.
Qed.

Lemma write_status_is_its_own_witness :
  (0 <= LOCK_RETRY_CNT bluefield_h < 2 ^ 31 - 1)
  /\ (Z.to_nat (LOCK_RETRY_CNT bluefield_h) < 1001)%nat
  /\ has_rshim (Build_rshim_pcie true (script_dev BLUEFIELD1_DEVICE_ID) 7)
     = true
  /\ device_id (script_dev BLUEFIELD1_DEVICE_ID) = BLUEFIELD1_DEVICE_ID
  /\ exists r t dev' t_drain t_own,
       returnsD (rshim_pcie_write bluefield_h
                   (script_ops (only 0) (reads_as 0)) 1001
                   0 0x408 0x1122334455667788)
         (Build_rshim_pcie true (script_dev BLUEFIELD1_DEVICE_ID) 7)
         r t dev'
       /\ t = Call f_rshim_pcie_write [0; 0x408; 0x1122334455667788]
              :: t_drain ++ t_own
       /\ from_layer 5 t_drain = drain_read bluefield_h 0
       /\ from_layer 5 t_own
          = [routed bluefield_h 0 0x408 0x1122334455667788]
       /\ stops_at_first_error r t_own.
Proof.
  assert (H1 : 0 <= LOCK_RETRY_CNT bluefield_h < 2 ^ 31 - 1) by (cbn; lia).
  assert (H2 : (Z.to_nat (LOCK_RETRY_CNT bluefield_h) < 1001)%nat)
    by (apply Nat.ltb_lt; vm_compute; reflexivity).
  split; [exact H1|]. split; [exact H2|].
  split; [reflexivity|]. split; [reflexivity|].
  exact (write_status_is_its_own script bluefield_h
           (script_ops (only 0) (reads_as 0)) 1001 H1 H2
           (Build_rshim_pcie true (script_dev BLUEFIELD1_DEVICE_ID) 7)
           0 0x408 0x1122334455667788 eq_refl eq_refl).
Defined.

(** The eighth write in a row on a bus whose first configuration write
    fails: the drain read returns [-EIO] at once, the write goes on and
    returns 0. *)
Example write_after_failed_drain_read :
  exists dev',
    rshim_pcie_write bluefield_h (script_ops (only 0) (reads_as 0)) 1001
      0 0x408 0x1122334455667788
      (Build_rshim_pcie true (script_dev BLUEFIELD1_DEVICE_ID) 7)
    = Some (Good tt, dev')
    /\ write_count dev' = 1
    /\ at_layer 0 (firstn 8 (trace (pci dev')))
       = [PciWrite MELLANOX_ADDR (TRIO_CR_GW_LOCK + 1) (- EIO)].
Proof.
  eexists. split; [vm_compute; reflexivity|].
  split; vm_compute; reflexivity.
Qed.

(** ** What each revision does *)

Section Monoidal.

Variable hw : Type.
Variable id : Z.
Variable P : list event -> Prop.
Hypothesis P_nil : P [].
Hypothesis P_app : forall t u, P t -> P u -> P (t ++ u).

Lemma always_ret {A} (a : A) : always id P (ret a : M hw A).
Proof. intros d _. now apply wp_ret. Qed.

Lemma always_bind {A B} (m : M hw A) (k : A -> M hw B) :
  always id P m -> (forall a, always id P (k a)) -> always id P (bind m k).
Proof.
  intros Hm Hk d Hd. apply wp_bind.
  eapply wp_conseq; [now apply Hm|]. intros a t d1 I1 Pt.
  eapply wp_conseq; [apply Hk; congruence|].
  intros b t2 d2 _ Pt2. now apply P_app.
Qed.

Lemma always_bind_rc {A B} (m : M hw (rc_or A)) (k : A -> M hw (rc_or B)) :
  always id P m -> (forall a, always id P (k a)) ->
  always id P (bind_rc m k).
Proof.
  intros Hm Hk. unfold bind_rc. apply always_bind; [exact Hm|].
  intros [rc|a]; [apply always_ret | apply Hk].
Qed.

Lemma always_emit e : P [e] -> always id P (emit e : M hw unit).
Proof. intros He d _. apply wp_emit. auto. Qed.

Lemma always_get_device_id {A} (k : Z -> M hw A) :
  always id P (k id) -> always id P (bind get_device_id k).
Proof.
  intros Hk d Hd. apply wp_bind, wp_get_device_id. rewrite Hd.
  now apply Hk.
Qed.

Lemma always_pci_write_long (ops : pci_ops hw) pos data :
  (forall rc, P [PciWrite pos data rc]) ->
  always id P (pci_write_long ops pos data).
Proof. intros H d _. apply wp_pci_write_long. auto. Qed.

Lemma always_pci_read_long (ops : pci_ops hw) pos :
  (forall data ok, P [PciRead pos data ok]) ->
  always id P (pci_read_long ops pos).
Proof. intros H d _. apply wp_pci_read_long. auto. Qed.

Lemma always_on_pci {A} (m : M hw A) :
  always id P m -> alwaysD id P (on_pci m).
Proof.
  intros Hm dev Hd.
  destruct (returnsD_on_pci hw m dev _ (Hm (pci dev) Hd))
    as (r & t & dev' & R & _ & Pt).
  exists r, t, dev'. auto.
Qed.

End Monoidal.

Lemma within_nil id n : within id n [].
Proof. reflexivity. Qed.

Lemma within_app id n t u : within id n t -> within id n u -> within id n (t ++ u).
Proof. unfold within. rewrite forallb_app. now intros -> ->. Qed.

Lemma within_one id n e :
  allowed id e = true -> (origin e <= n)%nat -> within id n [e].
Proof.
  intros A O. unfold within. cbn. rewrite A. cbn.
  rewrite andb_true_r. now apply Nat.leb_le.
Qed.

Lemma within_le id n m t : (n <= m)%nat -> within id n t -> within id m t.
Proof.
  intros H. unfold within. rewrite !forallb_forall. intros W e He.
  specialize (W e He). apply andb_prop in W. destruct W as (A & O).
  rewrite A. cbn. apply Nat.leb_le. apply Nat.leb_le in O. lia.
Qed.

Lemma always_le {hw A} id n m (c : M hw A) :
  (n <= m)%nat -> always id (within id n) c -> always id (within id m) c.
Proof.
  intros H Hc d Hd. eapply wp_conseq; [now apply Hc|].
  intros r t d' _ W. now apply (within_le id n m).
Qed.

Lemma land_ffff_range x : 0 <= Z.land x 0xffff < 0x10000.
Proof.
  change 0xffff with (Z.ones 16). rewrite Z.land_ones by lia.
  apply Z.mod_pos_bound. lia.
Qed.

Lemma window_land x :
  rshim_window (Z.land x 0xffff + CRSPACE_RSH_CHANNEL1_BASE) = true.
Proof.
  pose proof (land_ffff_range x) as H. unfold rshim_window.
  apply andb_true_intro. split; [apply Z.leb_le | apply Z.ltb_lt]; lia.
Qed.

Section Allowed.

Variable K : rshim_h.
Variable hw : Type.
Variable ops : pci_ops hw.
Variable fuel : nat.
Hypothesis Hcnt : 0 <= LOCK_RETRY_CNT K < 2 ^ 31 - 1.
Hypothesis Hfuel : (Z.to_nat (LOCK_RETRY_CNT K) < fuel)%nat.
Variable id : Z.
Variable n : nat.

Local Abbreviation stays m := (always id (within id n) m).

Ltac w_ret := apply always_ret; apply within_nil.

Ltac w_bind := apply always_bind; [apply within_app | | intros ?].

Ltac w_bind_rc :=
  apply always_bind_rc; [apply within_nil | apply within_app | | intros ?].

Ltac w_id := apply always_get_device_id.

Ltac w_one := apply within_one; [try reflexivity | cbn; lia].

Ltac w_emit := apply always_emit; w_one.

Lemma stays_pci_cap_read off :
  allowed id (Call f_pci_cap_read [off]) = true -> (1 <= n)%nat ->
  stays (pci_cap_read ops off).
Proof.
  intros A Hn. unfold pci_cap_read.
  w_bind; [apply always_emit; now apply within_one|].
  w_bind; [apply always_pci_write_long; intros rc; w_one|].
  destruct (_ <? 0); [w_ret|].
  w_bind; [apply always_pci_read_long; intros data ok; w_one|].
  w_ret.
Qed.

Lemma stays_pci_cap_write off value :
  allowed id (Call f_pci_cap_write [off; value]) = true -> (1 <= n)%nat ->
  stays (pci_cap_write ops off value).
Proof.
  intros A Hn. unfold pci_cap_write.
  w_bind; [apply always_emit; now apply within_one|].
  w_bind; [apply always_pci_write_long; intros rc; w_one|].
  destruct (_ <? 0); [w_ret|].
  w_bind; [apply always_pci_write_long; intros rc; w_one|].
  destruct (_ <? 0); w_ret.
Qed.

Lemma gateway_register_allowed (newer : (id =? BLUEFIELD2_DEVICE_ID) = false)
    off value :
  gateway_register off = true ->
  allowed id (Call f_pci_cap_write [off; value]) = true.
Proof. intros H. cbn. now rewrite newer. Qed.

Lemma stays_trio_cr_gw_lock_wait k : forall retry,
  (id =? BLUEFIELD2_DEVICE_ID) = false -> (2 <= n)%nat ->
  0 <= retry <= LOCK_RETRY_CNT K ->
  (Z.to_nat (LOCK_RETRY_CNT K - retry) < k)%nat ->
  stays (trio_cr_gw_lock_wait K ops k retry).
Proof.
  induction k as [|k IH]; intros retry E Hn Hr Hk; [lia|].
  cbn [trio_cr_gw_lock_wait].
  w_bind_rc; [apply stays_pci_cap_read; [cbn; now rewrite E | lia]|].
  rewrite (u32_small (retry + 1)), (u32_small (LOCK_RETRY_CNT K))
    by (change (2 ^ 32) with 4294967296; lia).
  destruct (retry + 1 >? LOCK_RETRY_CNT K) eqn:G.
  - w_bind; [|w_ret]. apply always_emit, within_one; [|cbn; lia].
    cbn. now rewrite E.
  - destruct (Z.land _ _ =? 0); [w_ret|]. apply IH; auto; lia.
Qed.

Lemma stays_trio_cr_gw_lock_acquire :
  (id =? BLUEFIELD2_DEVICE_ID) = false -> (2 <= n)%nat ->
  stays (trio_cr_gw_lock_acquire K ops fuel).
Proof.
  intros E Hn. unfold trio_cr_gw_lock_acquire.
  w_bind; [apply always_emit, within_one; [cbn; now rewrite E | cbn; lia]|].
  w_bind_rc; [apply stays_trio_cr_gw_lock_wait; auto; lia|].
  apply stays_pci_cap_write; [|lia].
  now apply gateway_register_allowed.
Qed.

Lemma stays_trio_cr_gw_lock_release :
  (id =? BLUEFIELD2_DEVICE_ID) = false -> (2 <= n)%nat ->
  stays (trio_cr_gw_lock_release ops).
Proof.
  intros E Hn. unfold trio_cr_gw_lock_release.
  w_bind; [apply always_emit, within_one; [cbn; now rewrite E | cbn; lia]|].
  apply stays_pci_cap_write; [|lia].
  now apply gateway_register_allowed.
Qed.

Ltac w_gateway E :=
  first [ apply stays_trio_cr_gw_lock_acquire; [exact E | lia]
        | apply stays_trio_cr_gw_lock_release; [exact E | lia]
        | apply stays_pci_cap_write;
          [now apply gateway_register_allowed | lia]
        | apply stays_pci_cap_read; [cbn; now rewrite E | lia] ].

Lemma stays_crspace_rsh_gw_read addr :
  (3 <= n)%nat -> stays (crspace_rsh_gw_read K ops fuel addr).
Proof.
  intros Hn. unfold crspace_rsh_gw_read.
  w_bind; [w_emit|]. w_id.
  destruct (id =? BLUEFIELD2_DEVICE_ID) eqn:E.
  - apply stays_pci_cap_read; [|lia]. cbn. rewrite E. apply window_land.
  - w_bind_rc; [w_gateway E|].
    w_bind_rc; [w_gateway E|].
    w_bind_rc; [w_gateway E|].
    w_bind_rc; [w_gateway E|].
    w_bind_rc; [w_gateway E|].
    w_bind_rc; [w_gateway E|].
    w_ret.
Qed.

Lemma stays_crspace_rsh_gw_write addr value :
  (3 <= n)%nat -> stays (crspace_rsh_gw_write K ops fuel addr value).
Proof.
  intros Hn. unfold crspace_rsh_gw_write.
  w_bind; [w_emit|]. w_id.
  destruct (id =? BLUEFIELD2_DEVICE_ID) eqn:E.
  - apply stays_pci_cap_write; [|lia]. cbn. rewrite E. apply window_land.
  - w_bind_rc; [w_gateway E|].
    w_bind_rc; [w_gateway E|].
    w_bind_rc; [w_gateway E|].
    w_bind_rc; [w_gateway E|].
    w_bind_rc; [w_gateway E|].
    w_bind_rc; [w_gateway E|].
    w_ret.
Qed.

End Allowed.

(** Above the CR-space accessor.  A property of traces that holds of
    every CR-space access, of every single event from above that is
    allowed for the device, and of a trace made of two that have it,
    holds of every run of the widget, of the boot FIFO writer and of the
    dispatcher. *)
Section Segments.

Variable K : rshim_h.
Variable hw : Type.
Variable ops : pci_ops hw.
Variable fuel : nat.
Hypothesis Hcnt : 0 <= LOCK_RETRY_CNT K < 2 ^ 31 - 1.
Hypothesis Hfuel : (Z.to_nat (LOCK_RETRY_CNT K) < fuel)%nat.
Variable id : Z.
Variable P : list event -> Prop.
Hypothesis P_nil : P [].
Hypothesis P_app : forall t u, P t -> P u -> P (t ++ u).
Hypothesis P_up : forall e,
  (4 <= origin e)%nat -> allowed id e = true -> P [e].
Hypothesis P_read : forall addr,
  always id P (crspace_rsh_gw_read K ops fuel addr).
Hypothesis P_write : forall addr value,
  always id P (crspace_rsh_gw_write K ops fuel addr value).

Local Abbreviation has m := (always id P m).

Ltac s_ret := apply always_ret; exact P_nil.

Ltac s_bind := apply always_bind; [exact P_app | | intros ?].

Ltac s_bind_rc :=
  apply always_bind_rc; [exact P_nil | exact P_app | | intros ?].

Ltac s_emit := apply always_emit, P_up; [cbn; lia | try reflexivity].

Lemma has_pending_wait_loop k : forall retry,
  0 <= retry <= LOCK_RETRY_CNT K ->
  (Z.to_nat (LOCK_RETRY_CNT K - retry) < k)%nat ->
  has (pending_wait_loop K ops fuel k retry).
Proof.
  induction k as [|k IH]; intros retry Hr Hk; [lia|].
  cbn [pending_wait_loop].
  s_bind_rc; [apply P_read|].
  rewrite (u32_small (retry + 1)), (u32_small (LOCK_RETRY_CNT K))
    by (change (2 ^ 32) with 4294967296; lia).
  destruct (retry + 1 >? LOCK_RETRY_CNT K) eqn:G.
  - s_bind; [s_emit|s_ret].
  - destruct (Z.land _ _ =? 0); [s_ret|]. apply IH; lia.
Qed.

Lemma has_rshim_byte_acc_pending_wait :
  has (rshim_byte_acc_pending_wait K ops fuel).
Proof.
  unfold rshim_byte_acc_pending_wait.
  s_bind; [s_emit|]. apply has_pending_wait_loop; lia.
Qed.

Lemma has_interlock_loop k : forall retry,
  (id =? BLUEFIELD2_DEVICE_ID) = true ->
  0 <= retry <= LOCK_RETRY_CNT K ->
  (Z.to_nat (LOCK_RETRY_CNT K - retry) < k)%nat ->
  has (interlock_loop K ops fuel k retry).
Proof.
  induction k as [|k IH]; intros retry E Hr Hk; [lia|].
  cbn [interlock_loop].
  rewrite (s32_small (retry + 1))
    by (change (2 ^ 31) with 2147483648 in *; lia).
  destruct (retry + 1 >? LOCK_RETRY_CNT K) eqn:G.
  - s_bind; [|s_ret]. s_emit. cbn. now rewrite E.
  - s_bind_rc; [apply P_read|].
    destruct (negb _); [s_ret|]. apply IH; auto; lia.
Qed.

Lemma has_rshim_byte_acc_lock_acquire :
  (id =? BLUEFIELD2_DEVICE_ID) = true ->
  has (rshim_byte_acc_lock_acquire K ops fuel).
Proof.
  intros E. unfold rshim_byte_acc_lock_acquire.
  s_bind; [s_emit; cbn; now rewrite E|].
  apply has_interlock_loop; auto; lia.
Qed.

Lemma has_rshim_byte_acc_lock_release :
  (id =? BLUEFIELD2_DEVICE_ID) = true ->
  has (rshim_byte_acc_lock_release K ops fuel).
Proof.
  intros E. unfold rshim_byte_acc_lock_release.
  s_bind; [s_emit; cbn; now rewrite E|]. apply P_write.
Qed.

Lemma has_byte_acc_read_body addr : has (byte_acc_read_body K ops fuel addr).
Proof.
  unfold byte_acc_read_body.
  s_bind_rc; [apply P_write|].
  s_bind_rc; [apply P_write|].
  s_bind_rc; [apply has_rshim_byte_acc_pending_wait|].
  s_bind_rc; [apply P_read|].
  s_bind_rc; [apply has_rshim_byte_acc_pending_wait|].
  s_bind_rc; [apply P_read|].
  s_ret.
Qed.

Lemma has_byte_acc_write_body value :
  has (byte_acc_write_body K ops fuel value).
Proof.
  unfold byte_acc_write_body.
  s_bind_rc; [apply P_write|].
  s_bind_rc; [apply P_write|].
  s_bind_rc; [apply has_rshim_byte_acc_pending_wait|].
  apply P_write.
Qed.

Lemma has_rshim_byte_acc_read addr :
  has (rshim_byte_acc_read K ops fuel addr).
Proof.
  unfold rshim_byte_acc_read.
  s_bind; [s_emit|].
  s_bind; [apply has_rshim_byte_acc_pending_wait|].
  match goal with a : rc_or unit |- _ => destruct a as [rc|[]] end;
    [s_ret|].
  apply always_get_device_id.
  destruct (id =? BLUEFIELD2_DEVICE_ID) eqn:E.
  - s_bind; [now apply has_rshim_byte_acc_lock_acquire|].
    match goal with a : rc_or unit |- _ => destruct a as [rc|[]] end;
      [s_ret|].
    s_bind; [apply has_byte_acc_read_body|].
    s_bind; [now apply has_rshim_byte_acc_lock_release|s_ret].
  - s_bind; [s_ret|].
    match goal with a : rc_or unit |- _ => destruct a as [rc|[]] end;
      [s_ret|].
    s_bind; [apply has_byte_acc_read_body|s_ret].
Qed.

Lemma has_rshim_byte_acc_write addr value :
  has (rshim_byte_acc_write K ops fuel addr value).
Proof.
  unfold rshim_byte_acc_write.
  s_bind; [s_emit|]. apply always_get_device_id.
  destruct (id =? BLUEFIELD2_DEVICE_ID) eqn:E.
  - s_bind_rc; [now apply has_rshim_byte_acc_lock_acquire|].
    s_bind_rc; [apply P_write|].
    s_bind; [apply has_byte_acc_write_body|].
    now apply has_rshim_byte_acc_lock_release.
  - s_bind_rc; [s_ret|].
    s_bind_rc; [apply P_write|].
    s_bind; [apply has_byte_acc_write_body|s_ret].
Qed.

Lemma has_rshim_boot_fifo_write addr value :
  has (rshim_boot_fifo_write K ops fuel addr value).
Proof.
  unfold rshim_boot_fifo_write.
  s_bind; [s_emit|].
  s_bind_rc; [apply P_write|].
  s_bind_rc; [apply P_write|].
  s_ret.
Qed.

Lemma has_rshim_pcie_read chan addr :
  alwaysD id P (rshim_pcie_read K ops fuel chan addr).
Proof.
  intros dev Hd. unfold rshim_pcie_read, returnsD. cbn.
  assert (C : P [Call f_rshim_pcie_read [chan; addr]])
    by (apply P_up; [cbn; lia | reflexivity]).
  destruct (has_rshim dev) eqn:Hr; cbn.
  - set (dev1 := set_write_count 0 _).
    destruct (always_on_pci hw id P _
                (has_rshim_byte_acc_read (RSH_CHANNEL_BASE K chan + addr))
                dev1 Hd)
      as (r & t & dev' & (E & H1 & H2 & H3) & Pt).
    exists r, ([Call f_rshim_pcie_read [chan; addr]] ++ t), dev'.
    split; [|apply P_app; auto].
    rewrite E, H1, H2, H3. cbn. rewrite <- app_assoc. auto.
  - eexists _, [Call f_rshim_pcie_read [chan; addr]], _.
    split; [split; [reflexivity|]|]; cbn; auto.
Qed.

Lemma has_write_throttle chan :
  alwaysD id P (write_throttle K ops fuel chan).
Proof.
  intros dev Hd. unfold returnsD, write_throttle.
  destruct (device_id (pci dev) =? BLUEFIELD1_DEVICE_ID).
  - destruct (write_count dev =? 7).
    + destruct (has_rshim_pcie_read chan (RSH_SCRATCHPAD K) dev Hd)
        as (r & t & dev' & (E1 & H1 & H2 & H3) & Pt).
      rewrite E1.
      exists tt, t, (set_write_count (u8 (write_count dev' + 1)) dev').
      split; [repeat split; auto|exact Pt].
    + exists tt, [], (set_write_count (u8 (write_count dev + 1)) dev).
      split; [repeat split; cbn; auto; now rewrite app_nil_r|exact P_nil].
  - exists tt, [], dev.
    split; [repeat split; cbn; auto; now rewrite app_nil_r|exact P_nil].
Qed.

Lemma has_rshim_pcie_write chan addr value :
  alwaysD id P (rshim_pcie_write K ops fuel chan addr value).
Proof.
  intros dev Hd. unfold returnsD, rshim_pcie_write.
  cbn [on_pci emit pci has_rshim write_count device_id bus trace].
  assert (C : P [Call f_rshim_pcie_write [chan; addr; value]])
    by (apply P_up; [cbn; lia | reflexivity]).
  destruct (has_rshim dev) eqn:Hr; cbn [negb].
  - match goal with
    | |- context [write_throttle K ops fuel chan ?x] => set (dev0 := x)
    end.
    destruct (has_write_throttle chan dev0 Hd)
      as ([] & t1 & dev1 & (E1 & H1 & H2 & H3) & P1).
    rewrite E1. cbn in H1, H2, H3.
    assert (Hd1 : device_id (pci dev1) = id) by congruence.
    destruct (addr =? RSH_BOOT_FIFO_DATA K).
    + destruct (always_on_pci hw id P _
                  (has_rshim_boot_fifo_write
                     (RSH_CHANNEL_BASE K chan + addr) value) dev1 Hd1)
        as (r & t & dev' & (E & G1 & G2 & G3) & Pt).
      exists r, ([Call f_rshim_pcie_write [chan; addr; value]] ++ t1 ++ t),
        dev'.
      split; [|repeat apply P_app; auto].
      rewrite E, G1, G2, G3, H1, H2, H3. rewrite <- !app_assoc. auto.
    + destruct (always_on_pci hw id P _
                  (has_rshim_byte_acc_write
                     (RSH_CHANNEL_BASE K chan + addr) value) dev1 Hd1)
        as (r & t & dev' & (E & G1 & G2 & G3) & Pt).
      exists r, ([Call f_rshim_pcie_write [chan; addr; value]] ++ t1 ++ t),
        dev'.
      split; [|repeat apply P_app; auto].
      rewrite E, G1, G2, G3, H1, H2, H3. rewrite <- !app_assoc. auto.
  - eexists _, [Call f_rshim_pcie_write [chan; addr; value]], _.
    cbn. auto 10.
Qed.

End Segments.
(** X12: what a dispatcher call can do on each revision.  Every event of
    every run of [rshim_pcie_read] and [rshim_pcie_write] is allowed for
    the device: configuration space is written at MELLANOX_ADDR and
    MELLANOX_DATA only and read at MELLANOX_DATA only; on the newer
    revision the capability accessor is given offsets of the 64 KiB RShim
    window only and the gateway lock functions are never called; on any
    other device it is given the four gateway registers only and the
    interlock functions are never called. *)
Theorem dispatcher_events_allowed :
  forall hw (K : rshim_h) (ops : pci_ops hw) (fuel : nat),
    0 <= LOCK_RETRY_CNT K < 2 ^ 31 - 1 ->
    (Z.to_nat (LOCK_RETRY_CNT K) < fuel)%nat ->
    forall (dev : rshim_pcie hw) (chan addr value : Z),
      (exists r t dev',
          returnsD (rshim_pcie_read K ops fuel chan addr) dev r t dev'
          /\ forallb (allowed (device_id (pci dev))) t = true)
      /\ (exists r t dev',
             returnsD (rshim_pcie_write K ops fuel chan addr value)
               dev r t dev'
             /\ forallb (allowed (device_id (pci dev))) t = true).
Proof.
  intros hw K ops fuel Hcnt Hfuel dev chan addr value.
  set (id := device_id (pci dev)).
  assert (W : forall t, within id 6 t -> forallb (allowed id) t = true).
  { intros t. unfold within. rewrite !forallb_forall. intros H e He.
    specialize (H e He). now apply andb_prop in H. }
  assert (U : forall e, (4 <= origin e)%nat -> allowed id e = true ->
                       within id 6 [e]).
  { intros e O A. apply within_one; [exact A|].
    destruct e as [[] xs| | |[]]; cbn; lia. }
  assert (R : forall a, always id (within id 6)
                          (crspace_rsh_gw_read K ops fuel a))
    by (intros a; apply stays_crspace_rsh_gw_read; auto; lia).
  assert (V : forall a v, always id (within id 6)
                            (crspace_rsh_gw_write K ops fuel a v))
    by (intros a v; apply stays_crspace_rsh_gw_write; auto; lia).
  split.
  - destruct (has_rshim_pcie_read K hw ops fuel Hcnt Hfuel id (within id 6)
                (within_nil id 6) (within_app id 6) U R V
                chan addr dev eq_refl)
      as (r & t & dev' & Rn & Wt).
    exists r, t, dev'. auto.
  - destruct (has_rshim_pcie_write K hw ops fuel Hcnt Hfuel id (within id 6)
                (within_nil id 6) (within_app id 6) U R V
                chan addr value dev eq_refl)
      as (r & t & dev' & Rn & Wt).
    exists r, t, dev'. auto.
Qed.

Lemma dispatcher_events_allowed_witness :
  (0 <= LOCK_RETRY_CNT bluefield_h < 2 ^ 31 - 1)
  /\ (Z.to_nat (LOCK_RETRY_CNT bluefield_h) < 1001)%nat
  /\ exists r t dev',
       returnsD (rshim_pcie_read bluefield_h
                   (script_ops never (reads_as 0)) 1001 2 0x20)
         quiet_legacy r t dev'
       /\ forallb (allowed (device_id (pci quiet_legacy))) t = true.
Proof.
  assert (H1 : 0 <= LOCK_RETRY_CNT bluefield_h < 2 ^ 31 - 1) by (cbn; lia).
  assert (H2 : (Z.to_nat (LOCK_RETRY_CNT bluefield_h) < 1001)%nat)
    by (apply Nat.ltb_lt; vm_compute; reflexivity).
  split; [exact H1|]. split; [exact H2|].
  exact (proj1 (dispatcher_events_allowed script bluefield_h
                  (script_ops never (reads_as 0)) 1001 H1 H2
                  quiet_legacy 2 0x20 0)).
Defined.

(** ** The gateway lock over a whole call *)

Lemma lock_events_app t u :
  lock_events (t ++ u) = lock_events t ++ lock_events u.
Proof. apply filter_app. Qed.

Lemma lock_events_layer t : lock_events t = lock_events (at_layer 1 t).
Proof.
  unfold lock_events, at_layer. symmetry. apply filter_implied.
  intros a H. unfold is_lock_event in H.
  apply orb_prop in H as [H|H]; apply event_eqb_layer in H;
    rewrite H; reflexivity.
Qed.

Lemma lock_events_polls k : lock_events (lock_polls k) = [].
Proof. unfold lock_events, lock_polls. now rewrite filter_repeat. Qed.

Lemma brackets_app n m : brackets n ++ brackets m = brackets (n + m).
Proof. induction n as [|n IH]; cbn; [reflexivity | now rewrite IH]. Qed.

(** The accesses to the lock register are calls of the accessor. *)
Lemma on_lock_register_layer t :
  existsb on_lock_register t = existsb on_lock_register (at_layer 1 t).
Proof.
  induction t as [|e t IH]; [reflexivity|].
  cbn [existsb at_layer filter]. fold (at_layer 1 t).
  destruct e as [[] xs| | |f]; cbn [layer Nat.eqb on_lock_register orb];
    try exact IH; cbn [existsb]; now rewrite IH.
Qed.

(** The writes that take and give back the lock are accesses to the
    lock register: where the register is not accessed, there are none. *)
Lemma is_lock_event_on_lock_register e :
  is_lock_event e = true -> on_lock_register e = true.
Proof.
  intros H. apply orb_prop in H as [H|H];
    destruct e as [[] [|x [|y [|z xs]]]| | |f]; try discriminate H;
    cbn in H; cbn [on_lock_register];
    apply andb_prop in H as (H & _); now rewrite Z.eqb_sym.
Qed.

Lemma lock_register_untouched t :
  existsb on_lock_register t = false -> lock_events t = [].
Proof.
  induction t as [|e t IH]; [reflexivity|]. cbn [existsb]. intros H.
  apply orb_false_elim in H as (H1 & H2).
  unfold lock_events. cbn [filter].
  destruct (is_lock_event e) eqn:E; [|now apply IH].
  apply is_lock_event_on_lock_register in E. congruence.
Qed.

Lemma lock_left_free_nil id : lock_left_free id [].
Proof. split; [intros _; now exists 0%nat | reflexivity]. Qed.

Lemma lock_left_free_app id t u :
  lock_left_free id t -> lock_left_free id u -> lock_left_free id (t ++ u).
Proof.
  intros (A1 & B1) (A2 & B2). split.
  - intros N. apply not_failed_app in N as (N1 & N2).
    destruct (A1 N1) as (n & E1), (A2 N2) as (m & E2).
    exists (n + m)%nat. now rewrite lock_events_app, E1, E2, brackets_app.
  - intros E. now rewrite existsb_app, B1, B2.
Qed.

Lemma lock_left_free_up id e :
  (4 <= origin e)%nat -> lock_left_free id [e].
Proof.
  intros O.
  assert (E : existsb on_lock_register [e] = false).
  { destruct e as [[] xs| | |f]; cbn in O; try lia; reflexivity. }
  split; [intros _; exists 0%nat; now apply lock_register_untouched
         | intros _; exact E].
Qed.

Lemma window_is_not_the_lock x :
  (TRIO_CR_GW_LOCK =? Z.land x 0xffff + CRSPACE_RSH_CHANNEL1_BASE) = false.
Proof.
  pose proof (land_ffff_range x) as H. apply Z.eqb_neq.
  unfold TRIO_CR_GW_LOCK, CRSPACE_RSH_CHANNEL1_BASE. lia.
Qed.

Section LockLeftFree.

Variable K : rshim_h.
Variable hw : Type.
Variable ops : pci_ops hw.
Variable fuel : nat.
Hypothesis Hcnt : 0 <= LOCK_RETRY_CNT K < 2 ^ 31 - 1.
Hypothesis Hfuel : (Z.to_nat (LOCK_RETRY_CNT K) < fuel)%nat.
Variable id : Z.

Lemma gw_shape_lock_left_free {A} self direct m1 m2 m3 m4 (r : rc_or A) t :
  gw_shape K self direct [m1; m2; m3; m4] id r t ->
  on_lock_register direct = false ->
  is_lock_event m1 = false -> is_lock_event m2 = false ->
  is_lock_event m3 = false -> is_lock_event m4 = false ->
  lock_left_free id t.
Proof.
  intros (_ & X & S) Hd H1 H2 H3 H4.
  destruct (id =? BLUEFIELD2_DEVICE_ID) eqn:E.
  - assert (L : existsb on_lock_register t = false).
    { rewrite on_lock_register_layer, S. cbn [existsb]. now rewrite Hd. }
    split; [intros _; exists 0%nat; now apply lock_register_untouched
           | intros _; exact L].
  - apply Z.eqb_neq in E. split; [|intros I; contradiction].
    intros N. destruct S as (k & j & _ & _ & _ & S & G).
    assert (J : j = 6%nat).
    { apply G. destruct (is_good r) eqn:F; [reflexivity|].
      exfalso. apply N. now apply (explained_failed r). }
    subst j. exists 1%nat.
    rewrite lock_events_layer, S, lock_events_app, lock_events_polls.
    unfold lock_events. cbn [gw_steps firstn app filter].
    change (is_lock_event
              (Call f_pci_cap_write [TRIO_CR_GW_LOCK; TRIO_CR_GW_LOCK_ACQUIRED]))
      with true.
    change (is_lock_event
              (Call f_pci_cap_write [TRIO_CR_GW_LOCK; TRIO_CR_GW_LOCK_RELEASE]))
      with true.
    now rewrite H1, H2, H3, H4.
Qed.

Lemma lock_left_free_read addr :
  always id (lock_left_free id) (crspace_rsh_gw_read K ops fuel addr).
Proof.
  intros d Hd.
  eapply wp_conseq; [now apply wp_crspace_rsh_gw_read|].
  intros r t d' _ S. rewrite Hd in S.
  eapply gw_shape_lock_left_free; [exact S|..]; try reflexivity.
  cbn [on_lock_register]. rewrite Z.eqb_sym. apply window_is_not_the_lock.
Qed.

Lemma lock_left_free_write addr value :
  always id (lock_left_free id) (crspace_rsh_gw_write K ops fuel addr value).
Proof.
  intros d Hd.
  eapply wp_conseq; [now apply wp_crspace_rsh_gw_write|].
  intros r t d' _ S. rewrite Hd in S.
  eapply gw_shape_lock_left_free; [exact S|..]; try reflexivity.
  cbn [on_lock_register]. rewrite Z.eqb_sym. apply window_is_not_the_lock.
Qed.

End LockLeftFree.

(** X11: the gateway lock over a whole dispatcher call.  In every run of
    [rshim_pcie_read] and [rshim_pcie_write] in which no configuration
    write fails and no polling loop gives up, the writes that take and
    give back the Gateway Lock alternate, starting with a take and ending
    with a give-back: the lock is never taken twice in a row and is free
    when the call returns.  On the newer revision the capability accessor
    is never called on the lock register, in a run that fails as in one
    that does not: the register is neither read nor written, whatever the
    value. *)
Theorem dispatcher_leaves_lock_free :
  forall hw (K : rshim_h) (ops : pci_ops hw) (fuel : nat),
    0 <= LOCK_RETRY_CNT K < 2 ^ 31 - 1 ->
    (Z.to_nat (LOCK_RETRY_CNT K) < fuel)%nat ->
    forall (dev : rshim_pcie hw) (chan addr value : Z),
      (exists r t dev',
          returnsD (rshim_pcie_read K ops fuel chan addr) dev r t dev'
          /\ lock_left_free (device_id (pci dev)) t)
      /\ (exists r t dev',
             returnsD (rshim_pcie_write K ops fuel chan addr value)
               dev r t dev'
             /\ lock_left_free (device_id (pci dev)) t).
Proof.
  intros hw K ops fuel Hcnt Hfuel dev chan addr value.
  set (id := device_id (pci dev)).
  assert (U : forall e, (4 <= origin e)%nat -> allowed id e = true ->
                       lock_left_free id [e])
    by (intros e O _; now apply lock_left_free_up).
  split.
  - apply (has_rshim_pcie_read K hw ops fuel Hcnt Hfuel id
             (lock_left_free id)
             (lock_left_free_nil id) (lock_left_free_app id) U
             (lock_left_free_read K hw ops fuel Hcnt Hfuel id)
             (lock_left_free_write K hw ops fuel Hcnt Hfuel id)
             chan addr dev eq_refl).
  - apply (has_rshim_pcie_write K hw ops fuel Hcnt Hfuel id
             (lock_left_free id)
             (lock_left_free_nil id) (lock_left_free_app id) U
             (lock_left_free_read K hw ops fuel Hcnt Hfuel id)
             (lock_left_free_write K hw ops fuel Hcnt Hfuel id)
             chan addr value dev eq_refl).
Qed.

Lemma dispatcher_leaves_lock_free_witness :
  (0 <= LOCK_RETRY_CNT bluefield_h < 2 ^ 31 - 1)
  /\ (Z.to_nat (LOCK_RETRY_CNT bluefield_h) < 1001)%nat
  /\ exists r t dev',
       returnsD (rshim_pcie_write bluefield_h
                   (script_ops never (reads_as 0)) 1001
                   2 0x408 0xAABBCCDDEEFF0011)
         quiet_legacy r t dev'
       /\ lock_left_free (device_id (pci quiet_legacy)) t.
Proof.
  assert (H1 : 0 <= LOCK_RETRY_CNT bluefield_h < 2 ^ 31 - 1) by (cbn; lia).
  assert (H2 : (Z.to_nat (LOCK_RETRY_CNT bluefield_h) < 1001)%nat)
    by (apply Nat.ltb_lt; vm_compute; reflexivity).
  split; [exact H1|]. split; [exact H2|].
  exact (proj2 (dispatcher_leaves_lock_free script bluefield_h
                  (script_ops never (reads_as 0)) 1001 H1 H2
                  quiet_legacy 2 0x408 0xAABBCCDDEEFF0011)).
Defined.

(** A write to the boot FIFO on a quiet legacy device: two gateway
    accesses, the lock taken and given back twice. *)
Example boot_fifo_write_brackets :
  exists dev',
    rshim_pcie_write bluefield_h (script_ops never (reads_as 0)) 1001
      2 0x408 0xAABBCCDDEEFF0011 quiet_legacy
    = Some (Good tt, dev')
    /\ lock_events (trace (pci dev')) = brackets 2.
Proof. eexists. split; vm_compute; reflexivity. Qed.

(** The same write on the newer revision, on a bus where every register
    reads 1: it goes through the window of the RShim, and no call of the
    accessor is on the lock register. *)
Example newer_write_leaves_lock_register_alone :
  exists dev',
    rshim_pcie_write bluefield_h (ready_ops never) 1001
      2 0x408 0xAABBCCDDEEFF0011
      (rshim_pcie_probe (script_dev BLUEFIELD2_DEVICE_ID))
    = Some (Good tt, dev')
    /\ existsb on_lock_register (trace (pci dev')) = false
    /\ at_layer 1 (trace (pci dev'))
       = [Call f_pci_cap_write
            [0x408 + CRSPACE_RSH_CHANNEL1_BASE; 0xEEFF0011];
          Call f_pci_cap_write
            [0x408 + CRSPACE_RSH_CHANNEL1_BASE; 0xAABBCCDD]].
Proof. eexists. split; [vm_compute; reflexivity|]. split; reflexivity. Qed.

(** ** The capability accessor and the newer revision *)

(** X1: [pci_cap_write offset value] first writes [value] to the data
    register.  When that write returns a negative status it returns this
    status and leaves the address register alone.  Otherwise it writes
    [offset], as it is, to the address register and returns the status of
    this write when it is negative, and 0 when it is not: a positive
    status of [pci_write_long] counts as success. *)
Theorem pci_cap_write_spec :
  forall hw (ops : pci_ops hw) (offset value : Z) (d : pci_dev hw),
  exists r d',
    pci_cap_write ops offset value d = Some (r, d')
    /\ device_id d' = device_id d
    /\ let rc1 := fst (cfg_write ops (bus d) MELLANOX_DATA value) in
       let h1 := snd (cfg_write ops (bus d) MELLANOX_DATA value) in
       if rc1 <? 0
       then r = Fail rc1 /\ bus d' = h1
            /\ trace d' = trace d ++ [Call f_pci_cap_write [offset; value];
                                      PciWrite MELLANOX_DATA value rc1]
       else let rc2 := fst (cfg_write ops h1 MELLANOX_ADDR (u32 offset)) in
            let h2 := snd (cfg_write ops h1 MELLANOX_ADDR (u32 offset)) in
            r = (if rc2 <? 0 then Fail rc2 else Good tt)
            /\ bus d' = h2
            /\ trace d' = trace d ++ [Call f_pci_cap_write [offset; value];
                                      PciWrite MELLANOX_DATA value rc1;
                                      PciWrite MELLANOX_ADDR (u32 offset) rc2].
Proof.
  intros hw ops offset value d.
  unfold pci_cap_write, bind, emit, pci_write_long, ret. cbn.
  destruct (cfg_write ops (bus d) MELLANOX_DATA value) as [rc1 h1]. cbn.
  destruct (rc1 <? 0) eqn:E1; cbn.
  - eexists _, _. split; [reflexivity|]. cbn. rewrite <- app_assoc. auto.
  - destruct (cfg_write ops h1 MELLANOX_ADDR (u32 offset)) as [rc2 h2]. cbn.
    destruct (rc2 <? 0) eqn:E2; cbn;
      (eexists _, _; split; [reflexivity|]); cbn;
      rewrite <- !app_assoc; auto.
Qed.

Section Newer.

Variable hw : Type.
Variable ops : pci_ops hw.

(** What the capability accessor returns and what it leaves on the bus
    does not depend on the trace. *)
Lemma pci_cap_read_bus off (d d0 : pci_dev hw) :
  bus d0 = bus d ->
  wp (pci_cap_read ops off) d0
     (fun r t d1 =>
        exists d2, pci_cap_read ops off d = Some (r, d2)
                   /\ bus d1 = bus d2
                   /\ from_layer 1 t = [Call f_pci_cap_read [off]]).
Proof.
  intros B. unfold wp, returns. rewrite !pci_cap_read_outcome.
  unfold cap_read_outcome. rewrite B.
  destruct (cfg_write ops (bus d) MELLANOX_ADDR _) as [rc h1].
  destruct (rc <? 0).
  - eexists _, _, _. split; [split; [reflexivity|]|]; cbn; eauto.
  - destruct (cfg_read ops h1 MELLANOX_DATA) as [[data ok] h2].
    eexists _, _, _. split; [split; [reflexivity|]|].
    + cbn. split; [reflexivity|]. now rewrite <- app_assoc.
    + cbn. eauto.
Qed.

Lemma pci_cap_write_bus off value (d d0 : pci_dev hw) :
  bus d0 = bus d ->
  wp (pci_cap_write ops off value) d0
     (fun r t d1 =>
        exists d2, pci_cap_write ops off value d = Some (r, d2)
                   /\ bus d1 = bus d2
                   /\ from_layer 1 t = [Call f_pci_cap_write [off; value]]).
Proof.
  intros B. unfold wp, returns, pci_cap_write, bind, emit, pci_write_long,
    ret.
  cbn. rewrite B.
  destruct (cfg_write ops (bus d) MELLANOX_DATA value) as [rc1 h1]. cbn.
  destruct (rc1 <? 0); cbn.
  - eexists _, _, _. split; [split; [reflexivity|]|]; cbn.
    + split; [reflexivity|]. now rewrite <- app_assoc.
    + eauto.
  - destruct (cfg_write ops h1 MELLANOX_ADDR (u32 off)) as [rc2 h2]. cbn.
    destruct (rc2 <? 0); cbn;
      (eexists _, _, _; split; [split; [reflexivity|]|]; cbn;
       [split; [reflexivity|]; now rewrite <- !app_assoc | eauto]).
Qed.

End Newer.

(** X4: on the newer revision a CR-space access is one access of the
    capability accessor, at the offset made of the low 16 bits of the
    address and CRSPACE_RSH_CHANNEL1_BASE.  It returns what the accessor
    returns and leaves the bus as the accessor leaves it: the word is
    neither byte-swapped nor sent through the gateway, no lock is taken
    and nothing is polled.  Two addresses with the same low 16 bits are
    therefore the same register. *)
Theorem newer_revision_direct_access :
  forall hw (K : rshim_h) (ops : pci_ops hw) (fuel : nat)
         (d : pci_dev hw) (addr value : Z),
    device_id d = BLUEFIELD2_DEVICE_ID ->
    let off := Z.land addr 0xffff + CRSPACE_RSH_CHANNEL1_BASE in
    wp (crspace_rsh_gw_read K ops fuel addr) d
       (fun r t d' =>
          exists d0, pci_cap_read ops off d = Some (r, d0)
                     /\ bus d' = bus d0
                     /\ from_layer 1 t = [Call f_crspace_rsh_gw_read [addr];
                                          Call f_pci_cap_read [off]])
    /\ wp (crspace_rsh_gw_write K ops fuel addr value) d
          (fun r t d' =>
             exists d0, pci_cap_write ops off value d = Some (r, d0)
                        /\ bus d' = bus d0
                        /\ from_layer 1 t
                           = [Call f_crspace_rsh_gw_write [addr; value];
                              Call f_pci_cap_write [off; value]]).
Proof.
  intros hw K ops fuel d addr value Hid off. split.
  - unfold crspace_rsh_gw_read.
    apply wp_bind, wp_emit_bus. intros d1 I1 B1.
    apply wp_bind, wp_get_device_id. rewrite I1, Hid. cbn [Z.eqb Pos.eqb].
    eapply wp_conseq; [apply (pci_cap_read_bus hw ops off d d1 B1)|].
    intros r t d2 _ (d0 & E & B & L). exists d0.
    split; [exact E|]. split; [exact B|].
    rewrite !from_layer_app, L. reflexivity.
  - unfold crspace_rsh_gw_write.
    apply wp_bind, wp_emit_bus. intros d1 I1 B1.
    apply wp_bind, wp_get_device_id. rewrite I1, Hid. cbn [Z.eqb Pos.eqb].
    eapply wp_conseq; [apply (pci_cap_write_bus hw ops off value d d1 B1)|].
    intros r t d2 _ (d0 & E & B & L). exists d0.
    split; [exact E|]. split; [exact B|].
    rewrite !from_layer_app, L. reflexivity.
Qed.

Lemma newer_revision_direct_access_witness :
  device_id (script_dev BLUEFIELD2_DEVICE_ID) = BLUEFIELD2_DEVICE_ID
  /\ wp (crspace_rsh_gw_read bluefield_h (script_ops never (reads_as 7))
           1001 0x50490)
        (script_dev BLUEFIELD2_DEVICE_ID)
        (fun r t d' =>
           exists d0,
             pci_cap_read (script_ops never (reads_as 7))
               (Z.land 0x50490 0xffff + CRSPACE_RSH_CHANNEL1_BASE)
               (script_dev BLUEFIELD2_DEVICE_ID) = Some (r, d0)
             /\ bus d' = bus d0
             /\ from_layer 1 t
                = [Call f_crspace_rsh_gw_read [0x50490];
                   Call f_pci_cap_read
                     [Z.land 0x50490 0xffff + CRSPACE_RSH_CHANNEL1_BASE]]).
Proof.
  split; [reflexivity|].
  exact (proj1 (newer_revision_direct_access script bluefield_h
                  (script_ops never (reads_as 7)) 1001
                  (script_dev BLUEFIELD2_DEVICE_ID) 0x50490 0 eq_refl)).
Defined.

(** ** The legacy gateway read *)

Lemma words_read_app t u : words_read (t ++ u) = words_read t ++ words_read u.
Proof. apply flat_map_app. Qed.

Section Words.

Variable K : rshim_h.
Variable hw : Type.
Variable ops : pci_ops hw.
Variable fuel : nat.
Hypothesis Hcnt : 0 <= LOCK_RETRY_CNT K < 2 ^ 31 - 1.
Hypothesis Hfuel : (Z.to_nat (LOCK_RETRY_CNT K) < fuel)%nat.

Lemma words_pci_cap_read off d :
  wp (pci_cap_read ops off) d
     (fun r t _ =>
        words_read t = match r with Good v => [v] | Fail _ => [] end).
Proof.
  unfold pci_cap_read.
  apply wp_bind, wp_emit. intros d1 _.
  apply wp_bind, wp_pci_write_long. intros d2 _ _ rc.
  destruct (rc <? 0); [now apply wp_ret|].
  apply wp_bind, wp_pci_read_long. intros d3 _ _ data ok.
  now apply wp_ret.
Qed.

Lemma words_pci_cap_write off value d :
  wp (pci_cap_write ops off value) d (fun _ t _ => words_read t = []).
Proof.
  unfold pci_cap_write.
  apply wp_bind, wp_emit. intros d1 _.
  apply wp_bind, wp_pci_write_long. intros d2 _ _ rc.
  destruct (rc <? 0); [now apply wp_ret|].
  apply wp_bind, wp_pci_write_long. intros d3 _ _ rc'.
  destruct (rc' <? 0); now apply wp_ret.
Qed.

Ltac silent_write :=
  apply wp_bind_rc; eapply wp_conseq; [apply words_pci_cap_write|];
  let W := fresh "W" in
  intros [?rc|[]] ?t ?d _ W; [exact I|].

Lemma words_crspace_rsh_gw_read addr d :
  device_id d <> BLUEFIELD2_DEVICE_ID ->
  wp (crspace_rsh_gw_read K ops fuel addr) d
     (fun r t _ =>
        match r with
        | Good v => exists ws w, words_read t = ws ++ [w] /\ v = ntohl w
        | Fail _ => True
        end).
Proof.
  intros Hid. apply Z.eqb_neq in Hid. unfold crspace_rsh_gw_read.
  apply wp_bind, wp_emit. intros d0 I0.
  apply wp_bind, wp_get_device_id. rewrite I0, Hid.
  apply wp_bind_rc.
  eapply wp_conseq; [now apply wp_trio_cr_gw_lock_acquire|].
  intros [rc|[]] ta da _ _; [exact I|].
  silent_write. silent_write. silent_write.
  apply wp_bind_rc. eapply wp_conseq; [apply words_pci_cap_read|].
  intros [rc|w] tr dr _ Wr; [exact I|].
  apply wp_bind_rc. unfold trio_cr_gw_lock_release.
  apply wp_bind, wp_emit. intros d5 _.
  eapply wp_conseq; [apply words_pci_cap_write|].
  intros [rc|[]] t6 d6 _ W6; [exact I|].
  apply wp_ret. exists (words_read ta), w.
  split; [|reflexivity].
  rewrite !words_read_app, W, W0, W1, Wr, W6. cbn.
  reflexivity.
Qed.

End Words.

(** X5: the legacy gateway read.  On a device other than the newer
    revision a CR-space read that returns 0 has polled the gateway lock
    at least once and has then issued exactly: the write that takes the
    lock, the write of the address plus the base of the widget's channel
    to ADDR_LOWER, the write of READ_4BYTE to the control register, the
    trigger, the read of DATA_LOWER and the write that gives the lock
    back.  The word it returns is the last word read, the one from
    DATA_LOWER, with its four bytes in reverse order ([ntohl]). *)
Theorem legacy_gateway_read_protocol :
  forall hw (K : rshim_h) (ops : pci_ops hw) (fuel : nat),
    0 <= LOCK_RETRY_CNT K < 2 ^ 31 - 1 ->
    (Z.to_nat (LOCK_RETRY_CNT K) < fuel)%nat ->
    forall (d : pci_dev hw) (addr : Z),
      device_id d <> BLUEFIELD2_DEVICE_ID ->
      wp (crspace_rsh_gw_read K ops fuel addr) d
         (fun r t _ =>
            forall v, r = Good v ->
              (exists k, (1 <= k)%nat
                 /\ at_layer 1 t =
                      lock_polls k
                      ++ gw_steps
                           (gw_read_mid
                              (addr + RSH_CHANNEL_BASE K (RSHIM_CHANNEL K))))
              /\ exists ws w, words_read t = ws ++ [w] /\ v = ntohl w).
Proof.
  intros hw K ops fuel Hcnt Hfuel d addr Hid.
  eapply wp_conseq.
  - apply wp_and.
    + now apply wp_crspace_rsh_gw_read.
    + now apply words_crspace_rsh_gw_read.
  - intros r t d' _ ((_ & _ & S) & W) v ->.
    apply Z.eqb_neq in Hid. rewrite Hid in S.
    destruct S as (k & j & K1 & _ & _ & S & G).
    rewrite (G eq_refl) in S. split; [|exact W].
    exists k. split; [exact K1|exact S].
Qed.

Lemma legacy_gateway_read_protocol_witness :
  (0 <= LOCK_RETRY_CNT bluefield_h < 2 ^ 31 - 1)
  /\ (Z.to_nat (LOCK_RETRY_CNT bluefield_h) < 1001)%nat
  /\ device_id (script_dev BLUEFIELD1_DEVICE_ID) <> BLUEFIELD2_DEVICE_ID
  /\ wp (crspace_rsh_gw_read bluefield_h
           (script_ops never (reads_as 0x11223344)) 1001 0x20)
        (script_dev BLUEFIELD1_DEVICE_ID)
        (fun r t _ =>
           forall v, r = Good v ->
             (exists k, (1 <= k)%nat
                /\ at_layer 1 t =
                     lock_polls k
                     ++ gw_steps
                          (gw_read_mid
                             (0x20 + RSH_CHANNEL_BASE bluefield_h
                                       (RSHIM_CHANNEL bluefield_h))))
             /\ exists ws w, words_read t = ws ++ [w] /\ v = ntohl w).
Proof.
  assert (H1 : 0 <= LOCK_RETRY_CNT bluefield_h < 2 ^ 31 - 1) by (cbn; lia).
  assert (H2 : (Z.to_nat (LOCK_RETRY_CNT bluefield_h) < 1001)%nat)
    by (apply Nat.ltb_lt; vm_compute; reflexivity).
  split; [exact H1|]. split; [exact H2|].
  assert (H3 : device_id (script_dev BLUEFIELD1_DEVICE_ID)
               <> BLUEFIELD2_DEVICE_ID) by (cbn; discriminate).
  split; [exact H3|].
  exact (legacy_gateway_read_protocol script bluefield_h
           (script_ops never (reads_as 0x11223344)) 1001 H1 H2
           (script_dev BLUEFIELD1_DEVICE_ID) 0x20 H3).
Defined.

Example gateway_read_swaps_bytes :
  exists d',
    crspace_rsh_gw_read bluefield_h (script_ops never (reads_as 0x11223344))
      1001 (RSH_SCRATCHPAD bluefield_h) (script_dev BLUEFIELD1_DEVICE_ID)
    = Some (Good 0x44332211, d')
    /\ words_read (trace d') = [0x11223344; 0x11223344].
Proof. eexists. split; vm_compute; reflexivity. Qed.

(** ** Polling loops that give up *)

Lemma in_app_not {A} (x : A) (t u : list A) :
  ~ In x t -> In x (t ++ u) -> In x u.
Proof. intros N H. apply in_app_or in H. tauto. Qed.

Lemma within_not_above id n f t :
  within id n t -> (n < layer (Call f []))%nat -> ~ In (TimedOut f) t.
Proof.
  intros W L H. unfold within in W. rewrite forallb_forall in W.
  specialize (W _ H). apply andb_prop in W as (_ & O).
  apply Nat.leb_le in O. cbn [origin] in O. lia.
Qed.

Section GiveUp.

Variable K : rshim_h.
Variable hw : Type.
Variable ops : pci_ops hw.
Variable fuel : nat.
Hypothesis Hcnt : 0 <= LOCK_RETRY_CNT K < 2 ^ 31 - 1.
Hypothesis Hfuel : (Z.to_nat (LOCK_RETRY_CNT K) < fuel)%nat.

Lemma quiet_pci_cap_read off d :
  wp (pci_cap_read ops off) d
     (fun r t _ => at_layer 1 t = [Call f_pci_cap_read [off]]
                   /\ forall f, ~ In (TimedOut f) t).
Proof.
  unfold pci_cap_read.
  apply wp_bind, wp_emit. intros d1 _.
  apply wp_bind, wp_pci_write_long. intros d2 _ _ rc.
  destruct (rc <? 0).
  - apply wp_ret. split; [reflexivity|].
    intros f [H|[H|[]]]; discriminate H.
  - apply wp_bind, wp_pci_read_long. intros d3 _ _ data ok.
    apply wp_ret. split; [reflexivity|].
    intros f [H|[H|[H|[]]]]; discriminate H.
Qed.

Lemma quiet_pci_cap_write off value d :
  wp (pci_cap_write ops off value) d
     (fun r t _ => forall f, ~ In (TimedOut f) t).
Proof.
  unfold pci_cap_write.
  apply wp_bind, wp_emit. intros d1 _.
  apply wp_bind, wp_pci_write_long. intros d2 _ _ rc.
  destruct (rc <? 0).
  - apply wp_ret. intros f [H|[H|[]]]; discriminate H.
  - apply wp_bind, wp_pci_write_long. intros d3 _ _ rc'.
    destruct (rc' <? 0); apply wp_ret;
      intros f [H|[H|[H|[]]]]; discriminate H.
Qed.

Lemma gives_up_trio_cr_gw_lock_wait n : forall retry d,
  0 <= retry <= LOCK_RETRY_CNT K ->
  (Z.to_nat (LOCK_RETRY_CNT K - retry) < n)%nat ->
  wp (trio_cr_gw_lock_wait K ops n retry) d
     (fun r t _ =>
        In (TimedOut f_trio_cr_gw_lock_acquire) t ->
        r = Fail (- ETIMEDOUT)
        /\ at_layer 1 t
           = lock_polls (Z.to_nat (LOCK_RETRY_CNT K + 1 - retry))).
Proof.
  induction n as [|n IH]; intros retry d Hr Hn; [lia|].
  cbn [trio_cr_gw_lock_wait].
  apply wp_bind_rc. eapply wp_conseq; [apply quiet_pci_cap_read|].
  intros [rc|v] t1 d1 _ (A1 & Q1).
  - intros H. now apply Q1 in H.
  - rewrite (u32_small (retry + 1)), (u32_small (LOCK_RETRY_CNT K))
      by (change (2 ^ 32) with 4294967296; lia).
    destruct (retry + 1 >? LOCK_RETRY_CNT K) eqn:E.
    + apply wp_bind, wp_emit. intros d2 _. apply wp_ret. intros _.
      split; [reflexivity|]. rewrite app_nil_r, at_layer_app, A1.
      replace (LOCK_RETRY_CNT K + 1 - retry) with 1 by lia. reflexivity.
    + destruct (Z.land v TRIO_CR_GW_LOCK_ACQUIRED =? 0).
      * apply wp_ret. rewrite app_nil_r. intros H. now apply Q1 in H.
      * eapply wp_conseq; [apply (IH (retry + 1)); lia|].
        intros r t2 d2 _ G H. apply in_app_not in H; [|apply Q1].
        destruct (G H) as (-> & A2). split; [reflexivity|].
        rewrite at_layer_app, A1, A2.
        replace (Z.to_nat (LOCK_RETRY_CNT K + 1 - retry))
          with (S (Z.to_nat (LOCK_RETRY_CNT K + 1 - (retry + 1)))) by lia.
        reflexivity.
Qed.

Lemma gives_up_trio_cr_gw_lock_acquire d :
  wp (trio_cr_gw_lock_acquire K ops fuel) d
     (fun r t _ =>
        In (TimedOut f_trio_cr_gw_lock_acquire) t ->
        r = Fail (- ETIMEDOUT)
        /\ at_layer 1 t = lock_polls (Z.to_nat (LOCK_RETRY_CNT K + 1))).
Proof.
  unfold trio_cr_gw_lock_acquire.
  apply wp_bind, wp_emit. intros d0 _.
  apply wp_bind_rc.
  eapply wp_conseq.
  - apply wp_and.
    + apply (gives_up_trio_cr_gw_lock_wait fuel 0); lia.
    + apply (stopping_trio_cr_gw_lock_wait K hw ops fuel Hcnt Hfuel fuel 0);
        lia.
  - intros [rc|[]] t1 d1 _ (G & S).
    + intros [H|H]; [discriminate H|].
      destruct (G H) as (E & A). split; [exact E|].
      rewrite at_layer_app, A, Z.sub_0_r. reflexivity.
    + eapply wp_conseq; [apply quiet_pci_cap_write|].
      intros r t2 d2 _ Q2 [H|H]; [discriminate H|]. cbn [app] in H.
      destruct (in_app_or _ _ _ H) as [H1|H2]; [|now apply Q2 in H2].
      exfalso. apply S. right. unfold timed_out.
      apply existsb_exists. exists (TimedOut f_trio_cr_gw_lock_acquire).
      split; [exact H1|reflexivity].
Qed.

Lemma cr_read_poll addr d :
  wp (crspace_rsh_gw_read K ops fuel addr) d
     (fun r t _ =>
        from_layer 3 t = [Call f_crspace_rsh_gw_read [addr]]
        /\ ~ In (TimedOut f_rshim_byte_acc_pending_wait) t
        /\ ~ In (TimedOut f_rshim_byte_acc_lock_acquire) t).
Proof.
  eapply wp_conseq.
  - apply wp_and.
    + now apply wp_cr_read.
    + apply (stays_crspace_rsh_gw_read K hw ops fuel Hcnt Hfuel
               (device_id d) 3 addr (Nat.le_refl 3) d eq_refl).
  - intros r t d' _ ((A & _) & W). split; [exact A|].
    split; apply (within_not_above _ _ _ _ W); cbn; lia.
Qed.

Lemma gives_up_pending_wait_loop n : forall retry d,
  0 <= retry <= LOCK_RETRY_CNT K ->
  (Z.to_nat (LOCK_RETRY_CNT K - retry) < n)%nat ->
  wp (pending_wait_loop K ops fuel n retry) d
     (fun r t _ =>
        In (TimedOut f_rshim_byte_acc_pending_wait) t ->
        r = Fail (- ETIMEDOUT)
        /\ from_layer 3 t
           = cr_polls (RSH_BYTE_ACC_CTL K)
               (Z.to_nat (LOCK_RETRY_CNT K + 1 - retry))).
Proof.
  induction n as [|n IH]; intros retry d Hr Hn; [lia|].
  cbn [pending_wait_loop].
  apply wp_bind_rc. eapply wp_conseq; [apply cr_read_poll|].
  intros [rc|v] t1 d1 _ (A1 & Q1 & _).
  - intros H. now apply Q1 in H.
  - rewrite (u32_small (retry + 1)), (u32_small (LOCK_RETRY_CNT K))
      by (change (2 ^ 32) with 4294967296; lia).
    destruct (retry + 1 >? LOCK_RETRY_CNT K) eqn:E.
    + apply wp_bind, wp_emit. intros d2 _. apply wp_ret. intros _.
      split; [reflexivity|]. rewrite app_nil_r, from_layer_app, A1.
      replace (LOCK_RETRY_CNT K + 1 - retry) with 1 by lia. reflexivity.
    + destruct (Z.land v (RSH_BYTE_ACC_PENDING K) =? 0).
      * apply wp_ret. rewrite app_nil_r. intros H. now apply Q1 in H.
      * eapply wp_conseq; [apply (IH (retry + 1)); lia|].
        intros r t2 d2 _ G H. apply in_app_not in H; [|exact Q1].
        destruct (G H) as (-> & A2). split; [reflexivity|].
        rewrite from_layer_app, A1, A2.
        replace (Z.to_nat (LOCK_RETRY_CNT K + 1 - retry))
          with (S (Z.to_nat (LOCK_RETRY_CNT K + 1 - (retry + 1)))) by lia.
        reflexivity.
Qed.

Lemma gives_up_interlock_loop n : forall retry d,
  0 <= retry <= LOCK_RETRY_CNT K ->
  (Z.to_nat (LOCK_RETRY_CNT K - retry) < n)%nat ->
  wp (interlock_loop K ops fuel n retry) d
     (fun r t _ =>
        In (TimedOut f_rshim_byte_acc_lock_acquire) t ->
        r = Fail (- ETIMEDOUT)
        /\ from_layer 3 t
           = cr_polls (RSH_BYTE_ACC_INTERLOCK K)
               (Z.to_nat (LOCK_RETRY_CNT K - retry))).
Proof.
  induction n as [|n IH]; intros retry d Hr Hn; [lia|].
  cbn [interlock_loop].
  rewrite (s32_small (retry + 1))
    by (change (2 ^ 31) with 2147483648 in *; lia).
  destruct (retry + 1 >? LOCK_RETRY_CNT K) eqn:E.
  - apply wp_bind, wp_emit. intros d2 _. apply wp_ret. intros _.
    split; [reflexivity|].
    replace (LOCK_RETRY_CNT K - retry) with 0 by lia. reflexivity.
  - apply wp_bind_rc. eapply wp_conseq; [apply cr_read_poll|].
    intros [rc|v] t1 d1 _ (A1 & _ & Q1).
    + intros H. now apply Q1 in H.
    + destruct (negb (Z.land v 1 =? 0)).
      * apply wp_ret. rewrite app_nil_r. intros H. now apply Q1 in H.
      * eapply wp_conseq; [apply (IH (retry + 1)); lia|].
        intros r t2 d2 _ G H. apply in_app_not in H; [|exact Q1].
        destruct (G H) as (-> & A2). split; [reflexivity|].
        rewrite from_layer_app, A1, A2.
        replace (Z.to_nat (LOCK_RETRY_CNT K - retry))
          with (S (Z.to_nat (LOCK_RETRY_CNT K - (retry + 1)))) by lia.
        reflexivity.
Qed.

End GiveUp.

(** X3: how often a polling loop polls before it gives up.  The gateway
    lock acquire that gives up has read the lock register exactly
    [LOCK_RETRY_CNT + 1] times and has not written it; the pending-bit
    wait that gives up has read ACC_CTL exactly [LOCK_RETRY_CNT + 1]
    times; the interlock acquire that gives up has read the interlock
    register exactly [LOCK_RETRY_CNT] times, one time less.  Each returns
    [-ETIMEDOUT].  In the first two the last read is made but its answer
    is not looked at. *)
Theorem polls_before_giving_up :
  forall hw (K : rshim_h) (ops : pci_ops hw) (fuel : nat),
    0 <= LOCK_RETRY_CNT K < 2 ^ 31 - 1 ->
    (Z.to_nat (LOCK_RETRY_CNT K) < fuel)%nat ->
    forall d : pci_dev hw,
      wp (trio_cr_gw_lock_acquire K ops fuel) d
         (fun r t _ =>
            In (TimedOut f_trio_cr_gw_lock_acquire) t ->
            r = Fail (- ETIMEDOUT)
            /\ at_layer 1 t = lock_polls (Z.to_nat (LOCK_RETRY_CNT K + 1)))
      /\ wp (rshim_byte_acc_pending_wait K ops fuel) d
            (fun r t _ =>
               In (TimedOut f_rshim_byte_acc_pending_wait) t ->
               r = Fail (- ETIMEDOUT)
               /\ from_layer 3 t
                  = Call f_rshim_byte_acc_pending_wait []
                    :: cr_polls (RSH_BYTE_ACC_CTL K)
                         (Z.to_nat (LOCK_RETRY_CNT K + 1)))
      /\ wp (rshim_byte_acc_lock_acquire K ops fuel) d
            (fun r t _ =>
               In (TimedOut f_rshim_byte_acc_lock_acquire) t ->
               r = Fail (- ETIMEDOUT)
               /\ from_layer 3 t
                  = Call f_rshim_byte_acc_lock_acquire []
                    :: cr_polls (RSH_BYTE_ACC_INTERLOCK K)
                         (Z.to_nat (LOCK_RETRY_CNT K))).
Proof.
  intros hw K ops fuel Hcnt Hfuel d. split; [|split].
  - now apply gives_up_trio_cr_gw_lock_acquire.
  - unfold rshim_byte_acc_pending_wait.
    apply wp_bind, wp_emit. intros d0 _.
    eapply wp_conseq;
      [apply (gives_up_pending_wait_loop K hw ops fuel Hcnt Hfuel fuel 0); lia|].
    intros r t d1 _ G [H|H]; [discriminate H|].
    destruct (G H) as (-> & A). split; [reflexivity|].
    rewrite from_layer_app, A, Z.sub_0_r. reflexivity.
  - unfold rshim_byte_acc_lock_acquire.
    apply wp_bind, wp_emit. intros d0 _.
    eapply wp_conseq;
      [apply (gives_up_interlock_loop K hw ops fuel Hcnt Hfuel fuel 0); lia|].
    intros r t d1 _ G [H|H]; [discriminate H|].
    destruct (G H) as (-> & A). split; [reflexivity|].
    rewrite from_layer_app, A, Z.sub_0_r. reflexivity.
Qed.

Lemma polls_before_giving_up_witness :
  (0 <= LOCK_RETRY_CNT bluefield_h < 2 ^ 31 - 1)
  /\ (Z.to_nat (LOCK_RETRY_CNT bluefield_h) < 1001)%nat
  /\ wp (trio_cr_gw_lock_acquire bluefield_h stuck_ops 1001)
        (script_dev BLUEFIELD1_DEVICE_ID)
        (fun r t _ =>
           In (TimedOut f_trio_cr_gw_lock_acquire) t ->
           r = Fail (- ETIMEDOUT)
           /\ at_layer 1 t
              = lock_polls (Z.to_nat (LOCK_RETRY_CNT bluefield_h + 1))).
Proof.
  assert (H1 : 0 <= LOCK_RETRY_CNT bluefield_h < 2 ^ 31 - 1) by (cbn; lia).
  assert (H2 : (Z.to_nat (LOCK_RETRY_CNT bluefield_h) < 1001)%nat)
    by (apply Nat.ltb_lt; vm_compute; reflexivity).
  split; [exact H1|]. split; [exact H2|].
  exact (proj1 (polls_before_giving_up script bluefield_h stuck_ops 1001
                  H1 H2 (script_dev BLUEFIELD1_DEVICE_ID))).
Defined.

(** A lock that is never free: 1001 reads of the lock register, no
    write, [-ETIMEDOUT]. *)
Example stuck_lock_is_read_1001_times :
  exists d',
    trio_cr_gw_lock_acquire bluefield_h stuck_ops 1001
      (script_dev BLUEFIELD1_DEVICE_ID)
    = Some (Fail (- ETIMEDOUT), d')
    /\ last (trace d') (Call f_trio_cr_gw_lock_acquire [])
       = TimedOut f_trio_cr_gw_lock_acquire
    /\ length (at_layer 1 (trace d')) = 1001%nat
    /\ occurrences lock_acquire_write (trace d') = 0%nat.
Proof.
  eexists. split; [vm_compute; reflexivity|].
  split; [|split]; vm_compute; reflexivity.
Qed.

(** ** The configuration transactions of a call *)

Lemma transactions_app t u :
  transactions (t ++ u) = transactions t + transactions u.
Proof.
  unfold transactions. rewrite filter_app, length_app. lia.
Qed.

Lemma transactions_nonneg t : 0 <= transactions t.
Proof. unfold transactions. lia. Qed.

Section Costs.

Variable hw : Type.

Lemma costs_le {A} (m : M hw A) b b' : b <= b' -> costs m b -> costs m b'.
Proof.
  intros H Hm d. eapply wp_conseq; [apply Hm|].
  intros r t d' _ L. cbn in *. lia.
Qed.

Lemma costs_ret {A} (a : A) : costs (ret a : M hw A) 0.
Proof. intros d. apply wp_ret. reflexivity. Qed.

Lemma costs_bind {A B} (m : M hw A) (k : A -> M hw B) b1 b2 :
  costs m b1 -> (forall a, costs (k a) b2) -> costs (bind m k) (b1 + b2).
Proof.
  intros Hm Hk d. apply wp_bind. eapply wp_conseq; [apply Hm|].
  intros a t1 d1 _ L1. eapply wp_conseq; [apply Hk|].
  intros b t2 d2 _ L2. cbn in *. rewrite transactions_app. lia.
Qed.

Lemma costs_bind_rc {A B} (m : M hw (rc_or A)) (k : A -> M hw (rc_or B))
    b1 b2 :
  0 <= b2 ->
  costs m b1 -> (forall a, costs (k a) b2) -> costs (bind_rc m k) (b1 + b2).
Proof.
  intros H Hm Hk. unfold bind_rc. apply costs_bind; [exact Hm|].
  intros [rc|a]; [|apply Hk].
  eapply costs_le; [|apply costs_ret]. exact H.
Qed.

Lemma costs_call {A} f xs (m : M hw A) b :
  costs m b -> costs (bind (emit (Call f xs)) (fun _ => m)) b.
Proof.
  intros Hm d. apply wp_bind, wp_emit. intros d1 _.
  eapply wp_conseq; [apply Hm|]. intros r t d2 _ L. exact L.
Qed.

Lemma costs_timeout {A} f rc :
  costs (bind (emit (TimedOut f)) (fun _ => ret (Fail rc : rc_or A))
          : M hw (rc_or A)) 0.
Proof.
  intros d. apply wp_bind, wp_emit. intros d1 _. apply wp_ret. reflexivity.
Qed.

Lemma costs_get_device_id {A} (k : Z -> M hw A) b :
  (forall id, costs (k id) b) -> costs (bind get_device_id k) b.
Proof.
  intros Hk d. apply wp_bind, wp_get_device_id. apply Hk.
Qed.

End Costs.

Section StackCosts.

Variable K : rshim_h.
Variable hw : Type.
Variable ops : pci_ops hw.
Variable fuel : nat.
Hypothesis Hcnt : 0 <= LOCK_RETRY_CNT K < 2 ^ 31 - 1.
Hypothesis Hfuel : (Z.to_nat (LOCK_RETRY_CNT K) < fuel)%nat.

Local Abbreviation N := (LOCK_RETRY_CNT K).
Local Abbreviation G := (gw_cost K).

Lemma costs_pci_cap_read off : costs (pci_cap_read ops off) 2.
Proof.
  intros d. unfold pci_cap_read.
  apply wp_bind, wp_emit. intros d1 _.
  apply wp_bind, wp_pci_write_long. intros d2 _ _ rc.
  destruct (rc <? 0); [apply wp_ret; cbn; lia|].
  apply wp_bind, wp_pci_read_long. intros d3 _ _ data ok.
  apply wp_ret. cbn. lia.
Qed.

Lemma costs_pci_cap_write off value : costs (pci_cap_write ops off value) 2.
Proof.
  intros d. unfold pci_cap_write.
  apply wp_bind, wp_emit. intros d1 _.
  apply wp_bind, wp_pci_write_long. intros d2 _ _ rc.
  destruct (rc <? 0); [apply wp_ret; cbn; lia|].
  apply wp_bind, wp_pci_write_long. intros d3 _ _ rc'.
  destruct (rc' <? 0); apply wp_ret; cbn; lia.
Qed.

Lemma costs_trio_cr_gw_lock_wait n : forall retry,
  0 <= retry <= N ->
  (Z.to_nat (N - retry) < n)%nat ->
  costs (trio_cr_gw_lock_wait K ops n retry) (2 * (N + 1 - retry)).
Proof.
  induction n as [|n IH]; intros retry Hr Hn; [lia|].
  cbn [trio_cr_gw_lock_wait].
  rewrite (u32_small (retry + 1)), (u32_small N)
    by (change (2 ^ 32) with 4294967296; lia).
  replace (2 * (N + 1 - retry)) with (2 + 2 * (N - retry)) by lia.
  apply costs_bind_rc; [lia|apply costs_pci_cap_read|]. intros v.
  destruct (retry + 1 >? N) eqn:E.
  - eapply costs_le; [|apply costs_timeout]. lia.
  - destruct (Z.land v TRIO_CR_GW_LOCK_ACQUIRED =? 0).
    + eapply costs_le; [|apply costs_ret]. lia.
    + eapply costs_le; [|apply (IH (retry + 1)); lia]. lia.
Qed.

Lemma costs_trio_cr_gw_lock_acquire :
  costs (trio_cr_gw_lock_acquire K ops fuel) (2 * N + 4).
Proof.
  unfold trio_cr_gw_lock_acquire. apply costs_call.
  replace (2 * N + 4) with (2 * (N + 1 - 0) + 2) by lia.
  apply costs_bind_rc; [lia|apply costs_trio_cr_gw_lock_wait; lia|].
  intros _. apply costs_pci_cap_write.
Qed.

Lemma costs_trio_cr_gw_lock_release :
  costs (trio_cr_gw_lock_release ops) 2.
Proof.
  unfold trio_cr_gw_lock_release. apply costs_call, costs_pci_cap_write.
Qed.

Ltac two_more :=
  first [ apply costs_pci_cap_write | apply costs_pci_cap_read
        | apply costs_trio_cr_gw_lock_release ].

Lemma costs_crspace_rsh_gw_read addr :
  costs (crspace_rsh_gw_read K ops fuel addr) G.
Proof.
  unfold crspace_rsh_gw_read, gw_cost. apply costs_call.
  apply costs_get_device_id. intros id.
  destruct (id =? BLUEFIELD2_DEVICE_ID).
  - eapply costs_le; [|apply costs_pci_cap_read]. lia.
  - replace (2 * N + 14) with ((2 * N + 4) + (2 + (2 + (2 + (2 + (2 + 0))))))
      by lia.
    apply costs_bind_rc; [lia|apply costs_trio_cr_gw_lock_acquire|].
    intros _. repeat (apply costs_bind_rc; [lia|two_more|intros ?]).
    apply costs_ret.
Qed.

Lemma costs_crspace_rsh_gw_write addr value :
  costs (crspace_rsh_gw_write K ops fuel addr value) G.
Proof.
  unfold crspace_rsh_gw_write, gw_cost. apply costs_call.
  apply costs_get_device_id. intros id.
  destruct (id =? BLUEFIELD2_DEVICE_ID).
  - eapply costs_le; [|apply costs_pci_cap_write]. lia.
  - replace (2 * N + 14) with ((2 * N + 4) + (2 + (2 + (2 + (2 + (2 + 0))))))
      by lia.
    apply costs_bind_rc; [lia|apply costs_trio_cr_gw_lock_acquire|].
    intros _. repeat (apply costs_bind_rc; [lia|two_more|intros ?]).
    apply costs_ret.
Qed.

Lemma gw_cost_pos : 0 < G.
Proof. unfold gw_cost. lia. Qed.

Lemma costs_pending_wait_loop n : forall retry,
  0 <= retry <= N ->
  (Z.to_nat (N - retry) < n)%nat ->
  costs (pending_wait_loop K ops fuel n retry) ((N + 1 - retry) * G).
Proof.
  pose proof gw_cost_pos as P.
  induction n as [|n IH]; intros retry Hr Hn; [lia|].
  cbn [pending_wait_loop].
  rewrite (u32_small (retry + 1)), (u32_small N)
    by (change (2 ^ 32) with 4294967296; lia).
  replace ((N + 1 - retry) * G) with (G + (N - retry) * G) by lia.
  apply costs_bind_rc; [nia|apply costs_crspace_rsh_gw_read|]. intros v.
  destruct (retry + 1 >? N) eqn:E.
  - eapply costs_le; [|apply costs_timeout]. nia.
  - destruct (Z.land v (RSH_BYTE_ACC_PENDING K) =? 0).
    + eapply costs_le; [|apply costs_ret]. nia.
    + eapply costs_le; [|apply (IH (retry + 1)); lia]. lia.
Qed.

Lemma costs_rshim_byte_acc_pending_wait :
  costs (rshim_byte_acc_pending_wait K ops fuel) ((N + 1) * G).
Proof.
  unfold rshim_byte_acc_pending_wait. apply costs_call.
  eapply costs_le; [|apply (costs_pending_wait_loop fuel 0); lia]. lia.
Qed.

Lemma costs_interlock_loop n : forall retry,
  0 <= retry <= N ->
  (Z.to_nat (N - retry) < n)%nat ->
  costs (interlock_loop K ops fuel n retry) ((N - retry) * G).
Proof.
  pose proof gw_cost_pos as P.
  induction n as [|n IH]; intros retry Hr Hn; [lia|].
  cbn [interlock_loop].
  rewrite (s32_small (retry + 1))
    by (change (2 ^ 31) with 2147483648 in *; lia).
  destruct (retry + 1 >? N) eqn:E.
  - eapply costs_le; [|apply costs_timeout]. nia.
  - replace ((N - retry) * G) with (G + (N - (retry + 1)) * G) by lia.
    apply costs_bind_rc; [nia|apply costs_crspace_rsh_gw_read|]. intros v.
    destruct (negb (Z.land v 1 =? 0)).
    + eapply costs_le; [|apply costs_ret]. nia.
    + apply IH; lia.
Qed.

Lemma costs_rshim_byte_acc_lock_acquire :
  costs (rshim_byte_acc_lock_acquire K ops fuel) (N * G).
Proof.
  unfold rshim_byte_acc_lock_acquire. apply costs_call.
  eapply costs_le; [|apply (costs_interlock_loop fuel 0); lia]. lia.
Qed.

Lemma costs_rshim_byte_acc_lock_release :
  costs (rshim_byte_acc_lock_release K ops fuel) G.
Proof.
  unfold rshim_byte_acc_lock_release.
  apply costs_call, costs_crspace_rsh_gw_write.
Qed.

Ltac one_step :=
  first [ apply costs_crspace_rsh_gw_write
        | apply costs_crspace_rsh_gw_read
        | apply costs_rshim_byte_acc_pending_wait ].

Lemma costs_byte_acc_read_body addr :
  costs (byte_acc_read_body K ops fuel addr) ((2 * N + 6) * G).
Proof.
  pose proof gw_cost_pos as P.
  unfold byte_acc_read_body.
  replace ((2 * N + 6) * G)
    with (G + (G + ((N + 1) * G + (G + ((N + 1) * G + (G + 0)))))) by lia.
  repeat (apply costs_bind_rc; [nia|one_step|intros ?]).
  apply costs_ret.
Qed.

Lemma costs_byte_acc_write_body value :
  costs (byte_acc_write_body K ops fuel value) ((N + 4) * G).
Proof.
  pose proof gw_cost_pos as P.
  unfold byte_acc_write_body.
  replace ((N + 4) * G) with (G + (G + ((N + 1) * G + G))) by lia.
  repeat (apply costs_bind_rc; [nia|one_step|intros ?]).
  apply costs_crspace_rsh_gw_write.
Qed.

Lemma costs_rshim_byte_acc_read addr :
  costs (rshim_byte_acc_read K ops fuel addr) ((4 * N + 8) * G).
Proof.
  pose proof gw_cost_pos as P.
  unfold rshim_byte_acc_read. apply costs_call.
  replace ((4 * N + 8) * G)
    with ((N + 1) * G + (N * G + ((2 * N + 6) * G + G))) by lia.
  apply costs_bind; [apply costs_rshim_byte_acc_pending_wait|].
  intros [rc|[]]; [eapply costs_le; [|apply costs_ret]; nia|].
  apply costs_get_device_id. intros id.
  apply costs_bind.
  { destruct (id =? BLUEFIELD2_DEVICE_ID);
      [apply costs_rshim_byte_acc_lock_acquire|].
    eapply costs_le; [|apply costs_ret]. nia. }
  intros [rc|[]]; [eapply costs_le; [|apply costs_ret]; nia|].
  apply costs_bind; [apply costs_byte_acc_read_body|]. intros r.
  destruct (id =? BLUEFIELD2_DEVICE_ID).
  - eapply costs_le;
      [|apply costs_bind;
        [apply costs_rshim_byte_acc_lock_release
        |intros rc; apply costs_ret]].
    lia.
  - eapply costs_le; [|apply costs_ret]. lia.
Qed.

Lemma costs_rshim_byte_acc_write addr value :
  costs (rshim_byte_acc_write K ops fuel addr value) ((2 * N + 6) * G).
Proof.
  pose proof gw_cost_pos as P.
  unfold rshim_byte_acc_write. apply costs_call.
  apply costs_get_device_id. intros id.
  replace ((2 * N + 6) * G) with (N * G + (G + ((N + 4) * G + G))) by lia.
  apply costs_bind_rc; [nia| |intros _].
  { destruct (id =? BLUEFIELD2_DEVICE_ID);
      [apply costs_rshim_byte_acc_lock_acquire|].
    eapply costs_le; [|apply costs_ret]. nia. }
  apply costs_bind_rc; [nia|apply costs_crspace_rsh_gw_write|intros _].
  apply costs_bind; [apply costs_byte_acc_write_body|]. intros rc.
  destruct (id =? BLUEFIELD2_DEVICE_ID).
  - apply costs_rshim_byte_acc_lock_release.
  - eapply costs_le; [|apply costs_ret]. lia.
Qed.

Lemma costs_rshim_boot_fifo_write addr value :
  costs (rshim_boot_fifo_write K ops fuel addr value) (2 * G).
Proof.
  pose proof gw_cost_pos as P.
  unfold rshim_boot_fifo_write. apply costs_call.
  replace (2 * G) with (G + (G + 0)) by lia.
  repeat (apply costs_bind_rc; [lia|one_step|intros ?]).
  apply costs_ret.
Qed.

Lemma costs_rshim_pcie_read chan addr dev :
  exists r t dev',
    returnsD (rshim_pcie_read K ops fuel chan addr) dev r t dev'
    /\ transactions t <= (4 * N + 8) * G.
Proof.
  pose proof gw_cost_pos as P.
  remember ((4 * N + 8) * G) as B eqn:HB.
  unfold rshim_pcie_read, returnsD. cbn.
  destruct (has_rshim dev) eqn:Hr; cbn.
  - set (dev1 := set_write_count 0 _).
    destruct (returnsD_on_pci hw _ dev1 _
                (costs_rshim_byte_acc_read
                   (RSH_CHANNEL_BASE K chan + addr) (pci dev1)))
      as (r & t & dev' & (E & H1 & H2 & H3) & _ & L).
    exists r, ([Call f_rshim_pcie_read [chan; addr]] ++ t), dev'.
    split.
    + rewrite E, H1, H2, H3. cbn. rewrite <- app_assoc. auto.
    + rewrite transactions_app.
      change (transactions [Call f_rshim_pcie_read [chan; addr]]) with 0.
      cbn beta in L. subst B. lia.
  - eexists _, [Call f_rshim_pcie_read [chan; addr]], _.
    split; [split; [reflexivity|]|]; cbn [has_rshim pci device_id trace];
      auto.
    change (transactions [Call f_rshim_pcie_read [chan; addr]]) with 0.
    subst B. nia.
Qed.

Lemma costs_write_throttle chan dev :
  exists t dev',
    returnsD (write_throttle K ops fuel chan) dev tt t dev'
    /\ transactions t <= (4 * N + 8) * G.
Proof.
  pose proof gw_cost_pos as P.
  unfold returnsD, write_throttle.
  destruct (device_id (pci dev) =? BLUEFIELD1_DEVICE_ID).
  - destruct (write_count dev =? 7).
    + destruct (costs_rshim_pcie_read chan (RSH_SCRATCHPAD K) dev)
        as (r & t & dev' & (E1 & H1 & H2 & H3) & L).
      rewrite E1.
      exists t, (set_write_count (u8 (write_count dev' + 1)) dev').
      split; [repeat split; auto|exact L].
    + exists [], (set_write_count (u8 (write_count dev + 1)) dev).
      split; [repeat split; cbn; auto; now rewrite app_nil_r|].
      change (transactions []) with 0. nia.
  - exists [], dev.
    split; [repeat split; cbn; auto; now rewrite app_nil_r|].
    change (transactions []) with 0. nia.
Qed.

Lemma costs_rshim_pcie_write chan addr value dev :
  exists r t dev',
    returnsD (rshim_pcie_write K ops fuel chan addr value) dev r t dev'
    /\ transactions t <= (6 * N + 14) * G.
Proof.
  pose proof gw_cost_pos as P.
  unfold returnsD, rshim_pcie_write.
  cbn [on_pci emit pci has_rshim write_count device_id bus trace].
  destruct (has_rshim dev) eqn:Hr; cbn [negb].
  - match goal with
    | |- context [write_throttle K ops fuel chan ?x] => set (dev0 := x)
    end.
    destruct (costs_write_throttle chan dev0)
      as (t1 & dev1 & (E1 & H1 & H2 & H3) & L1).
    rewrite E1. cbn in H1, H2, H3.
    destruct (addr =? RSH_BOOT_FIFO_DATA K).
    + destruct (returnsD_on_pci hw _ dev1 _
                  (costs_rshim_boot_fifo_write
                     (RSH_CHANNEL_BASE K chan + addr) value (pci dev1)))
        as (r & t & dev' & (E & G1 & G2 & G3) & _ & L).
      exists r, ([Call f_rshim_pcie_write [chan; addr; value]] ++ t1 ++ t),
        dev'.
      split; [|rewrite !transactions_app;
               change (transactions [Call f_rshim_pcie_write [chan; addr; value]])
                 with 0;
               cbn beta in L; nia].
      rewrite E, G1, G2, G3, H1, H2, H3. rewrite <- !app_assoc. auto.
    + destruct (returnsD_on_pci hw _ dev1 _
                  (costs_rshim_byte_acc_write
                     (RSH_CHANNEL_BASE K chan + addr) value (pci dev1)))
        as (r & t & dev' & (E & G1 & G2 & G3) & _ & L).
      exists r, ([Call f_rshim_pcie_write [chan; addr; value]] ++ t1 ++ t),
        dev'.
      split; [|rewrite !transactions_app;
               change (transactions [Call f_rshim_pcie_write [chan; addr; value]])
                 with 0;
               cbn beta in L; nia].
      rewrite E, G1, G2, G3, H1, H2, H3. rewrite <- !app_assoc. auto.
  - eexists _, [Call f_rshim_pcie_write [chan; addr; value]], _.
    split; [cbn; auto 10|].
    change (transactions [Call f_rshim_pcie_write [chan; addr; value]]) with 0.
    nia.
Qed.

End StackCosts.

(** X18: the cost of a call.  With [N] the retry bound and
    [G = 2 N + 14] the most a CR-space access costs, every
    [rshim_pcie_read] returns after at most [(4 N + 8) G] calls of
    [pci_write_long] and [pci_read_long], and every [rshim_pcie_write]
    after at most [(6 N + 14) G], whatever the bus answers; a boot FIFO
    write itself costs at most [2 G]. *)
Theorem dispatcher_call_is_bounded :
  forall hw (K : rshim_h) (ops : pci_ops hw) (fuel : nat),
    0 <= LOCK_RETRY_CNT K < 2 ^ 31 - 1 ->
    (Z.to_nat (LOCK_RETRY_CNT K) < fuel)%nat ->
    forall (dev : rshim_pcie hw) (chan addr value : Z),
      (exists r t dev',
          returnsD (rshim_pcie_read K ops fuel chan addr) dev r t dev'
          /\ transactions t <= (4 * LOCK_RETRY_CNT K + 8) * gw_cost K)
      /\ (exists r t dev',
             returnsD (rshim_pcie_write K ops fuel chan addr value)
               dev r t dev'
             /\ transactions t <= (6 * LOCK_RETRY_CNT K + 14) * gw_cost K)
      /\ costs (rshim_boot_fifo_write K ops fuel addr value) (2 * gw_cost K).
Proof.
  intros hw K ops fuel Hcnt Hfuel dev chan addr value.
  split; [now apply costs_rshim_pcie_read|].
  split; [now apply costs_rshim_pcie_write|].
  now apply costs_rshim_boot_fifo_write.
Qed.

Lemma dispatcher_call_is_bounded_witness :
  (0 <= LOCK_RETRY_CNT bluefield_h < 2 ^ 31 - 1)
  /\ (Z.to_nat (LOCK_RETRY_CNT bluefield_h) < 1001)%nat
  /\ exists r t dev',
       returnsD (rshim_pcie_read bluefield_h stuck_ops 1001 0 0x20)
         quiet_legacy r t dev'
       /\ transactions t
          <= (4 * LOCK_RETRY_CNT bluefield_h + 8) * gw_cost bluefield_h.
Proof.
  assert (H1 : 0 <= LOCK_RETRY_CNT bluefield_h < 2 ^ 31 - 1) by (cbn; lia).
  assert (H2 : (Z.to_nat (LOCK_RETRY_CNT bluefield_h) < 1001)%nat)
    by (apply Nat.ltb_lt; vm_compute; reflexivity).
  split; [exact H1|]. split; [exact H2|].
  exact (proj1 (dispatcher_call_is_bounded script bluefield_h stuck_ops 1001
                  H1 H2 quiet_legacy 0 0x20 0)).
Defined.

(** * The probe and the bus scan *)

Lemma below_256 (P : Z -> bool) :
  forallb (fun n => P (Z.of_nat n)) (seq 0 256) = true ->
  forall x, 0 <= x < 256 -> P x = true.
Proof.
  intros H x Hx. rewrite forallb_forall in H.
  specialize (H (Z.to_nat x)). rewrite Z2Nat.id in H by lia.
  apply H, in_seq. lia.
Qed.

Lemma fmt_02x_length x : 0 <= x < 256 -> length (Probe.fmt_02x x) = 2%nat.
Proof.
  intros H.
  apply (below_256 (fun x => Nat.eqb (length (Probe.fmt_02x x)) 2)) in H;
    [now apply Nat.eqb_eq in H | vm_compute; reflexivity].
Qed.

Lemma fmt_d_length x : 0 <= x < 256 -> (length (Probe.fmt_d x) <= 3)%nat.
Proof.
  intros H.
  apply (below_256 (fun x => Nat.leb (length (Probe.fmt_d x)) 3)) in H;
    [now apply Nat.leb_le in H | vm_compute; reflexivity].
Qed.

(** A format is one-to-one below 256 when no two of the 256 results are
    the same. *)
Lemma below_256_distinct (f : Z -> list Ascii.ascii) :
  forallb (fun n =>
    forallb (fun m =>
      if list_eq_dec Ascii.ascii_dec (f (Z.of_nat n)) (f (Z.of_nat m))
      then Nat.eqb n m else true) (seq 0 256)) (seq 0 256) = true ->
  forall x y, 0 <= x < 256 -> 0 <= y < 256 -> f x = f y -> x = y.
Proof.
  intros H x y Hx Hy E. rewrite forallb_forall in H.
  specialize (H (Z.to_nat x)). rewrite forallb_forall in H.
  specialize (H ltac:(apply in_seq; lia) (Z.to_nat y)
                ltac:(apply in_seq; lia)).
  rewrite !Z2Nat.id in H by lia.
  destruct (list_eq_dec Ascii.ascii_dec (f x) (f y)) as [_|N];
    [|contradiction].
  apply Nat.eqb_eq in H. lia.
Qed.

Lemma fmt_02x_inj x y :
  0 <= x < 256 -> 0 <= y < 256 -> Probe.fmt_02x x = Probe.fmt_02x y -> x = y.
Proof. apply below_256_distinct. vm_compute. reflexivity. Qed.

Lemma fmt_d_inj x y :
  0 <= x < 256 -> 0 <= y < 256 -> Probe.fmt_d x = Probe.fmt_d y -> x = y.
Proof. apply below_256_distinct. vm_compute. reflexivity. Qed.

Lemma app_same_length {A} (a a' b b' : list A) :
  length a = length a' -> a ++ b = a' ++ b' -> a = a' /\ b = b'.
Proof.
  revert a'. induction a as [|x a IH]; intros [|x' a'] L E;
    try discriminate L; cbn in *; [auto|].
  injection E as -> E. injection L as L.
  destruct (IH a' L E) as (-> & ->). auto.
Qed.

Lemma formatted_length p :
  Probe.slot_ok p -> (length (Probe.formatted p) <= 14)%nat.
Proof.
  intros (Hb & Hd & Hf). unfold Probe.formatted.
  rewrite !length_app, !fmt_02x_length by assumption.
  pose proof (fmt_d_length _ Hf).
  repeat match goal with
    | |- context [length (Probe.chars ?s)] =>
        let n := eval vm_compute in (length (Probe.chars s)) in
        change (length (Probe.chars s)) with n
    end.
  lia.
Qed.

Lemma pcie_dev_name_whole p :
  Probe.slot_ok p -> Probe.pcie_dev_name 64 p = Probe.formatted p.
Proof.
  intros H. unfold Probe.pcie_dev_name. apply firstn_all2.
  pose proof (formatted_length p H). cbn [Nat.sub]. lia.
Qed.

(** X15: the name of a backend.  For slot numbers that are [u8] the
    name "pcie-bb:dd.f" has at most 14 characters, so that the 64 bytes
    allocated for it hold it whole, and two devices have the same name
    only if they have the same bus, device and function numbers: the
    lookup by name never takes one slot for another. *)
Theorem pcie_dev_name_tells_slots_apart :
  forall p q : Probe.pci_dev,
    Probe.slot_ok p -> Probe.slot_ok q ->
    (length (Probe.pcie_dev_name 64 p) <= 14)%nat
    /\ (Probe.pcie_dev_name 64 p = Probe.pcie_dev_name 64 q ->
        Probe.bus p = Probe.bus q /\ Probe.dev p = Probe.dev q
        /\ Probe.func p = Probe.func q).
Proof.
  intros p q Hp Hq.
  rewrite !pcie_dev_name_whole by assumption.
  split; [now apply formatted_length|]. unfold Probe.formatted. intros E.
  destruct Hp as (Hb & Hd & Hf), Hq as (Hb' & Hd' & Hf').
  apply app_inv_head in E.
  apply app_same_length in E as (E1 & E);
    [|now rewrite !fmt_02x_length].
  apply app_inv_head in E.
  apply app_same_length in E as (E2 & E);
    [|now rewrite !fmt_02x_length].
  apply app_inv_head in E.
  split; [now apply fmt_02x_inj|]. split; [now apply fmt_02x_inj|].
  now apply fmt_d_inj.
Qed.

Example pcie_dev_name_of_a_slot :
  Probe.pcie_dev_name 64 Probe.slot_3b_00_1 = Probe.name_3b_00_1.
Proof. reflexivity. Qed.

(** X13: the probe and the RShim core.  Whatever the lookup, [calloc],
    [rshim_register] and [rshim_notify] answer, the probe takes the
    core's lock only when it does not hold it and gives it back before it
    returns; it looks the name up, counts references and registers with
    the lock held, and notifies with the backend's mutex held and the
    lock released.  A probe that returns 0 keeps exactly one reference
    and calls [free] on nothing; a probe that fails has given back the
    reference it took, if it took one, and ends with the call of
    [free]. *)
Theorem probe_respects_the_core :
  forall (w : Probe.world) (p : Probe.pci_dev),
    let '(ret, _, t) := Probe.rshim_pcie_probe w p in
    Probe.disciplined false false t = true
    /\ Probe.references t = (if ret =? 0 then 1 else 0)
    /\ Probe.frees t = negb (ret =? 0)
    /\ (ret <> 0 ->
        exists b, last t Probe.rshim_lock = Probe.free_ b).
Proof.
  intros w p. unfold Probe.rshim_pcie_probe.
  destruct (Probe.found w _) as [dev0|].
  - unfold Probe.register. cbn [Probe.bd Probe.registered].
    destruct (Probe.registered (Probe.bd dev0)); cbn [negb].
    + unfold Probe.attach, Probe.rshim_map_failed.
      destruct (Probe.notify_ret w =? 0) eqn:N; cbn.
      * repeat split. intros H. now contradiction H.
      * rewrite N. repeat split. eauto.
    + destruct (Probe.register_ret w =? 0) eqn:R.
      * unfold Probe.attach, Probe.rshim_map_failed.
        destruct (Probe.notify_ret w =? 0) eqn:N; cbn.
        -- repeat split. intros H. now contradiction H.
        -- rewrite N. repeat split. eauto.
      * unfold Probe.rshim_map_failed. cbn. rewrite R. repeat split. eauto.
  - destruct (Probe.calloc_ok w); cbn [negb].
    + unfold Probe.register. cbn [Probe.bd Probe.registered Probe.zeroed negb].
      destruct (Probe.register_ret w =? 0) eqn:R.
      * unfold Probe.attach, Probe.rshim_map_failed.
        destruct (Probe.notify_ret w =? 0) eqn:N; cbn.
        -- repeat split. intros H. now contradiction H.
        -- rewrite N. repeat split. eauto.
      * unfold Probe.rshim_map_failed. cbn. rewrite R. repeat split. eauto.
    + cbn. repeat split. eauto.
Qed.

(** X14: the object a probe leaves and the buffer of its name.  When no
    backend of that name exists and [calloc] fails the probe returns
    [-ENOMEM] without an object and without having taken a reference.
    When [calloc] succeeds the object is the fresh one: [has_rshim] and
    [has_tm] set, the name and the three callbacks stored, the write
    counter 0, the device attached.  When a backend of that name exists
    the probe changes nothing of it but the device it points to; its
    write counter and its [has_rshim] are as before.  The buffer
    allocated for the name is passed to [free] exactly when the probe
    fails without [rshim_register] having returned 0 in it. *)
Theorem probe_object_and_name :
  forall (w : Probe.world) (p : Probe.pci_dev),
    let name := Probe.pcie_dev_name 64 p in
    let '(ret, obj, t) := Probe.rshim_pcie_probe w p in
    match Probe.found w name with
    | Some dev0 =>
        obj = Some {| Probe.bd := Probe.bd dev0; Probe.pci := Some p;
                      Probe.write_count := Probe.write_count dev0 |}
    | None =>
        if Probe.calloc_ok w then obj = Some (Probe.fresh name p)
        else obj = None /\ ret = - Probe.ENOMEM /\ Probe.references t = 0
    end
    /\ Probe.frees_buffer t
       = negb (ret =? 0) && negb (Probe.registers t).
Proof.
  intros w p name. unfold Probe.rshim_pcie_probe. fold name.
  destruct (Probe.found w name) as [dev0|].
  - unfold Probe.register. cbn [Probe.bd Probe.registered].
    destruct (Probe.registered (Probe.bd dev0)); cbn [negb];
      [|destruct (Probe.register_ret w =? 0) eqn:R];
      unfold Probe.attach, Probe.rshim_map_failed;
      try destruct (Probe.notify_ret w =? 0) eqn:N;
      cbn; rewrite ?R, ?N; cbn; auto.
  - destruct (Probe.calloc_ok w); cbn [negb]; [|cbn; auto].
    unfold Probe.register. cbn [Probe.bd Probe.registered Probe.zeroed negb].
    destruct (Probe.register_ret w =? 0) eqn:R;
      unfold Probe.attach, Probe.rshim_map_failed;
      try destruct (Probe.notify_ret w =? 0) eqn:N;
      cbn; rewrite ?R, ?N; cbn; auto.
Qed.

Lemma scan_filter core ask tell devices : forall s,
  Probe.scan core ask tell devices s
  = fold_left (fun s d => tell s (Probe.rshim_pcie_probe (ask s d) d))
      (filter Probe.is_bluefield devices) s.
Proof.
  induction devices as [|d next IH]; intros s; [reflexivity|].
  cbn [Probe.scan filter]. unfold Probe.is_bluefield at 1.
  destruct (Probe.vendor_id d =? TILERA_VENDOR_ID);
    destruct (Probe.device_id d =? BLUEFIELD1_DEVICE_ID);
    destruct (Probe.device_id d =? BLUEFIELD2_DEVICE_ID);
    cbn [negb orb andb fold_left]; apply IH.
Qed.

(** X16: the bus scan.  [rshim_pcie_lf_init] returns [-ENOMEM] without
    probing anything when [pci_alloc] fails, and 0 otherwise, whatever
    the probes return.  It probes, in the order of the device list,
    exactly the devices whose vendor id is 0x15b3 and whose device id is
    0x0211 or 0x0214, and no other.  For a probed device "not the newer
    revision" and "BlueField-1" are therefore the same. *)
Theorem scan_probes_the_bluefields :
  forall (core : Type) (ask : core -> Probe.pci_dev -> Probe.world)
         (tell : core -> Probe.outcome -> core)
         (devices : list Probe.pci_dev) (s : core),
    Probe.rshim_pcie_lf_init core ask tell None s = (- Probe.ENOMEM, s)
    /\ Probe.rshim_pcie_lf_init core ask tell (Some devices) s
       = (0, fold_left
               (fun s d => tell s (Probe.rshim_pcie_probe (ask s d) d))
               (filter Probe.is_bluefield devices) s)
    /\ forall d, In d (filter Probe.is_bluefield devices) ->
         Probe.vendor_id d = TILERA_VENDOR_ID
         /\ (Probe.device_id d <> BLUEFIELD2_DEVICE_ID
             <-> Probe.device_id d = BLUEFIELD1_DEVICE_ID).
Proof.
  intros core ask tell devices s. split; [reflexivity|]. split.
  - cbn. now rewrite scan_filter.
  - intros d H. apply filter_In in H as (_ & H).
    unfold Probe.is_bluefield in H. apply andb_prop in H as (V & I).
    apply Z.eqb_eq in V. split; [exact V|].
    apply orb_prop in I as [I|I]; apply Z.eqb_eq in I; rewrite I; split.
    + reflexivity.
    + intros _ H. discriminate H.
    + intros H. exfalso. now apply H.
    + intros H. discriminate H.
Qed.

(** A scan of four devices: the BlueField-2 and the BlueField-1 are
    probed, in this order; the device of another vendor with a BlueField
    id and the other device of the vendor are not. *)
Example scan_of_four_devices :
  let slot b v i :=
    {| Probe.bus := b; Probe.dev := 0; Probe.func := 0;
       Probe.vendor_id := v; Probe.device_id := i |} in
  let quiet (_ : list Z) (_ : Probe.pci_dev) :=
    {| Probe.found := fun _ => None; Probe.calloc_ok := true;
       Probe.register_ret := 0; Probe.notify_ret := 0 |} in
  let note (s : list Z) (o : Probe.outcome) :=
    match snd (fst o) with
    | Some obj =>
        match Probe.pci obj with
        | Some p => s ++ [Probe.bus p]
        | None => s
        end
    | None => s
    end in
  Probe.rshim_pcie_lf_init (list Z) quiet note
    (Some [slot 1 0x8086 BLUEFIELD1_DEVICE_ID;
           slot 2 TILERA_VENDOR_ID BLUEFIELD2_DEVICE_ID;
           slot 3 TILERA_VENDOR_ID 0x1017;
           slot 4 TILERA_VENDOR_ID BLUEFIELD1_DEVICE_ID]) []
  = (0, [2; 4]).
Proof. reflexivity. Qed.

(** The probe of a device no backend exists for, when everything
    succeeds. *)
Example probe_of_a_new_device :
  let p := Probe.slot_3b_00_1 in
  Probe.rshim_pcie_probe
    {| Probe.found := fun _ => None; Probe.calloc_ok := true;
       Probe.register_ret := 0; Probe.notify_ret := 0 |} p
  = (0, Some (Probe.fresh Probe.name_3b_00_1 p),
     [Probe.malloc_ 64; Probe.RSHIM_INFO Probe.name_3b_00_1;
      Probe.rshim_lock; Probe.rshim_find_by_name Probe.name_3b_00_1;
      Probe.calloc_; Probe.pthread_mutex_init; Probe.rshim_ref;
      Probe.rshim_unlock; Probe.rshim_lock; Probe.rshim_register 0;
      Probe.rshim_unlock; Probe.pthread_mutex_lock; Probe.rshim_notify 0;
      Probe.pthread_mutex_unlock]).
Proof. reflexivity. Qed.

(** The probe of a device whose backend exists and is registered: the
    buffer of the name is neither stored nor passed to [free]. *)
Example probe_of_a_known_device :
  let p := Probe.slot_3b_00_1 in
  let known := {|
    Probe.bd := {| Probe.has_rshim := true; Probe.has_tm := true;
                   Probe.dev_name := Some Probe.name_3b_00_1;
                   Probe.drv_name := None; Probe.read_rshim := None;
                   Probe.write_rshim := None; Probe.destroy := None;
                   Probe.registered := true |};
    Probe.pci := None;
    Probe.write_count := 5 |} in
  Probe.rshim_pcie_probe
    {| Probe.found := fun _ => Some known; Probe.calloc_ok := true;
       Probe.register_ret := 0; Probe.notify_ret := 0 |} p
  = (0, Some {| Probe.bd := Probe.bd known; Probe.pci := Some p;
                Probe.write_count := 5 |},
     [Probe.malloc_ 64; Probe.RSHIM_INFO Probe.name_3b_00_1;
      Probe.rshim_lock; Probe.rshim_find_by_name Probe.name_3b_00_1;
      Probe.rshim_ref; Probe.rshim_unlock; Probe.rshim_lock;
      Probe.rshim_unlock; Probe.pthread_mutex_lock; Probe.rshim_notify 0;
      Probe.pthread_mutex_unlock]).
Proof. reflexivity. Qed.

Lemma pcie_dev_name_tells_slots_apart_witness :
  Probe.slot_ok Probe.slot_3b_00_1 /\ Probe.slot_ok Probe.slot_3b_00_0
  /\ (length (Probe.pcie_dev_name 64 Probe.slot_3b_00_1) <= 14)%nat
  /\ (Probe.pcie_dev_name 64 Probe.slot_3b_00_1
      = Probe.pcie_dev_name 64 Probe.slot_3b_00_0 ->
      Probe.bus Probe.slot_3b_00_1 = Probe.bus Probe.slot_3b_00_0
      /\ Probe.dev Probe.slot_3b_00_1 = Probe.dev Probe.slot_3b_00_0
      /\ Probe.func Probe.slot_3b_00_1 = Probe.func Probe.slot_3b_00_0).
Proof.
  assert (Hp : Probe.slot_ok Probe.slot_3b_00_1)
    by (unfold Probe.slot_ok; cbn; lia).
  assert (Hq : Probe.slot_ok Probe.slot_3b_00_0)
    by (unfold Probe.slot_ok; cbn; lia).
  split; [exact Hp|]. split; [exact Hq|].
  exact (pcie_dev_name_tells_slots_apart _ _ Hp Hq).
Defined.
